(** * SEC ownership scraper: filing-to-records extraction pipeline

    A shallow embedding of the extraction core of the repository
    (scrape_proxy_holders.py, src/simple_scraper.py and
    src/comprehensive_market_scraper.py) together with the properties the
    specification states about it.

    Conventions of the embedding.
    - A Python [str] is a list of characters ([str] below).  Characters are
      8-bit code points read as Latin-1 (U+0000..U+00FF); the character
      classes of Python ([str.isspace], [\s], [\w], [\d], [str.lower],
      [str.upper]) are tabulated for that range.
    - A compiled regular expression is a value of [regex]; [run] is the
      backtracking matcher of the [re] module (leftmost match, alternatives
      and repetitions tried in priority order).
    - A Python [float] is a binary64 value ([spec_float], precision 53,
      maximal exponent 1024); [float(s)] rounds the decimal to nearest-even.
    - [None] is [None]; a missing DataFrame cell (NaN) is the constructor
      [CNaN].
    - [int(s)] converts a digit text of any length: the bound that CPython
      puts by default on the number of digits of such a text
      ([sys.int_max_str_digits], 4300 digits from version 3.11 on) is not
      modelled, and a [ValueError] it causes lies outside the embedding. *)

From Stdlib Require Import ZArith List Ascii String Bool Lia SpecFloat DecimalString.
From Stdlib Require DecimalPos.
From stdpp Require Import base option list gmap strings.

(** ** Characters and strings *)

Definition str : Type := list ascii.

Definition of_string (s : string) : str := list_ascii_of_string s.
Coercion of_string : string >-> str.

Definition code (c : ascii) : N := N_of_ascii c.

Definition in_range (lo hi : N) (c : ascii) : bool :=
  (lo <=? code c)%N && (code c <=? hi)%N.

(** [str.isspace] and the class [\s] on Latin-1: TAB..CR, FS..US, space,
    NEL (U+0085) and NBSP (U+00A0). *)
Definition isspace (c : ascii) : bool :=
  in_range 9 13 c || in_range 28 32 c || (code c =? 133)%N || (code c =? 160)%N.

(** The class [\d] on Latin-1: the ten ASCII digits. *)
Definition isdigit (c : ascii) : bool := in_range 48 57 c.

Definition is_ascii_upper (c : ascii) : bool := in_range 65 90 c.
Definition is_ascii_lower (c : ascii) : bool := in_range 97 122 c.
Definition is_ascii_letter (c : ascii) : bool := is_ascii_upper c || is_ascii_lower c.

(** The class [\w] on Latin-1: alphanumerics (every code point whose
    [str.isalnum] is true) and the underscore. *)
Definition isword (c : ascii) : bool :=
  isdigit c || is_ascii_letter c || (code c =? 95)%N
  || (code c =? 170)%N || (code c =? 178)%N || (code c =? 179)%N
  || (code c =? 181)%N || (code c =? 185)%N || (code c =? 186)%N
  || in_range 188 190 c
  || in_range 192 214 c || in_range 216 246 c || in_range 248 255 c.

(** [str.lower] on one character: A-Z and the Latin-1 capitals U+00C0..U+00DE
    (but not the multiplication sign U+00D7) move up by 32. *)
Definition lower_char (c : ascii) : ascii :=
  if is_ascii_upper c || (in_range 192 222 c && negb (code c =? 215)%N)
  then ascii_of_N (code c + 32) else c.

Definition lower (s : str) : str := map lower_char s.

(** [str.upper] on one character.  U+00DF (sharp s) becomes the two letters
    SS.  The images of U+00B5 and U+00FF (U+039C and U+0178) lie outside the
    modelled range; they are left in place, which like their real images is
    not an ASCII character. *)
Definition upper_char (c : ascii) : str :=
  if is_ascii_lower c || (in_range 224 254 c && negb (code c =? 247)%N)
  then [ascii_of_N (code c - 32)]
  else if (code c =? 223)%N then of_string "SS"
  else [c].

Definition upper (s : str) : str := flat_map upper_char s.

Fixpoint lstrip (s : str) : str :=
  match s with
  | c :: s' => if isspace c then lstrip s' else s
  | [] => []
  end.

Definition rstrip (s : str) : str := rev (lstrip (rev s)).

(** [str.strip()] *)
Definition strip (s : str) : str := rstrip (lstrip s).

Definition str_eqb (a b : str) : bool := bool_decide (a = b).

(** [s[a:b]] for [0 <= a] and [0 <= b] *)
Definition slice (s : str) (a b : nat) : str := take (b - a) (drop a s).

(** ** Regular expressions *)

Inductive regex : Type :=
| Eps
| Chr (p : ascii -> bool)
| Seq (r1 r2 : regex)
| Alt (r1 r2 : regex)
| Rep (r : regex) (lo : nat) (hi : option nat) (greedy : bool)
| Grp (n : nat) (r : regex)
| WordB.

Definition span : Type := nat * nat.
Definition groups : Type := list (nat * span).

Fixpoint group_span (g : groups) (n : nat) : option span :=
  match g with
  | [] => None
  | (i, sp) :: g' => if Nat.eqb i n then Some sp else group_span g' n
  end.

(** A position in the subject: the character before it, its offset and the
    characters from it on. *)
Record cursor : Type := Cursor { c_prev : option ascii; c_pos : nat; c_rest : str }.

Definition start_cursor (s : str) : cursor := Cursor None 0 s.

Definition word_before (c : cursor) : bool :=
  match c_prev c with Some x => isword x | None => false end.

Definition word_after (c : cursor) : bool :=
  match c_rest c with x :: _ => isword x | [] => false end.

Definition below (n : nat) (hi : option nat) : bool :=
  match hi with Some h => Nat.ltb n h | None => true end.

(** The loop of a repetition of [body], [n] iterations being done: a greedy
    loop tries one more iteration before it stops, a lazy one stops before
    it tries more.  An iteration that consumes nothing is not taken, and
    the loop is bounded by [fuel], the number of characters left, each
    iteration consuming at least one. *)
Definition rep_loop {R : Type}
    (body : cursor -> groups -> (cursor -> groups -> option R) -> option R)
    (lo : nat) (hi : option nat) (greedy : bool)
    (k : cursor -> groups -> option R) : nat -> nat -> cursor -> groups -> option R :=
  fix loop (fuel n : nat) (c : cursor) (g : groups) {struct fuel} : option R :=
    let more (_ : unit) :=
      match fuel with
      | 0 => None
      | S fuel' =>
          if below n hi then
            body c g (fun c' g' =>
              if Nat.eqb (c_pos c') (c_pos c) then None
              else loop fuel' (S n) c' g')
          else None
      end in
    let stop (_ : unit) := if Nat.leb lo n then k c g else None in
    if greedy then
      match more tt with Some res => Some res | None => stop tt end
    else
      match stop tt with Some res => Some res | None => more tt end.

(** The matcher, in continuation-passing style: [run r c g k] matches [r]
    at [c] and hands every way of doing so, in the priority order of the
    [re] module, to [k] until [k] accepts. *)
Fixpoint run {R : Type} (r : regex) (c : cursor) (g : groups)
    (k : cursor -> groups -> option R) {struct r} : option R :=
  match r with
  | Eps => k c g
  | Chr p =>
      match c_rest c with
      | x :: rest => if p x then k (Cursor (Some x) (S (c_pos c)) rest) g else None
      | [] => None
      end
  | Seq r1 r2 => run r1 c g (fun c' g' => run r2 c' g' k)
  | Alt r1 r2 =>
      match run r1 c g k with
      | Some res => Some res
      | None => run r2 c g k
      end
  | Rep r' lo hi greedy =>
      rep_loop (run r') lo hi greedy k (length (c_rest c)) 0 c g
  | Grp n r' => run r' c g (fun c' g' => k c' ((n, (c_pos c, c_pos c')) :: g'))
  | WordB => if xorb (word_before c) (word_after c) then k c g else None
  end.

(** A match object: [start()], [end()] and the spans of the groups. *)
Record rmatch : Type := RMatch { m_start : nat; m_end : nat; m_groups : groups }.

(** [pattern.match] at a cursor *)
Definition match_at (r : regex) (c : cursor) : option rmatch :=
  run r c [] (fun c' g => Some (RMatch (c_pos c) (c_pos c') g)).

(** The scan of [re.search]: the first position, from the cursor on, where
    the pattern matches. *)
Fixpoint search_from (r : regex) (prev : option ascii) (pos : nat) (rest : str)
    : option rmatch :=
  match match_at r (Cursor prev pos rest) with
  | Some m => Some m
  | None =>
      match rest with
      | x :: rest' => search_from r (Some x) (S pos) rest'
      | [] => None
      end
  end.

(** [re.search(r, s)] *)
Definition re_search (r : regex) (s : str) : option rmatch :=
  search_from r None 0 s.

(** [m.group(0)] and [m.group(n)] *)
Definition group0 (s : str) (m : rmatch) : str := slice s (m_start m) (m_end m).

Definition group (s : str) (m : rmatch) (n : nat) : option str :=
  match group_span (m_groups m) n with
  | Some (a, b) => Some (slice s a b)
  | None => None
  end.

(** [re.sub(r, repl, s)] for a pattern that matches no empty string, as
    both patterns the program substitutes ([\s+] and [[^\d]]): the subject
    is scanned left to right, every match is replaced and the scan resumes
    after it. *)
Fixpoint sub_from (fuel : nat) (r : regex) (repl : str)
    (prev : option ascii) (pos : nat) (rest : str) : str :=
  match fuel with
  | 0 => rest
  | S fuel' =>
      match rest with
      | [] => []
      | x :: rest' =>
          match match_at r (Cursor prev pos rest) with
          | Some m =>
              let n := m_end m - pos in
              if Nat.eqb n 0 then x :: sub_from fuel' r repl (Some x) (S pos) rest'
              else repl ++ sub_from fuel' r repl (last (take n rest)) (m_end m) (drop n rest)
          | None => x :: sub_from fuel' r repl (Some x) (S pos) rest'
          end
      end
  end.

Definition re_sub (r : regex) (repl : str) (s : str) : str :=
  sub_from (length s) r repl None 0 s.

(** Pattern constructors *)

Fixpoint lit (w : str) : regex :=
  match w with
  | [] => Eps
  | c :: w' => Seq (Chr (Ascii.eqb c)) (lit w')
  end.

(** A literal under [re.IGNORECASE] *)
Fixpoint lit_ci (w : str) : regex :=
  match w with
  | [] => Eps
  | c :: w' => Seq (Chr (fun x => Ascii.eqb (lower_char x) (lower_char c))) (lit_ci w')
  end.

Definition star (r : regex) : regex := Rep r 0 None true.
Definition plus (r : regex) : regex := Rep r 1 None true.
Definition opt (r : regex) : regex := Rep r 0 (Some 1) true.
Definition lazy_star (r : regex) : regex := Rep r 0 None false.
Definition lazy_plus (r : regex) : regex := Rep r 1 None false.
Definition times (lo hi : nat) (r : regex) : regex := Rep r lo (Some hi) true.

(** [.] without [re.DOTALL]: any character but the line feed *)
Definition dot : regex := Chr (fun x => negb (code x =? 10)%N).
Definition chr (c : string) : regex := lit c.

Fixpoint seqs (rs : list regex) : regex :=
  match rs with
  | [] => Eps
  | [r] => r
  | r :: rs' => Seq r (seqs rs')
  end.

(** ** DataFrame cells *)

(** A cell of a parsed table: text, an integer, or missing (NaN). *)
Inductive cell : Type :=
| CStr (s : str)
| CInt (z : Z)
| CNaN.

(** ** Holder-name canonicalization (scrape_proxy_holders.py) *)

(** [\s+] *)
Definition re_spaces : regex := plus (Chr isspace).

(** The [aliases] dictionary, in insertion order. *)
Definition aliases : list (regex * str) :=
  [ (* \bthe vanguard group.* *)
    (seqs [WordB; lit "the vanguard group"; star dot], of_string "Vanguard Group");
    (* \bblackrock,? inc\.? *)
    (seqs [WordB; lit "blackrock"; opt (chr ","); lit " inc"; opt (chr ".")],
     of_string "BlackRock");
    (* \bstate street.* *)
    (seqs [WordB; lit "state street"; star dot], of_string "State Street");
    (* \bfidelity(?: management .*?)? *)
    (seqs [WordB; lit "fidelity"; opt (Seq (lit " management ") (lazy_star dot))],
     of_string "Fidelity");
    (* \bt\.? rowe price.* *)
    (seqs [WordB; chr "t"; opt (chr "."); lit " rowe price"; star dot],
     of_string "T. Rowe Price");
    (* \bberkshire hathaway.* *)
    (seqs [WordB; lit "berkshire hathaway"; star dot], of_string "Berkshire Hathaway") ].

(** The loop over [aliases.items()]: the label of the first pattern found
    in [lower], or [n]. *)
Fixpoint first_alias (rules : list (regex * str)) (lower n : str) : str :=
  match rules with
  | [] => n
  | (pat, repl) :: rules' =>
      match re_search pat lower with
      | Some _ => repl
      | None => first_alias rules' lower n
      end
  end.

(** The body of [clean_holder_name] for a [str] argument. *)
Definition clean_name (name : str) : str :=
  let n := strip (re_sub re_spaces (of_string " ") name) in
  first_alias aliases (lower n) n.

(** [clean_holder_name]: an argument that is not a [str] is returned as it is. *)
Definition clean_holder_name (name : cell) : cell :=
  match name with
  | CStr s => CStr (clean_name s)
  | _ => name
  end.

(** ** Exceptions *)

Inductive exn : Type :=
| IndexError
| ValueError
| OverflowError
| RuntimeError
| RequestException
| AttributeError.

Inductive result (A : Type) : Type :=
| Ok (a : A)
| Raise (e : exn).
Arguments Ok {A} a.
Arguments Raise {A} e.

#[export] Instance result_ret : MRet result := fun A a => Ok a.
#[export] Instance result_bind : MBind result := fun A B f m =>
  match m with
  | Ok a => f a
  | Raise e => Raise e
  end.
#[export] Instance result_fmap : FMap result := fun A B f m =>
  match m with
  | Ok a => Ok (f a)
  | Raise e => Raise e
  end.

(** ** Numbers *)

Definition float : Type := spec_float.

Definition prec : Z := 53.
Definition emax : Z := 1024.

Definition f_leb : float -> float -> bool := SFleb.
Definition f_zero : float := S754_zero false.

(** The binary64 nearest to [m * 10^e] (ties to even), with sign [neg]. *)
Definition float_of_decimal (neg : bool) (m : Z) (e : Z) : float :=
  match m with
  | Zpos p =>
      if (0 <=? e)%Z then binary_round prec emax neg (Z.to_pos (m * 10 ^ e)) 0
      else
        let '(q, e', l) := SFdiv_core_binary prec emax m 0 (10 ^ (- e)) 0 in
        binary_round_aux prec emax neg q e' l
  | _ => S754_zero neg
  end.

Definition float_of_Z (z : Z) : float := float_of_decimal (z <? 0)%Z (Z.abs z) 0.

Definition digit_val (c : ascii) : Z := Z.of_N (code c) - 48.

(** The longest prefix of digits: its value on top of [acc], its length, and
    what follows. *)
Fixpoint read_digits (s : str) (acc : Z) (n : nat) : Z * nat * str :=
  match s with
  | c :: s' =>
      if isdigit c then read_digits s' (10 * acc + digit_val c)%Z (S n)
      else (acc, n, s)
  | [] => (acc, n, [])
  end.

Definition read_sign (s : str) : bool * str :=
  match s with
  | c :: s' =>
      if (code c =? 45)%N then (true, s')
      else if (code c =? 43)%N then (false, s')
      else (false, s)
  | [] => (false, [])
  end.

(** Underscores in a numeric literal: each one sits between two digits.  The
    result is the literal without them. *)
Fixpoint drop_underscores (prev : option ascii) (s : str) : option str :=
  match s with
  | [] => match prev with
          | Some p => if (code p =? 95)%N then None else Some []
          | None => Some []
          end
  | c :: s' =>
      if (code c =? 95)%N then
        match prev with
        | Some p => if isdigit p then drop_underscores (Some c) s' else None
        | None => None
        end
      else
        let ok := match prev with
                  | Some p => negb (code p =? 95)%N || isdigit c
                  | None => true
                  end in
        if ok then option_map (cons c) (drop_underscores (Some c) s') else None
  end.

(** The decimal exponent suffix: nothing, or [e]/[E], an optional sign and
    at least one digit, up to the end of the text. *)
Definition read_exponent (s : str) : option Z :=
  match s with
  | [] => Some 0%Z
  | c :: s' =>
      if (code (lower_char c) =? 101)%N then
        let '(neg, s1) := read_sign s' in
        match read_digits s1 0 0 with
        | (v, S _, []) => Some (if neg then (- v)%Z else v)
        | _ => None
        end
      else None
  end.

(** The white space that [int] and [float] skip around a numeral.  The
    text goes through [_PyUnicode_TransformDecimalAndSpaceToASCII], which
    turns the white space above U+007F into blanks, and is then stripped of
    the ASCII white space of [Py_ISSPACE]: the class of [str.isspace]
    without the separators U+001C..U+001F. *)
Definition is_num_space (c : ascii) : bool := isspace c && negb (in_range 28 31 c).

Fixpoint lstrip_num (s : str) : str :=
  match s with
  | c :: s' => if is_num_space c then lstrip_num s' else s
  | [] => []
  end.

Definition num_strip (s : str) : str := rev (lstrip_num (rev (lstrip_num s))).

(** [float(s)] for a [str]: [None] stands for the [ValueError]. *)
Definition py_float (s : str) : option float :=
  match drop_underscores None (num_strip s) with
  | None => None
  | Some t =>
      let '(neg, u) := read_sign t in
      let lu := lower u in
      if str_eqb lu (of_string "inf") || str_eqb lu (of_string "infinity")
      then Some (S754_infinity neg)
      else if str_eqb lu (of_string "nan") then Some S754_nan
      else
        let '(ip, ni, r1) := read_digits u 0 0 in
        let '(m, nf, r2) :=
          match r1 with
          | c :: r1' => if (code c =? 46)%N then read_digits r1' ip 0 else (ip, 0, r1)
          | [] => (ip, 0, [])
          end in
        if Nat.eqb (ni + nf) 0 then None
        else
          match read_exponent r2 with
          | Some e => Some (float_of_decimal neg m (e - Z.of_nat nf))
          | None => None
          end
  end.

(** [int(s)] for a text of decimal digits *)
Definition int_of_digits (s : str) : Z := fst (fst (read_digits s 0 0)).

(** [str(z)] for an [int] *)
Definition str_of_Z (z : Z) : str :=
  of_string (DecimalString.NilZero.string_of_int (Z.to_int z)).

(** Truth values of [Optional[int]] and [Optional[float]] *)
Definition truthy_int (o : option Z) : bool :=
  match o with Some z => negb (z =? 0)%Z | None => false end.

Definition truthy_float (o : option float) : bool :=
  match o with
  | Some (S754_zero _) => false
  | Some _ => true
  | None => false
  end.

(** [int(s)] for a [str]: optional sign, decimal digits with single
    underscores between them, surrounding whitespace ignored; [None] stands
    for the [ValueError]. *)
Definition py_int (s : str) : option Z :=
  let '(neg, t) := read_sign (num_strip s) in
  match drop_underscores None t with
  | Some (c :: u) =>
      if forallb isdigit (c :: u)
      then Some (if neg then (- int_of_digits (c :: u))%Z else int_of_digits (c :: u))
      else None
  | _ => None
  end.

(** [str.isdigit] on Latin-1: the ASCII digits and the superscripts
    U+00B2, U+00B3 and U+00B9; false on the empty text. *)
Definition str_isdigit (s : str) : bool :=
  match s with
  | [] => false
  | _ => forallb (fun c => isdigit c || (code c =? 178)%N || (code c =? 179)%N
                           || (code c =? 185)%N) s
  end.

(** [w in s] for two [str] *)
Fixpoint starts_with (w s : str) : bool :=
  match w, s with
  | [], _ => true
  | a :: w', b :: s' => Ascii.eqb a b && starts_with w' s'
  | _ :: _, [] => false
  end.

Fixpoint contains (w s : str) : bool :=
  starts_with w s || match s with
                     | [] => false
                     | _ :: s' => contains w s'
                     end.

(** [any(k in text for k in keys)] *)
Definition any_in (keys : list str) (text : str) : bool :=
  existsb (fun k => contains k text) keys.

(** ** Tables (scrape_proxy_holders.py) *)

(** A [DataFrame]: the column labels and the rows, one cell per column. *)
Record dataframe : Type := DataFrame { columns : list cell; rows : list (list cell) }.

(** [str(x)] for a label or a cell *)
Definition py_str (x : cell) : str :=
  match x with
  | CStr s => s
  | CInt z => str_of_Z z
  | CNaN => of_string "nan"
  end.

(** [pd.isna(x)] *)
Definition isna (x : cell) : bool :=
  match x with CNaN => true | _ => false end.

(** [df.iloc[:, j]]: out of range is an [IndexError]; a row that is short
    of a cell reads as missing. *)
Definition iloc_col (df : dataframe) (j : nat) : result (list cell) :=
  if Nat.ltb j (length (columns df))
  then Ok (map (fun row : list cell => default CNaN (row !! j)) (rows df))
  else Raise IndexError.

(** [([0-9]+(?:\.[0-9]+)?)\s*%] *)
Definition re_percent : regex :=
  seqs [Grp 1 (Seq (plus (Chr isdigit)) (opt (Seq (chr ".") (plus (Chr isdigit)))));
        star (Chr isspace); chr "%"].

(** [extract_percent] *)
Definition extract_percent (value : cell) : result (option float) :=
  if isna value then Ok None
  else
    let s := py_str value in
    match re_search re_percent s with
    | Some m =>
        match group s m 1 ≫= py_float with
        | Some f => Ok (Some f)
        | None => Raise ValueError
        end
    | None =>
        match py_float s with
        | Some f => Ok (Some f)
        | None => Ok None
        end
    end.

(** [detect_content_type] *)

Inductive content_type : Type := html | xml | text.

(** [<!DOCTYPE html|</html>] under [re.I] *)
Definition re_html : regex := Alt (lit_ci "<!DOCTYPE html") (lit_ci "</html>").

(** [<\?xml|</[a-zA-Z]+>] *)
Definition re_xml : regex :=
  Alt (lit "<?xml") (seqs [lit "</"; plus (Chr is_ascii_letter); chr ">"]).

Definition detect_content_type (content : str) : content_type :=
  if bool_decide (is_Some (re_search re_html content)) then html
  else if bool_decide (is_Some (re_search re_xml content)) then xml
  else text.

(** [detect_ownership_columns] *)

(** [not col_mapping.get(key)]: true when the key is absent and when it is
    mapped to 0. *)
Definition not_get (col_mapping : gmap string nat) (key : string) : bool :=
  match col_mapping !! key with
  | Some (S _) => false
  | _ => true
  end.

Definition name_keys : list str :=
  [of_string "name"; of_string "beneficial"; of_string "holder"; of_string "shareholder"].
Definition percent_keys : list str :=
  [of_string "%"; of_string "percent"; of_string "percentage"].
Definition shares_keys : list str :=
  [of_string "share"; of_string "security"; of_string "amount"; of_string "number"].

(** One iteration of the loop over [enumerate(df.columns)] *)
Definition detect_step (i : nat) (col : cell) (col_mapping : gmap string nat)
    : gmap string nat :=
  let col_text := lower (py_str col) in
  let m1 := if not_get col_mapping "name" && any_in name_keys col_text
            then <["name" := i]> col_mapping else col_mapping in
  let m2 := if not_get m1 "percent" && any_in percent_keys col_text
            then <["percent" := i]> m1 else m1 in
  if not_get m2 "shares" && any_in shares_keys col_text
  then <["shares" := i]> m2 else m2.

Fixpoint detect_loop (i : nat) (cols : list cell) (col_mapping : gmap string nat)
    : gmap string nat :=
  match cols with
  | [] => col_mapping
  | col :: cols' => detect_loop (S i) cols' (detect_step i col col_mapping)
  end.

Definition detect_ownership_columns (df : dataframe) : gmap string nat :=
  detect_loop 0 (columns df) ∅.

(** [process_ownership_table] *)

Record holder_row : Type := HolderRow {
  holder_raw : str;
  holder : str;
  percent_class : option float;
  shares : option Z
}.

(** [[^\d]] *)
Definition re_nondigit : regex := Chr (fun c => negb (isdigit c)).

(** The local function [to_int] *)
Definition to_int (x : cell) : result (option Z) :=
  if isna x then Ok None
  else
    let s := re_sub re_nondigit [] (py_str x) in
    if str_isdigit s then
      match py_int s with
      | Some z => Ok (Some z)
      | None => Raise ValueError
      end
    else Ok None.

(** The column normalisation of the first line of [process_ownership_table] *)
Definition normalize_columns (df : dataframe) : dataframe :=
  DataFrame
    (map (fun c => CStr (strip (re_sub re_spaces (of_string " ") (py_str c)))) (columns df))
    (rows df).

(** [holder.str.contains("total", case=False, na=False)] on one value *)
Definition contains_total (h : str) : bool :=
  bool_decide (is_Some (re_search (lit_ci "total") h)).

Fixpoint zip_rows (raw : list str) (pc : list (option float)) (sh : list (option Z))
    : list holder_row :=
  match raw, pc, sh with
  | r :: raw', p :: pc', s :: sh' =>
      HolderRow r (clean_name r) p s :: zip_rows raw' pc' sh'
  | _, _, _ => []
  end.

Definition process_ownership_table (df0 : dataframe) : result (list holder_row) :=
  let df := normalize_columns df0 in
  let col_map := detect_ownership_columns df in
  names ← match col_map !! "name" with
          | Some j => iloc_col df j
          | None => iloc_col df 0
          end;
  let raw := map py_str names in
  pc ← match col_map !! "percent" with
       | Some j => iloc_col df j ≫= mapM extract_percent
       | None => Ok (map (fun _ => None) raw)
       end;
  sh ← match col_map !! "shares" with
       | Some j => iloc_col df j ≫= mapM to_int
       | None => Ok (map (fun _ => None) raw)
       end;
  let out := zip_rows raw pc sh in
  let out := filter (fun r => negb (contains_total (holder r))) out in
  Ok (filter (fun r => Nat.ltb 1 (length (holder r))) out).

(** ** Filing locator (scrape_proxy_holders.py) *)

(** [a < b] on two [str]: lexicographic on the code points *)
Fixpoint str_ltb (a b : str) : bool :=
  match a, b with
  | _, [] => false
  | [], _ :: _ => true
  | x :: a', y :: b' =>
      (code x <? code y)%N || ((code x =? code y)%N && str_ltb a' b')
  end.

(** The [filings.recent] part of a submissions document: four parallel
    arrays.  A key that is absent reads as the empty array. *)
Record submissions : Type := Submissions {
  form : list str;
  filingDate : list str;
  accessionNumber : list str;
  primaryDocument : list str
}.

(** [str(form).strip().upper() in ["DEF 14A", "DEF 14"]] *)
Definition is_proxy_form (f : str) : bool :=
  let u := upper (strip f) in
  str_eqb u (of_string "DEF 14A") || str_eqb u (of_string "DEF 14").

(** [s.replace("-", "")] *)
Definition remove_dashes (s : str) : str :=
  filter (fun c => code c ≠ 45%N) s.

(** The scan of [find_latest_def14a]: [latest] holds [latest_idx] and
    [latest_date] together. *)
Fixpoint latest_loop (i : nat) (forms : list str) (filing_dates : list str)
    (latest : option (nat * str)) : result (option (nat * str)) :=
  match forms with
  | [] => Ok latest
  | f :: forms' =>
      if is_proxy_form f then
        match filing_dates !! i with
        | None => Raise IndexError
        | Some d =>
            let latest' :=
              match latest with
              | None => Some (i, d)
              | Some (_, latest_date) =>
                  if str_ltb latest_date d then Some (i, d) else latest
              end in
            latest_loop (S i) forms' filing_dates latest'
        end
      else latest_loop (S i) forms' filing_dates latest
  end.

(** [find_latest_def14a]: the filing date, the accession number without
    dashes and the primary document of the selected entry. *)
Definition find_latest_def14a (subs : submissions) : result (option (str * str * str)) :=
  latest ← latest_loop 0 (form subs) (filingDate subs) None;
  match latest with
  | None => Ok None
  | Some (latest_idx, _) =>
      match accessionNumber subs !! latest_idx with
      | None => Raise IndexError
      | Some acc =>
          let primary_doc := default [] (primaryDocument subs !! latest_idx) in
          match filingDate subs !! latest_idx with
          | None => Raise IndexError
          | Some d => Ok (Some (d, remove_dashes acc, primary_doc))
          end
      end
  end.

(** The locator step of [fetch_ownership_for_sp500]: no filing found, or a
    filing without a primary document, is a skip. *)
Definition locate_filing (subs : submissions) : result (option (str * str * str)) :=
  found ← find_latest_def14a subs;
  match found with
  | None => Ok None
  | Some (filing_date, acc_nodash, primary_doc) =>
      match primary_doc with
      | [] => Ok None
      | _ => Ok (Some (filing_date, acc_nodash, primary_doc))
      end
  end.

(** The loop of [_get_latest_filing_url_fast] (comprehensive_market_scraper.py)
    and of [_get_latest_filing_url] (simple_scraper.py): the first [DEF 14A]
    entry, in array order, that has a primary document. *)
Fixpoint first_def14a (i : nat) (forms accessions primary_docs : list str)
    : result (option (str * str)) :=
  match forms with
  | [] => Ok None
  | f :: forms' =>
      if str_eqb (upper (strip f)) (of_string "DEF 14A") then
        match accessions !! i with
        | None => Raise IndexError
        | Some acc =>
            match default [] (primary_docs !! i) with
            | [] => first_def14a (S i) forms' accessions primary_docs
            | doc => Ok (Some (remove_dashes acc, doc))
            end
        end
      else first_def14a (S i) forms' accessions primary_docs
  end.

(** ** Text fallback (scrape_proxy_holders.py) *)

(** [re.findall] and [re.finditer] for a pattern that matches no empty
    string: the successive leftmost matches, each search resuming where the
    previous match ended. *)
Fixpoint findall_from (fuel : nat) (r : regex) (prev : option ascii) (pos : nat)
    (rest : str) : list rmatch :=
  match fuel with
  | 0 => []
  | S fuel' =>
      match search_from r prev pos rest with
      | None => []
      | Some m =>
          let n := m_end m - pos in
          if Nat.eqb (m_end m) (m_start m) then [m]
          else m :: findall_from fuel' r (last (take n rest)) (m_end m) (drop n rest)
      end
  end.

Definition re_findall (r : regex) (s : str) : list rmatch :=
  findall_from (length s) r None 0 s.

(** A group of a [findall] tuple: the empty text when the group took no
    part in the match. *)
Definition group_or_empty (s : str) (m : rmatch) (n : nat) : str :=
  default [] (group s m n).

(** [.] under [re.DOTALL] *)
Definition any_char : regex := Chr (fun _ => true).
Definition digit : regex := Chr isdigit.
Definition space : regex := Chr isspace.

(** [(Security Ownership|Beneficial Ownership).*?\n(.*?)\n\n] under
    [re.DOTALL | re.IGNORECASE] *)
Definition section_pattern : regex :=
  seqs [Grp 1 (Alt (lit_ci "Security Ownership") (lit_ci "Beneficial Ownership"));
        lazy_star any_char; lit [ascii_of_N 10];
        Grp 2 (lazy_star any_char); lit [ascii_of_N 10; ascii_of_N 10]].

(** [(\w[\w\s,.]+?)\s+(\d{1,3}(?:,\d{3})*\s+)?(\d+\.\d+%|\d+%)] *)
Definition row_pattern : regex :=
  seqs [Grp 1 (Seq (Chr isword)
                 (lazy_plus (Chr (fun c => isword c || isspace c
                                          || (code c =? 44)%N || (code c =? 46)%N))));
        plus space;
        opt (Grp 2 (seqs [times 1 3 digit; star (Seq (chr ",") (times 3 3 digit));
                          plus space]));
        Grp 3 (Alt (seqs [plus digit; chr "."; plus digit; chr "%"])
                   (seqs [plus digit; chr "%"]))].

(** [s.replace(",", "")] and [s.replace("%", "")] *)
Definition remove_char (n : N) (s : str) : str :=
  filter (fun c => code c ≠ n) s.

(** The body of the loop over the [findall] tuples: [None] when the tuple
    is skipped. *)
Definition text_row (section_text : str) (m : rmatch) : result (option holder_row) :=
  let holder := strip (group_or_empty section_text m 1) in
  let g2 := group_or_empty section_text m 2 in
  let shares := match g2 with
                | [] => None
                | _ => Some (strip (remove_char 44 g2))
                end in
  let percent := strip (remove_char 37 (group_or_empty section_text m 3)) in
  match holder with
  | [] => Ok None
  | _ =>
      if contains (of_string "total") (lower holder) then Ok None
      else
        sh ← match shares return result (option Z) with
             | Some (c :: t) =>
                 match py_int (c :: t) with
                 | Some z => Ok (Some z)
                 | None => Raise ValueError
                 end
             | _ => Ok None
             end;
        match py_float percent with
        | Some p => Ok (Some (HolderRow holder (clean_name holder) (Some p) sh))
        | None => Raise ValueError
        end
  end.

(** [extract_from_text]: the rows of the first ownership paragraph, or
    [None] when there is no such paragraph or no row in it. *)
Definition extract_from_text (content : str) : result (option (list holder_row)) :=
  match re_search section_pattern content with
  | None => Ok None
  | Some sm =>
      let section_text := group0 content sm in
      rows ← mapM (text_row section_text) (re_findall row_pattern section_text);
      match omap id rows with
      | [] => Ok None
      | rs => Ok (Some rs)
      end
  end.

(** ** Institution-pattern extraction (simple_scraper.py and
    comprehensive_market_scraper.py) *)

(** The dictionary appended to [holders] *)
Record holder_record : Type := HolderRecord {
  ticker : str;
  company_name : str;
  holder_name : str;
  shares_held : option Z;       (* key [shares] *)
  percent_owned : option float;
  filing_date : str
}.

(** Words separated by [\s+] *)
Fixpoint words (ws : list string) : regex :=
  match ws with
  | [] => Eps
  | [w] => lit w
  | w :: ws' => Seq (lit w) (Seq (plus space) (words ws'))
  end.

(** [t\.?\s*rowe\s+price] and [t\.\s*rowe\s+price\s+associates] *)
Definition re_t_rowe_price : regex :=
  seqs [chr "t"; opt (chr "."); star space; words ["rowe"; "price"]].
Definition re_t_rowe_price_associates : regex :=
  seqs [chr "t"; chr "."; star space; words ["rowe"; "price"; "associates"]].

(** [blackrock,?\s+inc] *)
Definition re_blackrock_inc : regex :=
  seqs [lit "blackrock"; opt (chr ","); plus space; lit "inc"].

Section PatternLoop.

(** The numbers read around a match: [shares] and [percent]. *)
Variable probe : str -> rmatch -> option Z * option float.
Variables (content ticker company_name today : str).

(** The loop over the patterns of one institution, with its [break]:
    the record of the first pattern that is found and has a number by it. *)
Fixpoint try_patterns (institution_name : str) (patterns : list regex)
    : option holder_record :=
  match patterns with
  | [] => None
  | pattern :: patterns' =>
      match re_search pattern (lower content) with
      | Some m =>
          let '(shares, percent) := probe content m in
          if truthy_int shares || truthy_float percent
          then Some (HolderRecord ticker company_name institution_name
                                  shares percent today)
          else try_patterns institution_name patterns'
      | None => try_patterns institution_name patterns'
      end
  end.

(** The loop over [institutions.items()] *)
Fixpoint holders_loop (institutions : list (str * list regex)) : list holder_record :=
  match institutions with
  | [] => []
  | (institution_name, patterns) :: institutions' =>
      match try_patterns institution_name patterns with
      | Some r => r :: holders_loop institutions'
      | None => holders_loop institutions'
      end
  end.

End PatternLoop.

(** [content[max(0, m.start() - w) : min(len(content), m.end() + w)]] *)
Definition context_window (w : nat) (content : str) (m : rmatch) : str :=
  slice content (m_start m - w) (Nat.min (length content) (m_end m + w)).

Module simple_scraper.

Definition institutions : list (str * list regex) :=
  [ (of_string "Vanguard Group",
     [words ["vanguard"; "group"]; words ["the"; "vanguard"; "group"];
      words ["vanguard"; "fiduciary"]]);
    (of_string "BlackRock",
     [re_blackrock_inc; words ["blackrock"; "fund"];
      words ["blackrock"; "institutional"]]);
    (of_string "State Street",
     [words ["state"; "street"; "corp"]; words ["state"; "street"; "corporation"];
      words ["state"; "street"; "global"]]);
    (of_string "Fidelity",
     [words ["fidelity"; "management"]; words ["fmr"; "llc"];
      words ["fidelity"; "investments"]]);
    (of_string "T. Rowe Price", [re_t_rowe_price; re_t_rowe_price_associates]);
    (of_string "Berkshire Hathaway", [words ["berkshire"; "hathaway"]]);
    (of_string "JPMorgan", [words ["jpmorgan"; "chase"]; words ["jp"; "morgan"]]);
    (of_string "Capital Group",
     [words ["capital"; "group"]; words ["capital"; "research"]]) ].

(** [(\d{1,3}(?:,\d{3}){1,3})] *)
Definition re_shares : regex :=
  Grp 1 (Seq (times 1 3 digit) (times 1 3 (Seq (chr ",") (times 3 3 digit)))).

(** [( \d+\.?\d* )\s*%] (written here with blanks inside the group) *)
Definition re_percent : regex :=
  seqs [Grp 1 (seqs [plus digit; opt (chr "."); star digit]); star space; chr "%"].

Definition probe (content : str) (m : rmatch) : option Z * option float :=
  let context := context_window 1000 content m in
  let shares :=
    match re_search re_shares context with
    | Some sm => g ← group context sm 1; py_int (remove_char 44 g)
    | None => None
    end in
  let percent :=
    match re_search re_percent context with
    | Some pm => g ← group context pm 1; py_float g
    | None => None
    end in
  (shares, percent).

(** [_extract_holders_simple]; [today] is [datetime.now()] formatted. *)
Definition _extract_holders_simple (today content ticker company_name : str)
    : list holder_record :=
  holders_loop probe content ticker company_name today institutions.

End simple_scraper.

Module comprehensive_market_scraper.

Definition major_institutions : list (str * list regex) :=
  [ (of_string "Vanguard Group",
     [words ["vanguard"; "group"]; words ["the"; "vanguard"; "group"]]);
    (of_string "BlackRock", [re_blackrock_inc; words ["blackrock"; "fund"]]);
    (of_string "State Street",
     [words ["state"; "street"; "corp"]; words ["state"; "street"; "corporation"]]);
    (of_string "Fidelity", [words ["fidelity"; "management"]; words ["fmr"; "llc"]]);
    (of_string "T. Rowe Price", [re_t_rowe_price]);
    (of_string "Berkshire Hathaway", [words ["berkshire"; "hathaway"]]);
    (of_string "JPMorgan", [words ["jpmorgan"; "chase"]; words ["jp"; "morgan"]]);
    (of_string "Capital Group",
     [words ["capital"; "group"]; words ["capital"; "research"]]);
    (of_string "Wellington Management", [words ["wellington"; "management"]]);
    (of_string "Invesco", [words ["invesco"; "ltd"]]);
    (of_string "Northern Trust", [words ["northern"; "trust"]]);
    (of_string "Bank of New York Mellon",
     [words ["bank"; "of"; "new"; "york"; "mellon"]; words ["bny"; "mellon"]]);
    (of_string "Goldman Sachs Asset Management",
     [words ["goldman"; "sachs"; "asset"]; lit "gsam"]);
    (of_string "Morgan Stanley Investment Management",
     [words ["morgan"; "stanley"; "investment"]]);
    (of_string "Dimensional Fund Advisors", [words ["dimensional"; "fund"]]) ].

(** [(\d{1,3}(?:,\d{3}){1,4})] *)
Definition re_shares : regex :=
  Grp 1 (Seq (times 1 3 digit) (times 1 4 (Seq (chr ",") (times 3 3 digit)))).

(** [( \d{1,2}\.?\d* )\s*%] (written here with blanks inside the group) *)
Definition re_percent : regex :=
  seqs [Grp 1 (seqs [times 1 2 digit; opt (chr "."); star digit]); star space; chr "%"].

(** The literals [0.1] and [50.0] *)
Definition min_percent : float := float_of_decimal false 1 (-1).
Definition max_percent : float := float_of_decimal false 50 0.

(** [shares] unless [not (1000 <= shares <= 10_000_000_000)] *)
Definition valid_shares (shares : Z) : option Z :=
  if (1000 <=? shares)%Z && (shares <=? 10000000000)%Z then Some shares else None.

(** [percent] unless [not (0.1 <= percent <= 50.0)] *)
Definition valid_percent (percent : float) : option float :=
  if f_leb min_percent percent && f_leb percent max_percent then Some percent else None.

Definition probe (content : str) (m : rmatch) : option Z * option float :=
  let context := context_window 800 content m in
  let shares :=
    match re_search re_shares context with
    | Some sm =>
        g ← group context sm 1; z ← py_int (remove_char 44 g); valid_shares z
    | None => None
    end in
  let percent :=
    match re_search re_percent context with
    | Some pm => g ← group context pm 1; p ← py_float g; valid_percent p
    | None => None
    end in
  (shares, percent).

(** [_extract_institutional_holders_fast] *)
Definition _extract_institutional_holders_fast (today content ticker company_name : str)
    : list holder_record :=
  holders_loop probe content ticker company_name today major_institutions.

End comprehensive_market_scraper.

(** ** HTTP fetch layer (scrape_proxy_holders.py) *)

Section Fetch.

(** Decoded JSON documents *)
Variable json : Type.

(** A response that passed [raise_for_status]: its text, and its decoded
    body when the text is valid JSON. *)
Record response : Type := Response { text_of : str; json_of : option json }.

(** What [requests.get] followed by [raise_for_status] does on one call:
    it returns a response, or raises a [requests.RequestException]
    (transport failure, or [HTTPError] for an error status). *)
Inductive attempt : Type :=
| Returned (r : response)
| Failed.

Inductive event : Type :=
| Request (url : str)
| Sleep (seconds : float)
| Pause.

(** The outside world: the answer of the network to the n-th request of
    the run, the number of requests sent and what happened so far. *)
Record world : Type := World {
  server : nat -> attempt;
  sent : nat;
  trace : list event
}.

Definition io (A : Type) : Type := world -> result A * world.

#[export] Instance io_ret : MRet io := fun A a w => (Ok a, w).
#[export] Instance io_bind : MBind io := fun A B f m w =>
  match m w with
  | (Ok a, w') => f a w'
  | (Raise e, w') => (Raise e, w')
  end.

Definition raise {A : Type} (e : exn) : io A := fun w => (Raise e, w).
Definition lift {A : Type} (r : result A) : io A := fun w => (r, w).

(** [try: m except Exception: h] *)
Definition try_except {A : Type} (m : io A) (h : io A) : io A := fun w =>
  match m w with
  | (Ok a, w') => (Ok a, w')
  | (Raise _, w') => h w'
  end.

(** What [time.sleep] makes of its argument before it sleeps (CPython
    3.11): a NaN is a [ValueError]; the seconds are taken to nanoseconds,
    [seconds * 1e9] rounded away from zero, which must fit a signed 64-bit
    integer, or an [OverflowError] is raised; a negative number of
    nanoseconds is a [ValueError].  On the binary64 product the rounding
    changes neither test. *)
Definition sleep_check (seconds : float) : result unit :=
  match seconds with
  | S754_nan => Raise ValueError
  | _ =>
      let d := SFmul prec emax seconds (float_of_decimal false 1000000000 0) in
      if SFleb (float_of_decimal true (2 ^ 63) 0) d
         && SFltb d (float_of_decimal false (2 ^ 63) 0)
      then if SFltb d (S754_zero false) then Raise ValueError else Ok tt
      else Raise OverflowError
  end.

(** [time.sleep(seconds)] *)
Definition sleep (seconds : float) : io unit := fun w =>
  match sleep_check seconds with
  | Ok _ => (Ok tt, World (server w) (sent w) (trace w ++ [Sleep seconds]))
  | Raise e => (Raise e, w)
  end.

(** [requests.get(url, ...)] and [response.raise_for_status()] *)
Definition http_get (url : str) : io response := fun w =>
  let w' := World (server w) (S (sent w)) (trace w ++ [Request url]) in
  match server w (sent w) with
  | Returned r => (Ok r, w')
  | Failed => (Raise RequestException, w')
  end.

(** The conversion of an [int] operand to [float]: an [OverflowError] when
    it is too large. *)
Definition float_of_int (z : Z) : result float :=
  match float_of_Z z with
  | S754_infinity _ => Raise OverflowError
  | f => Ok f
  end.

(** [backoff * (2 ** i)] *)
Definition sleep_time (backoff : float) (i : nat) : result float :=
  p ← float_of_int (2 ^ Z.of_nat i);
  Ok (SFmul prec emax backoff p).

(** The loop of [get_response] from iteration [i] on, [n] iterations of
    [range(retries + 1)] being left; after the loop, the final
    [raise RuntimeError]. *)
Fixpoint get_response_loop (url : str) (retries : Z) (backoff : float)
    (n i : nat) : io response :=
  match n with
  | 0 => raise RuntimeError
  | S n' => fun w =>
      match http_get url w with
      | (Ok response, w') => (Ok response, w')
      | (Raise RequestException, w') =>
          if (Z.of_nat i <? retries)%Z then
            (t ← lift (sleep_time backoff i);
             _ ← sleep t;
             get_response_loop url retries backoff n' (S i)) w'
          else (Raise RequestException, w')
      | (Raise e, w') => (Raise e, w')
      end
  end.

(** [get_response] *)
Definition get_response (url : str) (retries : Z) (backoff : float) : io response :=
  get_response_loop url retries backoff (Z.to_nat (retries + 1)) 0.

(** [get_json]: a body that is not valid JSON makes [r.json()] raise
    [json.JSONDecodeError], which is turned into a [ValueError]. *)
Definition get_json (url : str) (retries : Z) (backoff : float) : io json :=
  r ← get_response url retries backoff;
  match json_of r with
  | Some j => mret j
  | None => raise ValueError
  end.

(** [MAX_RETRIES] and [BACKOFF_FACTOR] *)
Definition MAX_RETRIES : Z := 3.
Definition BACKOFF_FACTOR : float := float_of_decimal false 15 (-1).

End Fetch.

Arguments Response {json} text_of json_of.
Arguments text_of {json} r.
Arguments json_of {json} r.
Arguments Returned {json} r.
Arguments Failed {json}.
Arguments World {json} server sent trace.
Arguments server {json} w n.
Arguments sent {json} w.
Arguments trace {json} w.
Arguments raise {json A} e w.
Arguments lift {json A} r w.
Arguments try_except {json A} m h w.
Arguments sleep {json} seconds w.
Arguments http_get {json} url w.
Arguments get_response {json} url retries backoff w.
Arguments get_response_loop {json} url retries backoff n i w.
Arguments get_json {json} url retries backoff w.

(** ** The parsing cascade and the batch driver (scrape_proxy_holders.py) *)

(** [SEC_API_BASE] and [SEC_FILES_BASE] *)
Definition SEC_API_BASE : str := of_string "https://data.sec.gov".
Definition SEC_FILES_BASE : str := of_string "https://www.sec.gov".

(** The provenance columns the driver adds to a parsed table: [ticker],
    [company], [sector], [filing_date] and [filing_url]. *)
Record tags : Type := Tags {
  tag_ticker : str;
  tag_company : str;
  tag_sector : str;
  tag_filing_date : str;
  tag_filing_url : str
}.

(** A row of the combined frame *)
Definition ownership_row : Type := tags * holder_row.

(** The last step of [fetch_ownership_for_sp500]:
    [x if (pd.notna(x) and 0 <= x <= 100) else None] on [percent_class]. *)
Definition sane_percent (x : option float) : option float :=
  match x with
  | Some f => if f_leb f_zero f && f_leb f (float_of_Z 100) then Some f else None
  | None => None
  end.

Definition validate_percent (r : ownership_row) : ownership_row :=
  let '(t, h) := r in
  (t, HolderRow (holder_raw h) (holder h) (sane_percent (percent_class h)) (shares h)).

Section Driver.

Variable json : Type.

(** The markup parsers, which are libraries the program calls:
    - [read_html content] is [pd.read_html(content)];
    - [html_tables content] lists, in the order of the search of
      [find_ownership_table_in_html], the table elements it visits, each
      as [pd.read_html(str(table))[0]] gives it;
    - [xml_tables content] does so for [find_ownership_table_in_xml];
    - [recent subs] reads the four arrays under [filings.recent]. *)
Variable read_html : str -> result (list dataframe).
Variable html_tables : str -> result (list (result dataframe)).
Variable xml_tables : str -> result (list (result dataframe)).
Variable recent : json -> submissions.

(** The loop shared by the two section searches: the first visited table
    that parses and whose processed form has a row; a table that raises
    is passed over. *)
Fixpoint first_table (tables : list (result dataframe)) : option (list holder_row) :=
  match tables with
  | [] => None
  | t :: tables' =>
      match t ≫= process_ownership_table with
      | Ok (r :: rs) => Some (r :: rs)
      | _ => first_table tables'
      end
  end.

Definition find_ownership_table_in_html (content : str) : result (option (list holder_row)) :=
  tables ← html_tables content; Ok (first_table tables).

Definition find_ownership_table_in_xml (content : str) : option (list holder_row) :=
  match xml_tables content with
  | Ok tables => first_table tables
  | Raise _ => None
  end.

(** Strategy 1 of [parse_proxy_content]: the first table with a row; an
    exception leaves the strategy. *)
Fixpoint direct_tables (tables : list dataframe) : option (list holder_row) :=
  match tables with
  | [] => None
  | t :: tables' =>
      match process_ownership_table t with
      | Ok (r :: rs) => Some (r :: rs)
      | Ok [] => direct_tables tables'
      | Raise _ => None
      end
  end.

Definition parse_proxy_content (content : str) : result (option (list holder_row)) :=
  let direct := match read_html content with
                | Ok tables => direct_tables tables
                | Raise _ => None
                end in
  match direct with
  | Some processed => Ok (Some processed)
  | None =>
      by_format ← match detect_content_type content with
                  | html => find_ownership_table_in_html content
                  | xml => Ok (find_ownership_table_in_xml content)
                  | text => Ok None
                  end;
      match by_format with
      | Some processed => Ok (Some processed)
      | None => extract_from_text content
      end
  end.

(** A row of the S&P 500 listing: [ticker], [Security] and [GICS Sector] *)
Record company : Type := Company { c_ticker : str; c_security : str; c_sector : str }.

Fixpoint lookup_cik (tick2cik : list (str * str)) (t : str) : option str :=
  match tick2cik with
  | [] => None
  | (k, v) :: rest => if str_eqb k t then Some v else lookup_cik rest t
  end.

(** [get_company_submissions] *)
Definition get_company_submissions (cik10 : str) : io json json :=
  get_json (SEC_API_BASE ++ of_string "/submissions/CIK" ++ cik10 ++ of_string ".json")
           2 BACKOFF_FACTOR.

(** The body of the [try] block for one company: the tagged rows of its
    filing, or [None] for a skip. *)
Definition process_company (c : company) (cik : str) : io json (option (list ownership_row)) :=
  let ticker := upper (c_ticker c) in
  _ ← (fun w => (Ok tt, World (server w) (sent w) (trace w ++ [Pause])));
  subs ← get_company_submissions cik;
  found ← lift (find_latest_def14a (recent subs));
  match found with
  | None => mret None
  | Some (filing_date, acc_nodash, primary_doc) =>
      match primary_doc with
      | [] => mret None
      | _ =>
          n ← lift (match py_int cik with Some n => Ok n | None => Raise ValueError end);
          let url := SEC_FILES_BASE ++ of_string "/Archives/edgar/data/" ++ str_of_Z n
                     ++ of_string "/" ++ acc_nodash ++ of_string "/" ++ primary_doc in
          downloaded ← try_except (r ← get_response url MAX_RETRIES BACKOFF_FACTOR;
                                   mret (Some (text_of r)))
                                  (mret None);
          match downloaded with
          | None => mret None
          | Some content =>
              df ← lift (parse_proxy_content content);
              match df with
              | None | Some [] => mret None
              | Some rs =>
                  mret (Some (map (fun h => (Tags ticker (c_security c) (c_sector c)
                                                  filing_date url, h)) rs))
              end
          end
      end
  end.

(** The loop over the listing: [processed] counts the companies that
    gave rows, and the loop stops when it reaches [limit]. *)
Fixpoint company_loop (tick2cik : list (str * str)) (limit : Z) (spx : list company)
    (processed : Z) : io json (list ownership_row) :=
  match spx with
  | [] => mret []
  | c :: spx' =>
      if (limit <=? processed)%Z then mret []
      else
        match lookup_cik tick2cik (upper (c_ticker c)) with
        | None | Some [] => company_loop tick2cik limit spx' processed
        | Some cik =>
            df ← try_except (process_company c cik) (mret None);
            match df with
            | Some rs =>
                rest ← company_loop tick2cik limit spx' (processed + 1);
                mret (rs ++ rest)
            | None => company_loop tick2cik limit spx' processed
            end
        end
  end.

(** The part of [fetch_ownership_for_sp500] that follows its two opening
    calls (lines 399-477): the loop and the last step, on the listing and
    the ticker map that [get_sp500_tickers] and [get_ticker_cik_map]
    returned.  The whole function, opening calls included, is
    [scrape_proxy_holders.fetch_ownership_for_sp500] below. *)
Definition fetch_ownership_for_sp500 (spx : list company) (tick2cik : list (str * str))
    (limit : Z) : io json (list ownership_row) :=
  combined ← company_loop tick2cik limit spx 0;
  mret (map validate_percent combined).

End Driver.

(** ** Specification-level definitions *)

(** The leftmost column whose lowered header contains one of the keywords *)
Fixpoint leftmost_match (keys : list str) (i : nat) (cols : list cell) : option nat :=
  match cols with
  | [] => None
  | col :: cols' =>
      if any_in keys (lower (py_str col)) then Some i
      else leftmost_match keys (S i) cols'
  end.

(** The table of the Vanguard scenario, as text cells, and as
    [pd.read_html] types it (the share counts read as integers). *)
Definition vanguard_table : dataframe :=
  DataFrame [CStr "Name of Beneficial Owner"; CStr "Shares"; CStr "Percent of Class"]
            [ [CStr "The Vanguard Group, Inc."; CStr "1,234,567"; CStr "8.5%"];
              [CStr "Total"; CStr "1,234,567"; CStr "8.5%"] ].

Definition vanguard_table_typed : dataframe :=
  DataFrame [CStr "Name of Beneficial Owner"; CStr "Shares"; CStr "Percent of Class"]
            [ [CStr "The Vanguard Group, Inc."; CInt 1234567; CStr "8.5%"];
              [CStr "Total"; CInt 1234567; CStr "8.5%"] ].

(** A beneficial-ownership table with the usual three headers *)
Definition usual_table : dataframe :=
  DataFrame [CStr "Name and Address of Beneficial Owner";
             CStr "Amount and Nature of Beneficial Ownership";
             CStr "Percent of Class"]
            [ [CStr "The Vanguard Group"; CStr "1,234,567"; CStr "8.5%"] ].

(** A table whose holder has no figures *)
Definition dashes_table : dataframe :=
  DataFrame [CStr "Name of Beneficial Owner"; CStr "Shares"; CStr "Percent of Class"]
            [ [CStr "Wellington Management Company"; CStr "-"; CStr "-"] ].

(** A filing text where a percentage that is no holding stands next to an
    institution *)
Definition payout_filing : str :=
  of_string "Awards may pay out at 200% of target. The Vanguard Group holds 12,345,678 shares.".

(** A run of the driver on one company: the network answers the first
    request with the submissions document and the second with the filing,
    in which [pd.read_html] finds the table of the Vanguard scenario. *)
Definition apple_submissions : submissions :=
  Submissions [of_string "10-K"; of_string "DEF 14A"; of_string "DEF 14A"]
              [of_string "2024-11-01"; of_string "2023-01-01"; of_string "2024-06-15"]
              [of_string "0000320193-24-000123"; of_string "0000320193-23-000005";
               of_string "0000320193-24-000010"]
              [of_string "annual.htm"; of_string "proxy2023.htm"; of_string "proxy2024.htm"].

Definition apple_world : world submissions :=
  World (fun n => match n with
                  | 0 => Returned (Response [] (Some apple_submissions))
                  | 1 => Returned (Response (of_string "<table>...</table>") None)
                  | _ => Failed
                  end) 0 [].

Definition apple_run : result (list ownership_row) :=
  fst (fetch_ownership_for_sp500 submissions
         (fun _ => Ok [vanguard_table]) (fun _ => Ok []) (fun _ => Ok []) id
         [Company (of_string "aapl") (of_string "Apple Inc.")
                  (of_string "Information Technology")]
         [(of_string "AAPL", of_string "0000320193")] 5 apple_world).

(** [0 <= p <= 100] *)
Definition percent_ok (p : float) : Prop :=
  f_leb f_zero p = true /\ f_leb p (float_of_Z 100) = true.

(** Entry [i] of the submissions is typed as a proxy statement. *)
Definition proxy_entry (subs : submissions) (i : nat) : Prop :=
  exists f, form subs !! i = Some f /\ is_proxy_form f = true.

Definition date_at (subs : submissions) (i : nat) : str :=
  default [] (filingDate subs !! i).

(** Entry [i] is the proxy entry with the greatest filing date, the first
    of them if several bear that date. *)
Definition latest_proxy_entry (subs : submissions) (i : nat) : Prop :=
  proxy_entry subs i
  /\ (forall j, proxy_entry subs j -> str_ltb (date_at subs i) (date_at subs j) = false)
  /\ (forall j, j < i -> proxy_entry subs j -> str_ltb (date_at subs j) (date_at subs i) = true).

(** The arrays are parallel: every entry has a date and an accession
    number (the primary document may be missing). *)
Definition parallel_arrays (subs : submissions) : Prop :=
  length (form subs) <= length (filingDate subs)
  /\ length (form subs) <= length (accessionNumber subs).

(** Two proxy statements, dated 2023-01-01 and 2024-06-15, in both orders *)
Definition two_proxies : submissions :=
  Submissions [of_string "DEF 14A"; of_string "DEF 14A"]
              [of_string "2023-01-01"; of_string "2024-06-15"]
              [of_string "0001-23-000001"; of_string "0001-24-000002"]
              [of_string "proxy2023.htm"; of_string "proxy2024.htm"].

Definition two_proxies_reversed : submissions :=
  Submissions [of_string "DEF 14A"; of_string "DEF 14A"]
              [of_string "2024-06-15"; of_string "2023-01-01"]
              [of_string "0001-24-000002"; of_string "0001-23-000001"]
              [of_string "proxy2024.htm"; of_string "proxy2023.htm"].

(** What the scan of [find_latest_def14a] knows after the first [n]
    entries: no proxy entry so far, or the latest of them. *)
Definition scanned (subs : submissions) (n : nat) (latest : option (nat * str)) : Prop :=
  match latest with
  | None => forall j, j < n -> ~ proxy_entry subs j
  | Some (k, d) =>
      k < n /\ filingDate subs !! k = Some d /\ proxy_entry subs k
      /\ (forall j, j < n -> proxy_entry subs j -> str_ltb d (date_at subs j) = false)
      /\ (forall j, j < k -> proxy_entry subs j -> str_ltb (date_at subs j) d = true)
  end.

(** [backoff * 2^i] in binary64 *)
Definition backoff_seconds (backoff : float) (i : nat) : float :=
  SFmul prec emax backoff (float_of_Z (2 ^ Z.of_nat i)).

(** The events of [k] failed attempts from attempt [i] on, each followed
    by its sleep, and of one more request. *)
Fixpoint retry_trace (url : str) (backoff : float) (i k : nat) : list event :=
  match k with
  | 0 => [Request url]
  | S k' => Request url :: Sleep (backoff_seconds backoff i) :: retry_trace url backoff (S i) k'
  end.

Definition is_finite_int (z : Z) : bool :=
  match float_of_Z z with
  | S754_infinity _ => false
  | _ => true
  end.

(** A network that fails twice and then answers with a body that is not
    JSON, and one that always fails *)
Definition flaky_world : world unit :=
  World (fun n => if Nat.ltb n 2 then Failed else Returned (Response (of_string "<html>") None))
        0 [].

Definition dead_world : world unit := World (fun _ => Failed) 0 [].

(** ** Definitions for the statements on texts *)

(** [n] characters further in the subject *)
Fixpoint advance (n : nat) (c : cursor) : cursor :=
  match n, c_rest c with
  | S n', x :: rest => advance n' (Cursor (Some x) (S (c_pos c)) rest)
  | _, _ => c
  end.

(** The length of the longest prefix of characters in the class [p] *)
Fixpoint span_len (p : ascii -> bool) (s : str) : nat :=
  match s with
  | x :: s' => if p x then S (span_len p s') else 0
  | [] => 0
  end.

(** Every run of whitespace replaced by one blank; [in_run] tells that the
    character before was whitespace. *)
Fixpoint squeeze (in_run : bool) (s : str) : str :=
  match s with
  | [] => []
  | x :: s' =>
      if isspace x then
        if in_run then squeeze true s' else " "%char :: squeeze true s'
      else x :: squeeze false s'
  end.

(** The only whitespace of the text is single blanks. *)
Fixpoint tidy (in_run : bool) (s : str) : bool :=
  match s with
  | [] => true
  | x :: s' =>
      if isspace x then Ascii.eqb x " "%char && negb in_run && tidy true s'
      else tidy false s'
  end.

Definition ok {R : Type} (o : option R) : bool :=
  match o with Some _ => true | None => false end.

(** Some suffix of the text satisfies [P]. *)
Fixpoint exists_suffix (P : str -> bool) (s : str) : bool :=
  P s || match s with
         | [] => false
         | _ :: s' => exists_suffix P s'
         end.

(** Containment of a literal, without regard to case *)
Fixpoint starts_with_ci (w s : str) : bool :=
  match w, s with
  | [], _ => true
  | a :: w', b :: s' => Ascii.eqb (lower_char b) (lower_char a) && starts_with_ci w' s'
  | _ :: _, [] => false
  end.

Definition contains_ci (w s : str) : bool := exists_suffix (starts_with_ci w) s.

(** The closing-tag pattern at the head of a text: [</], one or more ASCII
    letters, [>]. *)
Definition closing_tag_at (s : str) : bool :=
  starts_with (of_string "</") s
  && let s' := drop 2 s in
     let m := span_len is_ascii_letter s' in
     Nat.leb 1 m && starts_with (of_string ">") (drop m s').

Definition has_closing_tag (s : str) : bool := exists_suffix closing_tag_at s.

(** The decision order of the content-type sniffer as the specification
    words it: an HTML doctype or a closing html tag, in any case, makes
    markup; otherwise an XML processing instruction or a closing-tag
    pattern makes structured markup; otherwise the content is text. *)
Definition classify (content : str) : content_type :=
  if contains_ci (of_string "<!DOCTYPE html") content
     || contains_ci (of_string "</html>") content
  then html
  else if contains (of_string "<?xml") content || has_closing_tag content
  then xml
  else text.

(** ** Further functions of the three scrapers *)

(** The scan of [get_primary_document_from_submissions]
    (scrape_proxy_holders.py): the primary document of the first entry
    whose accession number, dashes removed, is the one asked for; the
    empty text when the entry has no document or there is no such entry. *)
Fixpoint primary_document_loop (i : nat) (accessions primary_docs : list str)
    (accession_nodash : str) : str :=
  match accessions with
  | [] => []
  | acc :: accessions' =>
      if str_eqb (remove_dashes acc) accession_nodash
      then default [] (primary_docs !! i)
      else primary_document_loop (S i) accessions' primary_docs accession_nodash
  end.

Definition get_primary_document_from_submissions (subs : submissions)
    (accession_nodash : str) : str :=
  primary_document_loop 0 (accessionNumber subs) (primaryDocument subs) accession_nodash.

(** Entry [i] is typed DEF 14A and has a primary document. *)
Definition def14a_with_document (subs : submissions) (i : nat) : Prop :=
  exists f, form subs !! i = Some f
            /\ str_eqb (upper (strip f)) (of_string "DEF 14A") = true
            /\ default [] (primaryDocument subs !! i) <> [].

(** The URL of a filing document:
    [{base}/Archives/edgar/data/{int(cik)}/{acc_no}/{primary_doc}] *)
Definition filing_url (n : Z) (acc_no primary_doc : str) : str :=
  SEC_FILES_BASE ++ of_string "/Archives/edgar/data/" ++ str_of_Z n
  ++ of_string "/" ++ acc_no ++ of_string "/" ++ primary_doc.

(** [_get_latest_filing_url] (simple_scraper.py) and
    [_get_latest_filing_url_fast] (comprehensive_market_scraper.py), given
    what the request for the submissions document produced: any exception
    gives [None]. *)
Definition _get_latest_filing_url (cik : str) (data : result submissions) : option str :=
  match data with
  | Raise _ => None
  | Ok subs =>
      match first_def14a 0 (form subs) (accessionNumber subs) (primaryDocument subs) with
      | Ok (Some (acc_no, primary_doc)) =>
          match py_int cik with
          | Some n => Some (filing_url n acc_no primary_doc)
          | None => None
          end
      | _ => None
      end
  end.

(** [s.replace(a, b)] for single characters *)
Definition replace_char (a b : ascii) (s : str) : str :=
  map (fun c => if Ascii.eqb c a then b else c) s.

(** The ticker column of [get_sp500_tickers] (scrape_proxy_holders.py):
    [.str.replace(".", "-", regex=False).str.strip()] *)
Definition normalize_ticker (t : str) : str :=
  strip (replace_char "." "-" t).

(** [s.zfill(width)]: the zeros go after a leading sign. *)
Definition zfill (width : nat) (s : str) : str :=
  let fill := repeat "0"%char (width - length s) in
  match s with
  | c :: s' =>
      if (code c =? 43)%N || (code c =? 45)%N then c :: fill ++ s' else fill ++ s
  | [] => fill
  end.

(** The update of one role by one iteration of [detect_ownership_columns]:
    the role takes column [i] when its header has a keyword and the role is
    unmapped or mapped to 0. *)
Definition role_step (keys : list str) (i : nat) (col : cell) (o : option nat) : option nat :=
  if match o with Some (S _) => false | _ => true end
     && any_in keys (lower (py_str col))
  then Some i else o.

Fixpoint role_loop (keys : list str) (i : nat) (cols : list cell) (o : option nat)
    : option nat :=
  match cols with
  | [] => o
  | col :: cols' => role_loop keys (S i) cols' (role_step keys i col o)
  end.

(** The column a role ends on: the leftmost column with a keyword, unless
    that is column 0 and a later column has a keyword too, which then
    takes the role. *)
Definition role_column (keys : list str) (cols : list cell) : option nat :=
  match cols with
  | [] => None
  | col :: cols' =>
      if any_in keys (lower (py_str col))
      then Some (default 0 (leftmost_match keys 1 cols'))
      else leftmost_match keys 1 cols'
  end.

(** The provenance the driver gives the rows of one company: its ticker in
    upper case, its name and sector, and the URL of a filing document
    under the company's filer number. *)
Definition tagged_for (c : company) (cik : str) (r : ownership_row) : Prop :=
  exists n d acc doc,
    py_int cik = Some n /\ doc <> []
    /\ fst r = Tags (upper (c_ticker c)) (c_security c) (c_sector c) d
                    (filing_url n acc doc).

(** A decimal numeral as the percent pattern captures it: digits, or
    digits, a point and digits. *)
Definition decimal_text (t : str) : Prop :=
  exists a b,
    t = a ++ b /\ a <> [] /\ forallb isdigit a = true
    /\ (b = [] \/ exists f, b = "."%char :: f /\ f <> [] /\ forallb isdigit f = true).

(** The characters of a numeral *)
Definition numeral_char (c : ascii) : bool := isdigit c || Ascii.eqb c "."%char.

(** ** The filer numbers (scrape_proxy_holders.py) *)

(** One record of a ticker document: [rec["ticker"]], and the text [str(v)]
    of its filer number [v] ([rec["cik_str"]], or in the fallback document
    [rec.get("cik") or rec.get("cik_str")]). *)
Record ticker_record : Type := TickerRecord { rec_ticker : str; rec_cik : str }.

(** [rec["ticker"].upper().strip()] *)
Definition ticker_key (t : str) : str := strip (upper t).

(** The loop that fills [out]: [out[t] = cik10] for every record in turn *)
Definition cik_dict (recs : list ticker_record) : gmap str str :=
  foldl (fun out r => <[ticker_key (rec_ticker r) := zfill 10 (rec_cik r)]> out) ∅ recs.

Section CikMap.

Variable json : Type.

(** The records of the primary document (the values of the object, in
    order) and of the fallback document (the elements of the array); a
    failure stands for an exception raised while the records are read. *)
Variables primary_records fallback_records : json -> result (list ticker_record).

(** [get_json(url, retries=2)]: the backoff is the default [1.0]. *)
Definition ticker_document (url : str) (records : json -> result (list ticker_record))
    : io json (gmap str str) :=
  data ← get_json url 2 (float_of_Z 1);
  recs ← lift (records data);
  mret (cik_dict recs).

(** [get_ticker_cik_map] *)
Definition get_ticker_cik_map : io json (gmap str str) :=
  let fallback :=
    try_except
      (ticker_document (SEC_FILES_BASE ++ of_string "/files/company_tickers_exchange.json")
                       fallback_records)
      (mret ∅) in
  primary ← try_except
              (out ← ticker_document (SEC_FILES_BASE ++ of_string "/files/company_tickers.json")
                                     primary_records;
               mret (Some out))
              (mret None);
  match primary with
  | Some out => if decide (out = ∅) then fallback else mret out
  | None => fallback
  end.

End CikMap.

(** The last record of a listing that bears a ticker key *)
Definition last_record (key : str) (recs : list ticker_record) : option ticker_record :=
  last (filter (fun r => ticker_key (rec_ticker r) = key) recs).

(** ** What a match consumes *)

Definition within (n : nat) (hi : option nat) : Prop :=
  match hi with Some h => n <= h | None => True end.

(** [n] steps in a row *)
Fixpoint iter (step : cursor -> groups -> cursor -> groups -> Prop) (n : nat)
    (c : cursor) (g : groups) (c' : cursor) (g' : groups) : Prop :=
  match n with
  | 0 => c' = c /\ g' = g
  | S n' => exists c1 g1, step c g c1 g1 /\ iter step n' c1 g1 c' g'
  end.

(** The ways a pattern can match at a cursor, whatever their priority: the
    cursor and the groups after the match. *)
Fixpoint matches (r : regex) (c : cursor) (g : groups) (c' : cursor) (g' : groups)
    {struct r} : Prop :=
  match r with
  | Eps => c' = c /\ g' = g
  | Chr p =>
      exists x rest,
        c_rest c = x :: rest /\ p x = true
        /\ c' = Cursor (Some x) (S (c_pos c)) rest /\ g' = g
  | Seq r1 r2 => exists c1 g1, matches r1 c g c1 g1 /\ matches r2 c1 g1 c' g'
  | Alt r1 r2 => matches r1 c g c' g' \/ matches r2 c g c' g'
  | Rep r' lo hi _ => exists n, lo <= n /\ within n hi /\ iter (matches r') n c g c' g'
  | Grp n r' => exists g1, matches r' c g c' g1 /\ g' = (n, (c_pos c, c_pos c')) :: g1
  | WordB => xorb (word_before c) (word_after c) = true /\ c' = c /\ g' = g
  end.

(** The texts a pattern can consume *)
Fixpoint lang (r : regex) (w : str) {struct r} : Prop :=
  match r with
  | Eps => w = []
  | Chr p => exists x, w = [x] /\ p x = true
  | Seq r1 r2 => exists w1 w2, w = w1 ++ w2 /\ lang r1 w1 /\ lang r2 w2
  | Alt r1 r2 => lang r1 w \/ lang r2 w
  | Rep r' lo hi _ =>
      exists ws, w = concat ws /\ lo <= length ws /\ within (length ws) hi
                 /\ Forall (lang r') ws
  | Grp _ r' => lang r' w
  | WordB => w = []
  end.

(** A cursor on the subject [s] *)
Definition on_subject (s : str) (c : cursor) : Prop :=
  c_pos c <= length s /\ c_rest c = drop (c_pos c) s.

(** A pattern without groups *)
Fixpoint group_free (r : regex) : bool :=
  match r with
  | Grp _ _ => false
  | Seq r1 r2 | Alt r1 r2 => group_free r1 && group_free r2
  | Rep r' _ _ _ => group_free r'
  | _ => true
  end.

(** The characters of a share count as the row pattern captures it *)
Definition count_char (c : ascii) : bool := isdigit c || (code c =? 44)%N.

(** ** The pattern scrapers, end to end (simple_scraper.py and
    comprehensive_market_scraper.py)

    The progress messages and the timing that goes into them are left
    out. *)

(** [l[:n]] *)
Definition py_prefix {A : Type} (n : Z) (l : list A) : list A :=
  if (0 <=? n)%Z then take (Z.to_nat n) l
  else take (length l - Z.to_nat (- n)) l.

Definition TICKERS_URL : str := of_string "https://www.sec.gov/files/company_tickers.json".

Definition SP500_URL : str :=
  of_string "https://en.wikipedia.org/wiki/List_of_S%26P_500_companies".

Definition submissions_url (cik : str) : str :=
  of_string "https://data.sec.gov/submissions/CIK" ++ cik ++ of_string ".json".

(** The loop of [_get_cik] over [data.values()]: the padded filer number of
    the first record that bears the ticker; a record whose fields cannot
    be read raises when the loop reaches it. *)
Fixpoint first_record (ticker : str) (recs : list (result ticker_record))
    : result (option str) :=
  match recs with
  | [] => Ok None
  | Raise e :: _ => Raise e
  | Ok r :: recs' =>
      if str_eqb (upper (rec_ticker r)) (upper ticker)
      then Ok (Some (zfill 10 (rec_cik r)))
      else first_record ticker recs'
  end.

(** The loop that fills [self._cik_cache] *)
Definition fast_dict (recs : list ticker_record) : gmap str str :=
  foldl (fun out r => <[upper (rec_ticker r) := zfill 10 (rec_cik r)]> out) ∅ recs.

Section Scrapers.

Variable json : Type.

(** [data.values()] of the ticker document, record by record, and the four
    arrays under [filings.recent] of a submissions document; a failure
    stands for the exception raised when the document has not the
    expected shape. *)
Variable ticker_values : json -> result (list (result ticker_record)).
Variable recent_arrays : json -> result submissions.

(** [datetime.now().strftime('%Y-%m-%d')] while the i-th company is
    processed *)
Variable today : nat -> str.

(** [self.session.get(url, timeout=...)] followed by [response.json()];
    the status of the response is not looked at. *)
Definition session_json (url : str) : io json json :=
  r ← http_get url;
  match json_of r with
  | Some j => mret j
  | None => raise ValueError
  end.

(** [_get_cik] (simple_scraper.py) *)
Definition _get_cik (ticker : str) : io json (option str) :=
  try_except (data ← session_json TICKERS_URL;
              recs ← lift (ticker_values data);
              lift (first_record ticker recs))
             (mret None).

(** [_get_latest_filing_url] and [_get_latest_filing_url_fast], with their
    request *)
Definition latest_filing_url (cik : str) : io json (option str) :=
  try_except (data ← session_json (submissions_url cik);
              mret (_get_latest_filing_url cik (recent_arrays data)))
             (mret None).

(** [_download_filing] and [_download_filing_fast] *)
Definition _download_filing (url : str) : io json (option str) :=
  try_except (r ← http_get url; mret (Some (text_of r))) (mret None).

(** The steps after the filer number is known, shared by
    [_get_company_holders] and [_get_company_institutional_holders];
    [extract] is the extraction method of the scraper. *)
Definition holders_of_filing (extract : str -> list holder_record) (cik : option str)
    : io json (list holder_record) :=
  match cik with
  | None | Some [] => mret []
  | Some cik =>
      filing_url ← latest_filing_url cik;
      match filing_url with
      | None | Some [] => mret []
      | Some url =>
          content ← _download_filing url;
          match content with
          | None | Some [] => mret []
          | Some content => mret (extract content)
          end
      end
  end.

(** [_get_company_holders] (simple_scraper.py) *)
Definition _get_company_holders (i : nat) (ticker company_name : str)
    : io json (list holder_record) :=
  try_except
    (cik ← _get_cik ticker;
     holders_of_filing
       (fun content =>
          simple_scraper._extract_holders_simple (today i) content ticker company_name)
       cik)
    (mret []).

(** The loop of [scrape_top_companies] from the i-th company on *)
Fixpoint top_companies_loop (i : nat) (companies : list (str * str))
    : io json (list holder_record) :=
  match companies with
  | [] => mret []
  | (ticker, company_name) :: companies' =>
      holders ← _get_company_holders i ticker company_name;
      all_data ← top_companies_loop (S i) companies';
      mret (holders ++ all_data)
  end.

(** [scrape_top_companies]: [top] is the list of [_get_top_companies]; the
    result is the list of the records of the data frame. *)
Definition scrape_top_companies (top : list (str * str)) (num_companies : Z)
    : io json (list holder_record) :=
  top_companies_loop 1 (py_prefix num_companies top).

(** [_get_cik_fast] (comprehensive_market_scraper.py): [cache] is the
    attribute [_cik_cache], absent before the first call. *)
Definition load_cik_cache : io json (gmap str str) :=
  try_except (data ← session_json TICKERS_URL;
              recs ← lift (ticker_values data ≫= mapM id);
              mret (fast_dict recs))
             (mret ∅).

Definition _get_cik_fast (ticker : str) (cache : option (gmap str str))
    : io json (option str * option (gmap str str)) :=
  loaded ← match cache with
           | Some c => mret c
           | None => load_cik_cache
           end;
  mret (loaded !! upper ticker, Some loaded).

(** [_get_company_institutional_holders]: the lookup of the filer number
    raises nothing, so the cache it leaves is kept whatever follows. *)
Definition _get_company_institutional_holders (i : nat) (ticker company_name : str)
    (cache : option (gmap str str))
    : io json (list holder_record * option (gmap str str)) :=
  found ← _get_cik_fast ticker cache;
  holders ← try_except
               (holders_of_filing
                  (fun content =>
                     comprehensive_market_scraper._extract_institutional_holders_fast
                       (today i) content ticker company_name)
                  (fst found))
               (mret []);
  mret (holders, snd found).

(** The loop of [scrape_full_market], with its [time.sleep(0.1)] *)
Fixpoint full_market_loop (i : nat) (companies : list (str * str))
    (cache : option (gmap str str)) : io json (list holder_record) :=
  match companies with
  | [] => mret []
  | (ticker, company_name) :: companies' =>
      found ← _get_company_institutional_holders i ticker company_name cache;
      _ ← sleep (float_of_decimal false 1 (-1));
      all_ownership_data ← full_market_loop (S i) companies' (snd found);
      mret (fst found ++ all_ownership_data)
  end.

(** [str.isalnum] on Latin-1 *)
Definition str_isalnum (s : str) : bool :=
  match s with
  | [] => false
  | _ => forallb (fun c => isword c && negb (code c =? 95)%N) s
  end.

(** The rows of the first table of the Wikipedia page, each as its cells in
    column order ([pd.read_html(response.text)[0]]), and the two lists
    written out in [_get_additional_major_companies] and
    [_get_backup_comprehensive_list]. *)
Variable wiki_rows : str -> result (list (list cell)).
Variables additional_companies backup_list : list (str * str).

(** The body of the loop of [_get_comprehensive_companies] over the rows:
    a row short of a cell raises an [IndexError], which skips it. *)
Definition listed_company (row : list cell) : option (str * str) :=
  match row with
  | c0 :: c1 :: _ =>
      let ticker := upper (strip (replace_char "." "-" (py_str c0))) in
      let name := strip (py_str c1) in
      if (negb (Nat.eqb (length ticker) 0) && negb (Nat.eqb (length name) 0)
          && Nat.leb (length ticker) 6 && str_isalnum ticker)
         || contains (of_string "-") ticker
      then Some (ticker, name)
      else None
  | _ => None
  end.

(** [_get_comprehensive_companies] *)
Definition _get_comprehensive_companies : io json (list (str * str)) :=
  try_except
    (response ← http_get SP500_URL;
     rows ← lift (wiki_rows (text_of response));
     mret (omap listed_company rows ++ additional_companies))
    (mret backup_list).

(** [scrape_full_market] on a scraper that has looked up no filer number
    yet. *)
Definition scrape_full_market (target_companies : Z) : io json (list holder_record) :=
  companies ← _get_comprehensive_companies;
  let companies :=
    if (0 <? target_companies)%Z && (target_companies <? Z.of_nat (length companies))%Z
    then take (Z.to_nat target_companies) companies
    else companies in
  full_market_loop 1 companies None.

End Scrapers.

(** A step that sends one request and lets no exception out *)
Definition one_request {json A : Type} (m : io json A) : Prop :=
  forall w, exists a w',
    m w = (Ok a, w') /\ server w' = server w /\ sent w' = S (sent w).

(** ** The whole of the batch driver (scrape_proxy_holders.py) *)

(** A row of the frame that [get_sp500_tickers] returns.  The ticker went
    through [.str.replace(".", "-", regex=False).str.strip()], which leaves
    a cell that is no text missing. *)
Record listing_row : Type := ListingRow {
  l_ticker : cell;
  l_security : str;
  l_sector : str
}.

Module scrape_proxy_holders.

Section Entry.

Variable json : Type.
Variable read_html : str -> result (list dataframe).
Variables html_tables xml_tables : str -> result (list (result dataframe)).
Variable recent : json -> submissions.
Variables primary_records fallback_records : json -> result (list ticker_record).

(** What lines 83-90 make of the text of the page: the rows of the frame
    under [ticker], [Security] and [GICS Sector]; a failure stands for the
    exception raised when no table is read or a column is missing. *)
Variable sp500_listing : str -> result (list listing_row).

(** [get_sp500_tickers]: one request, not retried, and
    [raise_for_status]. *)
Definition get_sp500_tickers : io json (list listing_row) :=
  r ← http_get SP500_URL;
  lift (sp500_listing (text_of r)).

(** The loop of [fetch_ownership_for_sp500] over [spx.iterrows()]:
    [row["ticker"].upper()] stands before the [try] and raises an
    [AttributeError] on a missing ticker. *)
Fixpoint listing_loop (tick2cik : gmap str str) (limit : Z) (spx : list listing_row)
    (processed : Z) : io json (list ownership_row) :=
  match spx with
  | [] => mret []
  | row :: spx' =>
      if (limit <=? processed)%Z then mret []
      else
        match l_ticker row with
        | CStr t =>
            match tick2cik !! upper t with
            | None | Some [] => listing_loop tick2cik limit spx' processed
            | Some cik =>
                df ← try_except
                       (process_company json read_html html_tables xml_tables recent
                          (Company t (l_security row) (l_sector row)) cik)
                       (mret None);
                match df with
                | Some rs =>
                    rest ← listing_loop tick2cik limit spx' (processed + 1);
                    mret (rs ++ rest)
                | None => listing_loop tick2cik limit spx' processed
                end
            end
        | _ => raise AttributeError
        end
  end.

(** [fetch_ownership_for_sp500] *)
Definition fetch_ownership_for_sp500 (limit : Z) : io json (list ownership_row) :=
  spx ← get_sp500_tickers;
  tick2cik ← get_ticker_cik_map json primary_records fallback_records;
  combined ← listing_loop tick2cik limit spx 0;
  mret (map validate_percent combined).

End Entry.

End scrape_proxy_holders.

(** The requests among some events *)
Definition requests_of (events : list event) : list str :=
  omap (fun ev => match ev with Request url => Some url | _ => None end) events.

(** ** The accepted labels, in the words of the specification *)










(** From [w] to [w']: the same network, at most [k] requests more, all of
    them for one of [urls]. *)
Definition sends_to {json : Type} (urls : list str) (k : nat) (w w' : world json) : Prop :=
  server w' = server w
  /\ sent w <= sent w' <= sent w + k
  /\ exists events, trace w' = trace w ++ events
                    /\ Forall (fun url => In url urls) (requests_of events).

(** The two ticker documents *)
Definition PRIMARY_URL : str := SEC_FILES_BASE ++ of_string "/files/company_tickers.json".
Definition FALLBACK_URL : str :=
  SEC_FILES_BASE ++ of_string "/files/company_tickers_exchange.json".

(** * Properties *)

(** ** The Vanguard scenario *)

(** C5: on the table with header [Name of Beneficial Owner | Shares |
    Percent of Class] and the rows of The Vanguard Group, Inc. and Total,
    extraction yields exactly one record, with holder "Vanguard Group",
    1234567 shares and 8.5 percent; the Total row is dropped.  The same
    holds when the share counts arrive as integers. *)
Theorem vanguard_scenario :
  process_ownership_table vanguard_table
    = Ok [HolderRow "The Vanguard Group, Inc." "Vanguard Group"
                    (py_float "8.5") (Some 1234567%Z)]
  /\ process_ownership_table vanguard_table_typed
    = Ok [HolderRow "The Vanguard Group, Inc." "Vanguard Group"
                    (py_float "8.5") (Some 1234567%Z)]
  /\ py_float "8.5" = Some (S754_finite false (17 * 2 ^ 48) (-49)).
Proof. repeat split; vm_compute; reflexivity. Qed.

(** ** Column detection *)

(** C4 (the code departs from it): on the usual three headers the name
    keywords occur first in column 0, yet [detect_ownership_columns] maps
    [name] to column 1: a role mapped to index 0 counts as not yet mapped
    and is taken over by a later matching column.  The holder texts are
    then read from the amount column. *)
Theorem detect_ownership_columns_overwrites_index_0 :
  leftmost_match name_keys 0 (columns usual_table) = Some 0
  /\ detect_ownership_columns usual_table !! "name" = Some 1
  /\ detect_ownership_columns usual_table !! "shares" = Some 1
  /\ detect_ownership_columns usual_table !! "percent" = Some 2
  /\ process_ownership_table usual_table
     = Ok [HolderRow "1,234,567" "1,234,567" (py_float "8.5") (Some 1234567%Z)].
Proof. repeat split; vm_compute; reflexivity. Qed.

(** ** The loop over institutions *)

Section PatternLoopFacts.

Variable probe : str -> rmatch -> option Z * option float.
Variables (content ticker company_name today : str).

Local Abbreviation try_patterns := (try_patterns probe content ticker company_name today).
Local Abbreviation holders_loop := (holders_loop probe content ticker company_name today).

(** A record of an institution carries its name, the numbers the probe
    read at a match, and at least one of them is true. *)
Lemma try_patterns_Some name patterns r :
  try_patterns name patterns = Some r ->
  holder_name r = name
  /\ (exists m, (shares_held r, percent_owned r) = probe content m)
  /\ truthy_int (shares_held r) || truthy_float (percent_owned r) = true.
Proof.
  induction patterns as [|pattern patterns IH]; simpl; [discriminate|].
  destruct (re_search pattern (lower content)) as [m|]; [|exact IH].
  destruct (probe content m) as [sh pc] eqn:Hprobe.
  destruct (truthy_int sh || truthy_float pc) eqn:Htruth; [|exact IH].
  intros [= <-]; simpl. split; [reflexivity|]. split; [|exact Htruth].
  exists m. symmetry. exact Hprobe.
Qed.

Lemma holders_loop_names institutions :
  map holder_name (holders_loop institutions) `sublist_of` map fst institutions.
Proof.
  induction institutions as [|[name patterns] institutions IH]; simpl.
  - constructor.
  - destruct (try_patterns name patterns) as [r|] eqn:Hr; simpl.
    + apply try_patterns_Some in Hr as [-> _]. by constructor.
    + by constructor.
Qed.

Lemma holders_loop_Forall (P : holder_record -> Prop) institutions :
  (forall name patterns r, try_patterns name patterns = Some r -> P r) ->
  Forall P (holders_loop institutions).
Proof.
  intros HP.
  induction institutions as [|[name patterns] institutions IH]; simpl.
  - constructor.
  - destruct (try_patterns name patterns) as [r|] eqn:Hr; [|exact IH].
    constructor; [eapply HP, Hr | exact IH].
Qed.

End PatternLoopFacts.

Lemma truthy_int_is_Some o : truthy_int o = true -> is_Some o.
Proof. destruct o; [eauto | discriminate]. Qed.

Lemma truthy_float_is_Some o : truthy_float o = true -> is_Some o.
Proof. destruct o; [eauto | discriminate]. Qed.

Lemma simple_institutions_NoDup : NoDup (map fst simple_scraper.institutions).
Proof. apply (bool_decide_unpack _). vm_compute. exact I. Qed.

Lemma major_institutions_NoDup :
  NoDup (map fst comprehensive_market_scraper.major_institutions).
Proof. apply (bool_decide_unpack _). vm_compute. exact I. Qed.

(** C10: for every filing content and company, the holder names of the
    records of the institution-pattern paths are drawn, in order and at
    most once each, from the institution table; they are pairwise
    distinct. *)
Theorem one_record_per_institution (today content ticker company_name : str) :
  let simple := simple_scraper._extract_holders_simple today content ticker company_name in
  let fast := comprehensive_market_scraper._extract_institutional_holders_fast
                today content ticker company_name in
  map holder_name simple `sublist_of` map fst simple_scraper.institutions
  /\ NoDup (map holder_name simple)
  /\ map holder_name fast `sublist_of` map fst comprehensive_market_scraper.major_institutions
  /\ NoDup (map holder_name fast).
Proof.
  intros simple fast.
  assert (Hs := holders_loop_names simple_scraper.probe content ticker company_name today
                  simple_scraper.institutions).
  assert (Hf := holders_loop_names comprehensive_market_scraper.probe content ticker
                  company_name today comprehensive_market_scraper.major_institutions).
  repeat split; try assumption.
  - eapply sublist_NoDup; [exact simple_institutions_NoDup | exact Hs].
  - eapply sublist_NoDup; [exact major_institutions_NoDup | exact Hf].
Qed.

(** ** Records carry a figure *)

Lemma mapM_result_Forall2 {A B : Type} (f : A -> result B) (l : list A) (ys : list B) :
  mapM f l = Ok ys -> Forall2 (fun x y => f x = Ok y) l ys.
Proof.
  revert ys. induction l as [|x l IH]; intros ys; simpl.
  - intros [= <-]. constructor.
  - unfold mbind, result_bind at 1. destruct (f x) as [y|e] eqn:Hy; [|discriminate].
    unfold mbind, result_bind at 1. destruct (mapM f l) as [k|e]; [|discriminate].
    intros [= <-]. constructor; [exact Hy | by apply IH].
Qed.

Lemma text_row_percent section_text m r :
  text_row section_text m = Ok (Some r) -> is_Some (percent_class r).
Proof.
  unfold text_row.
  destruct (strip (group_or_empty section_text m 1)) as [|c holder]; [discriminate|].
  destruct (contains _ _); [discriminate|].
  unfold mbind, result_bind.
  match goal with |- context [match ?x with Ok _ => _ | Raise _ => _ end] =>
    destruct x as [sh|e]; [|discriminate] end.
  destruct (py_float _) as [p|]; [|discriminate].
  intros [= <-]. simpl. eauto.
Qed.

Lemma extract_from_text_percent content rows :
  extract_from_text content = Ok (Some rows) ->
  Forall (fun r => is_Some (percent_class r)) rows.
Proof.
  unfold extract_from_text.
  destruct (re_search section_pattern content) as [sm|]; [|discriminate].
  unfold mbind, result_bind.
  destruct (mapM _ _) as [found|e] eqn:Hfound; [|discriminate].
  apply mapM_result_Forall2 in Hfound.
  intros Hrows.
  assert (rows = omap id found) as ->.
  { destruct (omap id found); congruence. }
  clear Hrows. induction Hfound as [|m o ms os Hm _ IH]; simpl; [constructor|].
  destruct o as [r|]; simpl; [|exact IH].
  constructor; [eapply text_row_percent, Hm | exact IH].
Qed.

(** C1 (as the code has it): every record of the institution-pattern paths
    has a share count or a percentage, and every row of the text fallback
    has a percentage. *)
Theorem pattern_and_text_records_carry_a_figure (today content ticker company_name : str) :
  Forall (fun r => is_Some (shares_held r) \/ is_Some (percent_owned r))
         (simple_scraper._extract_holders_simple today content ticker company_name)
  /\ Forall (fun r => is_Some (shares_held r) \/ is_Some (percent_owned r))
            (comprehensive_market_scraper._extract_institutional_holders_fast
               today content ticker company_name)
  /\ match extract_from_text content with
     | Ok (Some rows) => Forall (fun r => is_Some (percent_class r)) rows
     | _ => True
     end.
Proof.
  assert (Hfig : forall probe name patterns r,
             try_patterns probe content ticker company_name today name patterns = Some r ->
             is_Some (shares_held r) \/ is_Some (percent_owned r)).
  { intros probe name patterns r Hr.
    apply try_patterns_Some in Hr as (_ & _ & Ht).
    apply orb_true_iff in Ht as [Ht|Ht];
      [left; by apply truthy_int_is_Some | right; by apply truthy_float_is_Some]. }
  split; [|split].
  - apply holders_loop_Forall. apply Hfig.
  - apply holders_loop_Forall. apply Hfig.
  - destruct (extract_from_text content) as [[rows|]|e] eqn:Hrows; [|exact I..].
    eapply extract_from_text_percent, Hrows.
Qed.

(** C1 fails on the table path: a holder whose share and percent cells
    hold no figure is emitted with both fields null. *)
Lemma table_row_without_figures :
  process_ownership_table dashes_table
  = Ok [HolderRow "Wellington Management Company" "Wellington Management Company"
                  None None].
Proof. vm_compute. reflexivity. Qed.

(** Both pattern paths and the text fallback do emit records. *)
Example pattern_paths_emit :
  map (fun r => (holder_name r, shares_held r, percent_owned r))
      (simple_scraper._extract_holders_simple "2024-05-01" payout_filing "AAPL" "Apple Inc.")
  = [(of_string "Vanguard Group", Some 12345678%Z, py_float "200")]
  /\ map (fun r => (holder_name r, shares_held r, percent_owned r))
      (comprehensive_market_scraper._extract_institutional_holders_fast
         "2024-05-01" payout_filing "AAPL" "Apple Inc.")
  = [(of_string "Vanguard Group", Some 12345678%Z, None)].
Proof. split; vm_compute; reflexivity. Qed.

(** ** Percentages *)

Lemma sane_percent_range x p : sane_percent x = Some p -> percent_ok p.
Proof.
  destruct x as [f|]; simpl; [|discriminate].
  destruct (f_leb f_zero f) eqn:H0; [|discriminate].
  destruct (f_leb f (float_of_Z 100)) eqn:H100; [|discriminate].
  intros [= <-]. by split.
Qed.

Lemma min_percent_value :
  comprehensive_market_scraper.min_percent = S754_finite false 7205759403792794 (-56).
Proof. vm_compute. reflexivity. Qed.

Lemma max_percent_value :
  comprehensive_market_scraper.max_percent = S754_finite false 7036874417766400 (-47).
Proof. vm_compute. reflexivity. Qed.

Lemma hundred_value : float_of_Z 100 = S754_finite false 7036874417766400 (-46).
Proof. vm_compute. reflexivity. Qed.

Lemma f_leb_above_min p :
  f_leb comprehensive_market_scraper.min_percent p = true -> f_leb f_zero p = true.
Proof.
  rewrite min_percent_value. generalize 7205759403792794%positive. intros M.
  unfold f_leb, f_zero, SFleb, SFcompare.
  destruct p as [[]|[]| |[] m e]; cbv beta iota; congruence.
Qed.

Lemma f_leb_below_max p :
  f_leb p comprehensive_market_scraper.max_percent = true ->
  f_leb p (float_of_Z 100) = true.
Proof.
  rewrite max_percent_value, hundred_value. generalize 7036874417766400%positive. intros M.
  unfold f_leb, SFleb, SFcompare.
  destruct p as [[]|[]| |[] m e]; cbv beta iota; try congruence.
  destruct (Z.compare_spec e (-47)) as [->|Hlt|Hgt]; try discriminate.
  - intros _. reflexivity.
  - intros _. destruct (Z.compare_spec e (-46)); [lia|reflexivity|lia].
Qed.

Lemma valid_percent_range p q :
  comprehensive_market_scraper.valid_percent p = Some q ->
  f_leb comprehensive_market_scraper.min_percent q = true
  /\ f_leb q comprehensive_market_scraper.max_percent = true.
Proof.
  unfold comprehensive_market_scraper.valid_percent.
  destruct (f_leb _ p) eqn:Hlo; [|discriminate].
  destruct (f_leb p _) eqn:Hhi; [|discriminate].
  intros [= <-]. by split.
Qed.

Lemma fast_probe_percent content m p :
  snd (comprehensive_market_scraper.probe content m) = Some p ->
  f_leb comprehensive_market_scraper.min_percent p = true
  /\ f_leb p comprehensive_market_scraper.max_percent = true.
Proof.
  unfold comprehensive_market_scraper.probe; simpl.
  destruct (re_search comprehensive_market_scraper.re_percent _) as [pm|]; [|discriminate].
  destruct (group _ pm 1) as [g|]; [|discriminate]; simpl.
  destruct (py_float g) as [x|]; [|discriminate]; simpl.
  apply valid_percent_range.
Qed.

Section DriverFacts.

Variable json : Type.
Variable read_html : str -> result (list dataframe).
Variables html_tables xml_tables : str -> result (list (result dataframe)).
Variable recent : json -> submissions.

(** The loop over the companies never raises: what goes wrong for one
    company is caught there. *)
Lemma company_loop_returns tick2cik limit spx processed w :
  exists rows w',
    company_loop json read_html html_tables xml_tables recent
                 tick2cik limit spx processed w = (Ok rows, w').
Proof.
  revert processed w. induction spx as [|c spx IH]; intros processed w; simpl.
  - by eexists _, _.
  - destruct (limit <=? processed)%Z; [by eexists _, _|].
    destruct (lookup_cik tick2cik (upper (c_ticker c))) as [[|x cik]|]; [apply IH| |apply IH].
    unfold mbind at 1, io_bind, try_except.
    destruct (process_company _ _ _ _ _ _ _ w) as [[[rs|]|e] w1].
    + unfold mbind, io_bind.
      destruct (IH (processed + 1)%Z w1) as (rest & w2 & ->). by eexists _, _.
    + apply IH.
    + apply IH.
Qed.

Lemma fetch_ownership_for_sp500_range spx tick2cik limit w :
  exists rows w',
    fetch_ownership_for_sp500 json read_html html_tables xml_tables recent
                              spx tick2cik limit w = (Ok rows, w')
    /\ Forall (fun r => forall p, percent_class (snd r) = Some p -> percent_ok p) rows.
Proof.
  unfold fetch_ownership_for_sp500, mbind, io_bind.
  destruct (company_loop_returns tick2cik limit spx 0 w) as (combined & w' & ->).
  eexists _, _. split; [reflexivity|].
  apply List.Forall_forall. intros r Hr p.
  apply in_map_iff in Hr as ([t h] & <- & _); simpl.
  apply sane_percent_range.
Qed.

End DriverFacts.

(** C3 (as the code has it): the driver of the table path returns a
    dataset in which every percentage present lies in [0, 100], the others
    having been nulled; every percentage of the comprehensive pattern path
    lies in [0.1, 50], hence in [0, 100]. *)
Theorem percent_within_0_100_where_validated
    (json : Type) (read_html : str -> result (list dataframe))
    (html_tables xml_tables : str -> result (list (result dataframe)))
    (recent : json -> submissions)
    (spx : list (company)) (tick2cik : list (str * str)) (limit : Z) (w : world json)
    (today content ticker company_name : str) :
  (exists rows w',
      fetch_ownership_for_sp500 json read_html html_tables xml_tables recent
                                spx tick2cik limit w = (Ok rows, w')
      /\ Forall (fun r => forall p, percent_class (snd r) = Some p -> percent_ok p) rows)
  /\ Forall (fun r => forall p, percent_owned r = Some p ->
                        f_leb comprehensive_market_scraper.min_percent p = true
                        /\ f_leb p comprehensive_market_scraper.max_percent = true
                        /\ percent_ok p)
            (comprehensive_market_scraper._extract_institutional_holders_fast
               today content ticker company_name).
Proof.
  split; [apply fetch_ownership_for_sp500_range|].
  apply holders_loop_Forall. intros name patterns r Hr p Hp.
  apply try_patterns_Some in Hr as (_ & [m Hm] & _).
  assert (Hsnd : snd (comprehensive_market_scraper.probe content m) = Some p).
  { rewrite <- Hm. exact Hp. }
  apply fast_probe_percent in Hsnd as [Hlo Hhi].
  repeat split; auto using f_leb_above_min, f_leb_below_max.
Qed.

(** C3 fails on the simple pattern path: the percentage read next to an
    institution is emitted as parsed, here 200. *)
Lemma simple_scraper_emits_percent_above_100 :
  exists r p,
    In r (simple_scraper._extract_holders_simple "2024-05-01" payout_filing
            "AAPL" "Apple Inc.")
    /\ percent_owned r = Some p
    /\ py_float "200" = Some p
    /\ f_leb p (float_of_Z 100) = false.
Proof.
  exists (HolderRecord "AAPL" "Apple Inc." "Vanguard Group" (Some 12345678%Z)
                       (Some (S754_finite false 7036874417766400 (-45))) "2024-05-01"),
         (S754_finite false 7036874417766400 (-45)).
  vm_compute. repeat split. by left.
Qed.

(** The driver on one company whose filing holds the Vanguard table *)
Example apple_run_rows :
  apple_run
  = Ok [(Tags "AAPL" "Apple Inc." "Information Technology" "2024-06-15"
              "https://www.sec.gov/Archives/edgar/data/320193/000032019324000010/proxy2024.htm",
         HolderRow "The Vanguard Group, Inc." "Vanguard Group"
                   (py_float "8.5") (Some 1234567%Z))].
Proof. vm_compute. reflexivity. Qed.

(** ** The filing locator *)

Lemma str_ltb_irrefl a : str_ltb a a = false.
Proof.
  induction a as [|x a IH]; simpl; [reflexivity|].
  rewrite IH, N.ltb_irrefl, andb_false_r. reflexivity.
Qed.

Lemma str_ltb_cons x y a b :
  str_ltb (x :: a) (y :: b) = true <->
  (code x < code y)%N \/ (code x = code y /\ str_ltb a b = true).
Proof.
  simpl. rewrite orb_true_iff, andb_true_iff, N.ltb_lt, N.eqb_eq. tauto.
Qed.

Lemma str_ltb_trans a b c :
  str_ltb a b = true -> str_ltb b c = true -> str_ltb a c = true.
Proof.
  revert b c. induction a as [|x a IH]; intros [|y b] [|z c]; try (simpl; congruence).
  rewrite !str_ltb_cons. intros [H1|[H1 H1']] [H2|[H2 H2']];
    [left; lia | left; lia | left; lia | right; split; [lia | eauto]].
Qed.

(** [a < c] puts any [b] above [a] or below [c]. *)
Lemma str_ltb_between a b c :
  str_ltb a c = true -> str_ltb a b = true \/ str_ltb b c = true.
Proof.
  revert b c. induction a as [|x a IH]; intros [|y b] [|z c];
    try (simpl; congruence); try (simpl; auto; fail).
  rewrite !str_ltb_cons. intros [H|[H H']].
  - destruct (N.lt_trichotomy (code x) (code y)) as [?|[?|?]];
      [left; left; lia | right; left; lia | right; left; lia].
  - destruct (N.lt_trichotomy (code x) (code y)) as [?|[?|?]];
      [left; left; lia | | right; left; lia].
    destruct (IH b c H') as [?|?]; [left | right]; right; split; auto; lia.
Qed.

Section Locator.

Variable subs : submissions.
Hypothesis Hparallel : parallel_arrays subs.

Local Abbreviation scanned := (scanned subs).

Lemma latest_loop_scanned pre forms latest :
  form subs = pre ++ forms ->
  scanned (length pre) latest ->
  exists latest',
    latest_loop (length pre) forms (filingDate subs) latest = Ok latest'
    /\ scanned (length (form subs)) latest'.
Proof.
  revert pre latest. induction forms as [|f forms IH]; intros pre latest Hsplit Hinv;
    cbn [latest_loop].
  - exists latest. split; [reflexivity|].
    rewrite Hsplit, app_nil_r. exact Hinv.
  - assert (Hf : form subs !! length pre = Some f).
    { rewrite Hsplit. by rewrite list_lookup_middle. }
    assert (Hnext : form subs = (pre ++ [f]) ++ forms).
    { by rewrite <- app_assoc. }
    assert (Hlen : length (pre ++ [f]) = S (length pre)).
    { rewrite length_app. simpl. lia. }
    specialize (IH (pre ++ [f])). rewrite Hlen in IH.
    destruct (is_proxy_form f) eqn:Hproxy.
    + destruct (filingDate subs !! _) as [d|] eqn:Hd.
      2:{ apply lookup_ge_None in Hd. destruct Hparallel as [Hp _].
          rewrite Hsplit, length_app in Hp. simpl in Hp. lia. }
      assert (Hdate : date_at subs (length pre) = d).
      { exact (f_equal (default []) Hd). }
      assert (Hentry : proxy_entry subs (length pre)) by (by exists f).
      apply IH; [exact Hnext|].
      destruct latest as [[k ld]|]; simpl in *.
      * destruct Hinv as (Hk & Hkd & Hkp & Hmax & Hfirst).
        destruct (str_ltb ld d) eqn:Hlt; simpl.
        -- split; [lia|]. split; [exact Hd|]. split; [exact Hentry|]. split.
           ++ intros j Hj Hpj. destruct (decide (j = length pre)) as [->|Hne].
              ** rewrite Hdate. apply str_ltb_irrefl.
              ** destruct (str_ltb d (date_at subs j)) eqn:Hdj; [|reflexivity].
                 rewrite <- (Hmax j); [|lia|exact Hpj].
                 symmetry. eapply str_ltb_trans; eauto.
           ++ intros j Hj Hpj.
              destruct (str_ltb_between ld (date_at subs j) d Hlt) as [Hc|Hc]; [|exact Hc].
              rewrite (Hmax j) in Hc; [discriminate|lia|exact Hpj].
        -- split; [lia|]. split; [exact Hkd|]. split; [exact Hkp|]. split; [|exact Hfirst].
           intros j Hj Hpj. destruct (decide (j = length pre)) as [->|Hne].
           ++ by rewrite Hdate.
           ++ apply Hmax; [lia|exact Hpj].
      * split; [lia|]. split; [exact Hd|]. split; [exact Hentry|]. split.
        -- intros j Hj Hpj. destruct (decide (j = length pre)) as [->|Hne].
           ++ rewrite Hdate. apply str_ltb_irrefl.
           ++ exfalso. apply (Hinv j); [lia|exact Hpj].
        -- intros j Hj Hpj. exfalso. apply (Hinv j); [lia|exact Hpj].
    + apply IH; [exact Hnext|].
      assert (Hnot : ~ proxy_entry subs (length pre)).
      { intros (f' & Hf' & Hp'). congruence. }
      destruct latest as [[k ld]|]; simpl in *.
      * destruct Hinv as (Hk & Hkd & Hkp & Hmax & Hfirst).
        split; [lia|]. split; [exact Hkd|]. split; [exact Hkp|]. split; [|exact Hfirst].
        intros j Hj Hpj. destruct (decide (j = length pre)) as [->|Hne]; [done|].
        apply Hmax; [lia|exact Hpj].
      * intros j Hj Hpj. destruct (decide (j = length pre)) as [->|Hne]; [done|].
        apply (Hinv j); [lia|exact Hpj].
Qed.

Lemma proxy_entry_lt j : proxy_entry subs j -> j < length (form subs).
Proof. intros (f & Hf & _). by apply lookup_lt_Some in Hf. Qed.

Lemma scanned_all_latest k d :
  scanned (length (form subs)) (Some (k, d)) -> latest_proxy_entry subs k.
Proof.
  intros (Hk & Hkd & Hkp & Hmax & Hfirst).
  assert (Hdate : date_at subs k = d) by exact (f_equal (default []) Hkd).
  split; [exact Hkp|]. rewrite Hdate. split; [|exact Hfirst].
  intros j Hpj. apply Hmax; [by apply proxy_entry_lt | exact Hpj].
Qed.

(** The selected entry is the latest proxy entry; without one the
    result is [None]; the function does not raise. *)
Lemma find_latest_def14a_spec :
  (exists i d acc,
      latest_proxy_entry subs i
      /\ filingDate subs !! i = Some d
      /\ accessionNumber subs !! i = Some acc
      /\ find_latest_def14a subs
         = Ok (Some (d, remove_dashes acc, default [] (primaryDocument subs !! i))))
  \/ ((forall i, ~ proxy_entry subs i) /\ find_latest_def14a subs = Ok None).
Proof.
  destruct (latest_loop_scanned [] (form subs) None eq_refl) as ([[k d]|] & Hloop & Hinv).
  { intros j Hj. simpl in Hj. lia. }
  - left. pose proof Hinv as (Hk & Hkd & _).
    destruct (accessionNumber subs !! k) as [acc|] eqn:Hacc.
    2:{ apply lookup_ge_None in Hacc. destruct Hparallel. lia. }
    exists k, d, acc. split; [by apply (scanned_all_latest k d)|].
    split; [exact Hkd|]. split; [exact Hacc|].
    unfold find_latest_def14a. simpl in Hloop. rewrite Hloop. simpl.
    by rewrite Hacc, Hkd.
  - right. split.
    + intros i Hi. apply (Hinv i); [by apply proxy_entry_lt | exact Hi].
    + unfold find_latest_def14a. simpl in Hloop. by rewrite Hloop.
Qed.

Lemma latest_proxy_entry_unique i j :
  latest_proxy_entry subs i -> latest_proxy_entry subs j -> i = j.
Proof.
  intros (Hpi & Hmaxi & Hfirsti) (Hpj & Hmaxj & Hfirstj).
  destruct (Nat.lt_trichotomy i j) as [Hlt|[Heq|Hgt]]; [|exact Heq|].
  - specialize (Hfirstj i Hlt Hpi). rewrite (Hmaxi j Hpj) in Hfirstj. discriminate.
  - specialize (Hfirsti j Hgt Hpj). rewrite (Hmaxj i Hpi) in Hfirsti. discriminate.
Qed.

End Locator.

(** C6: on parallel arrays the locator step returns none exactly when no
    entry is typed as a proxy statement or the latest proxy entry has an
    empty or missing primary document; otherwise it returns the date, the
    accession number and the primary document of that entry.  It does not
    raise. *)
Theorem locate_filing_none_iff (subs : submissions)
    (Hparallel : parallel_arrays subs) :
  (locate_filing subs = Ok None <->
     (forall i, ~ proxy_entry subs i)
     \/ (exists i, latest_proxy_entry subs i
                   /\ default [] (primaryDocument subs !! i) = []))
  /\ (locate_filing subs = Ok None
      \/ exists i d acc doc,
           latest_proxy_entry subs i
           /\ filingDate subs !! i = Some d
           /\ accessionNumber subs !! i = Some acc
           /\ primaryDocument subs !! i = Some doc /\ doc <> []
           /\ locate_filing subs = Ok (Some (d, remove_dashes acc, doc))).
Proof.
  unfold locate_filing.
  destruct (find_latest_def14a_spec subs Hparallel)
    as [(i & d & acc & Hi & Hd & Hacc & ->)|[Hnone ->]]; simpl.
  - destruct (primaryDocument subs !! i) as [[|c doc]|] eqn:Hdoc; simpl.
    + split; [|by left]. split; [|done]. intros _. right. exists i. by rewrite Hdoc.
    + split.
      * split; [discriminate|]. intros [Hno|(j & Hj & Hempty)].
        -- destruct Hi as [Hi _]. by destruct (Hno i).
        -- rewrite (latest_proxy_entry_unique subs j i Hj Hi), Hdoc in Hempty.
           discriminate.
      * right. by exists i, d, acc, (c :: doc).
    + split; [|by left]. split; [|done]. intros _. right. exists i. by rewrite Hdoc.
  - split; [|by left]. split; [|done]. intros _. by left.
Qed.

Lemma locate_filing_none_iff_witness :
  parallel_arrays apple_submissions
  /\ locate_filing apple_submissions
     = Ok (Some (of_string "2024-06-15", of_string "000032019324000010",
                 of_string "proxy2024.htm")).
Proof.
  assert (Hp : parallel_arrays apple_submissions) by (split; simpl; lia).
  split; [exact Hp|].
  destruct (locate_filing_none_iff apple_submissions Hp)
    as [_ [Hnone|(i & d & acc & doc & _ & _ & _ & _ & _ & Hloc)]].
  - vm_compute in Hnone. discriminate.
  - vm_compute. reflexivity.
Defined.

(** The locators of the two pattern scrapers take the first DEF 14A entry
    in array order, whatever its date. *)
Example first_def14a_takes_array_order :
  first_def14a 0 (form two_proxies) (accessionNumber two_proxies)
               (primaryDocument two_proxies)
  = Ok (Some (of_string "000123000001", of_string "proxy2023.htm")).
Proof. vm_compute. reflexivity. Qed.

(** ** The fetch layer *)

Lemma pow2_is_finite_below_1024 :
  forallb (fun i => is_finite_int (2 ^ Z.of_nat i)) (seq 0 1024) = true.
Proof. vm_compute. reflexivity. Qed.

Lemma sleep_time_Ok backoff i :
  i < 1024 -> sleep_time backoff i = Ok (backoff_seconds backoff i).
Proof.
  intros Hi.
  assert (Hfin : is_finite_int (2 ^ Z.of_nat i) = true).
  { apply (proj1 (forallb_forall _ _) pow2_is_finite_below_1024).
    apply in_seq. lia. }
  unfold sleep_time, float_of_int, backoff_seconds, is_finite_int in *.
  destruct (float_of_Z (2 ^ Z.of_nat i)); try reflexivity. discriminate.
Qed.

Lemma sleep_accepted {json : Type} t (w : world json) :
  sleep_check t = Ok tt ->
  sleep t w = (Ok tt, World (server w) (sent w) (trace w ++ [Sleep t])).
Proof. unfold sleep. by intros ->. Qed.

Lemma sleep_refused {json : Type} t e (w : world json) :
  sleep_check t = Raise e -> sleep t w = (Raise e, w).
Proof. unfold sleep. by intros ->. Qed.

Section FetchFacts.

Variable json : Type.
Variables (url : str) (retries : Z) (backoff : float).
Hypothesis Hretries : (0 <= retries <= 1024)%Z.

Lemma http_get_unfold (w : world json) :
  http_get url w
  = (match server w (sent w) with
     | Returned r => Ok r
     | Failed => Raise RequestException
     end,
     World (server w) (S (sent w)) (trace w ++ [Request url])).
Proof. unfold http_get. by destruct (server w (sent w)). Qed.



(** A delay that [time.sleep] refuses ends the retries: its exception is
    raised inside the handler and nothing catches it. *)
Lemma get_response_loop_refused k : forall n i (w : world json) e,
  k < n -> (Z.of_nat (i + k) < retries)%Z ->
  (forall j, j <= k -> server w (sent w + j) = Failed) ->
  (forall j, j < k -> sleep_check (backoff_seconds backoff (i + j)) = Ok tt) ->
  sleep_check (backoff_seconds backoff (i + k)) = Raise e ->
  exists w',
    get_response_loop url retries backoff n i w = (Raise e, w')
    /\ sent w' = sent w + k + 1
    /\ trace w' = trace w ++ retry_trace url backoff i k.
Proof.
  induction k as [|k IH]; intros n i w e Hn Hi Hfail Hsleep Hbad;
    (destruct n as [|n]; [lia|]); simpl; rewrite http_get_unfold;
    assert (H0 := Hfail 0 ltac:(lia)); rewrite Nat.add_0_r in H0; rewrite H0;
    assert (Hlt : (Z.of_nat i <? retries)%Z = true) by (apply Z.ltb_lt; lia);
    rewrite Hlt; unfold mbind, io_bind, lift; rewrite sleep_time_Ok by lia.
  - rewrite Nat.add_0_r in Hbad. rewrite (sleep_refused _ _ _ Hbad).
    eexists. split; [reflexivity|]. simpl. split; [lia|reflexivity].
  - assert (Hs0 := Hsleep 0 ltac:(lia)). rewrite Nat.add_0_r in Hs0.
    rewrite (sleep_accepted _ _ Hs0).
    edestruct (IH n (S i)
                 (World (server w) (S (sent w))
                        ((trace w ++ [Request url]) ++ [Sleep (backoff_seconds backoff i)])) e)
      as (w' & Hrun & Hsent & Htrace); simpl.
    + lia.
    + lia.
    + intros j Hj. rewrite <- (Hfail (S j)) by lia. f_equal. lia.
    + intros j Hj. rewrite <- (Hsleep (S j)) by lia. do 2 f_equal. lia.
    + rewrite <- Hbad. do 2 f_equal. lia.
    + exists w'. split; [exact Hrun|]. split; [simpl in Hsent; lia|].
      rewrite Htrace. simpl. by rewrite <- !app_assoc.
Qed.

End FetchFacts.



(** A delay that is no valid length for [time.sleep] ends the retries with
    the exception of the sleep: with a negative backoff no second attempt
    is made, and with the backoff 1.5 the delay after the 34th failure,
    [1.5 * 2^33] seconds, is too large. *)
Example get_response_sleep_refused :
  get_response (of_string "https://www.sec.gov/doc") MAX_RETRIES
               (float_of_decimal true 1 0) dead_world
  = (Raise ValueError, World (fun _ => Failed) 1 [Request (of_string "https://www.sec.gov/doc")])
  /\ sleep_check (backoff_seconds BACKOFF_FACTOR 32) = Ok tt
  /\ sleep_check (backoff_seconds BACKOFF_FACTOR 33) = Raise OverflowError.
Proof. repeat split; vm_compute; reflexivity. Qed.

(** ** The matcher on character classes and literals *)

Lemma advance_rest n c : c_rest (advance n c) = drop n (c_rest c).
Proof.
  revert c. induction n as [|n IH]; intros [prev pos rest]; simpl; [reflexivity|].
  destruct rest as [|x rest]; simpl; [reflexivity|]. by rewrite IH.
Qed.

Lemma advance_pos n c : n <= length (c_rest c) -> c_pos (advance n c) = c_pos c + n.
Proof.
  revert c. induction n as [|n IH]; intros [prev pos rest]; simpl; [lia|].
  destruct rest as [|x rest]; simpl; [lia|]. intros Hn. rewrite IH; simpl; lia.
Qed.

Lemma span_len_le p s : span_len p s <= length s.
Proof. induction s as [|x s IH]; simpl; [lia|]. destruct (p x); simpl; lia. Qed.

Lemma rep_loop_0 {R : Type} body lo hi greedy (k : cursor -> groups -> option R) n c g :
  rep_loop body lo hi greedy k 0 n c g = if Nat.leb lo n then k c g else None.
Proof. cbn. by destruct greedy, (Nat.leb lo n); try destruct (k c g). Qed.

Lemma rep_loop_S {R : Type} body lo hi greedy (k : cursor -> groups -> option R) fuel n c g :
  rep_loop body lo hi greedy k (S fuel) n c g
  = let more :=
      if below n hi then
        body c g (fun c' g' =>
          if Nat.eqb (c_pos c') (c_pos c) then None
          else rep_loop body lo hi greedy k fuel (S n) c' g')
      else None in
    let stop := if Nat.leb lo n then k c g else None in
    if greedy then match more with Some res => Some res | None => stop end
    else match stop with Some res => Some res | None => more end.
Proof. reflexivity. Qed.

Lemma run_Rep {R : Type} r lo hi greedy c g (k : cursor -> groups -> option R) :
  run (Rep r lo hi greedy) c g k
  = rep_loop (run r) lo hi greedy k (length (c_rest c)) 0 c g.
Proof. reflexivity. Qed.

Lemma run_chr_nil {R : Type} p prev pos g (k : cursor -> groups -> option R) :
  run (Chr p) (Cursor prev pos []) g k = None.
Proof. reflexivity. Qed.

Lemma run_chr_cons {R : Type} p prev pos x rest g (k : cursor -> groups -> option R) :
  run (Chr p) (Cursor prev pos (x :: rest)) g k
  = if p x then k (Cursor (Some x) (S pos) rest) g else None.
Proof. reflexivity. Qed.

(** A greedy repetition of a character class takes the longest run, when
    the continuation accepts there or refuses every shorter run. *)
Lemma rep_loop_chr {R : Type} p lo (k : cursor -> groups -> option R) g :
  forall fuel n c,
    length (c_rest c) <= fuel ->
    (is_Some (k (advance (span_len p (c_rest c)) c) g)
     \/ forall j, j < span_len p (c_rest c) -> k (advance j c) g = None) ->
    rep_loop (run (Chr p)) lo None true k fuel n c g
    = if Nat.leb lo (n + span_len p (c_rest c))
      then k (advance (span_len p (c_rest c)) c) g else None.
Proof.
  induction fuel as [|fuel IH]; intros n [prev pos rest] Hlen Hk.
  - destruct rest as [|x rest]; [|simpl in Hlen; lia].
    rewrite rep_loop_0. cbn [c_rest span_len advance]. by rewrite Nat.add_0_r.
  - rewrite rep_loop_S. cbn [below c_rest].
    destruct rest as [|x rest].
    { rewrite run_chr_nil. cbn [span_len advance c_rest]. by rewrite Nat.add_0_r. }
    rewrite run_chr_cons. cbn [c_rest] in Hk.
    destruct (p x) eqn:Hpx.
    2:{ cbn [span_len]. rewrite Hpx. cbn [advance]. by rewrite Nat.add_0_r. }
    assert (Hspan : span_len p (x :: rest) = S (span_len p rest))
      by (cbn [span_len]; by rewrite Hpx).
    rewrite Hspan in *. cbn [c_pos].
    replace (Nat.eqb (S pos) pos) with false by (symmetry; apply Nat.eqb_neq; lia).
    change (advance (S (span_len p rest)) (Cursor prev pos (x :: rest)))
      with (advance (span_len p rest) (Cursor (Some x) (S pos) rest)) in *.
    replace (n + S (span_len p rest)) with (S n + span_len p rest) by lia.
    rewrite (IH (S n) (Cursor (Some x) (S pos) rest)); cbn [c_rest].
    + destruct (Nat.leb lo (S n + span_len p rest)) eqn:Hlo.
      * destruct (k (advance (span_len p rest) (Cursor (Some x) (S pos) rest)) g) eqn:Hres;
          [reflexivity|].
        destruct Hk as [[? Hsome]|Hnone]; [congruence|].
        specialize (Hnone 0 ltac:(lia)). cbn [advance] in Hnone. rewrite Hnone.
        by destruct (Nat.leb lo n).
      * apply Nat.leb_gt in Hlo.
        replace (Nat.leb lo n) with false by (symmetry; apply Nat.leb_gt; lia).
        reflexivity.
    + simpl in Hlen. lia.
    + destruct Hk as [Hsome|Hnone]; [by left|right].
      intros j Hj. apply (Hnone (S j)). lia.
Qed.

Lemma run_plus_chr {R : Type} p c g (k : cursor -> groups -> option R) :
  (is_Some (k (advance (span_len p (c_rest c)) c) g)
   \/ forall j, j < span_len p (c_rest c) -> k (advance j c) g = None) ->
  run (plus (Chr p)) c g k
  = if Nat.leb 1 (span_len p (c_rest c))
    then k (advance (span_len p (c_rest c)) c) g else None.
Proof. intros Hk. unfold plus. rewrite run_Rep. by rewrite rep_loop_chr. Qed.

Lemma run_lit {R : Type} w c g (k : cursor -> groups -> option R) :
  run (lit w) c g k
  = if starts_with w (c_rest c) then k (advance (length w) c) g else None.
Proof.
  revert c. induction w as [|a w IH]; intros [prev pos rest]; simpl; [reflexivity|].
  destruct rest as [|b rest]; simpl; [reflexivity|].
  destruct (Ascii.eqb a b); simpl; [|reflexivity]. by rewrite IH.
Qed.

Lemma run_lit_ci {R : Type} w c g (k : cursor -> groups -> option R) :
  run (lit_ci w) c g k
  = if starts_with_ci w (c_rest c) then k (advance (length w) c) g else None.
Proof.
  revert c. induction w as [|a w IH]; intros [prev pos rest]; simpl; [reflexivity|].
  destruct rest as [|b rest]; simpl; [reflexivity|].
  destruct (Ascii.eqb (lower_char b) (lower_char a)); simpl; [|reflexivity]. by rewrite IH.
Qed.

(** A search succeeds when the pattern matches at some suffix, for a
    pattern whose match depends on the text ahead only. *)
Lemma ok_search_from r (P : str -> bool) :
  (forall prev pos rest, ok (match_at r (Cursor prev pos rest)) = P rest) ->
  forall rest prev pos, ok (search_from r prev pos rest) = exists_suffix P rest.
Proof.
  intros HP. induction rest as [|x rest IH]; intros prev pos; simpl;
    rewrite <- (HP prev pos); destruct (match_at r _); simpl; auto.
Qed.

Lemma is_Some_ok {R : Type} (o : option R) : bool_decide (is_Some o) = ok o.
Proof.
  destruct o as [r|].
  - apply bool_decide_eq_true_2. by exists r.
  - apply bool_decide_eq_false_2. by intros [? ?].
Qed.

(** ** Whitespace *)

Lemma match_at_spaces prev pos rest :
  match_at re_spaces (Cursor prev pos rest)
  = if Nat.leb 1 (span_len isspace rest)
    then Some (RMatch pos (pos + span_len isspace rest) []) else None.
Proof.
  unfold match_at, re_spaces. rewrite run_plus_chr; [|left; eauto].
  cbn [c_rest c_pos]. rewrite advance_pos by (cbn [c_rest]; apply span_len_le).
  reflexivity.
Qed.

Lemma squeeze_in_run s :
  squeeze true s = squeeze false (drop (span_len isspace s) s).
Proof.
  induction s as [|x s IH]; simpl; [reflexivity|].
  destruct (isspace x) eqn:Hx; simpl; [exact IH|]. by rewrite Hx.
Qed.

(** [re.sub(r"\s+", " ", s)] replaces every run of whitespace by a blank. *)
Lemma sub_from_spaces fuel : forall prev pos rest,
  length rest <= fuel ->
  sub_from fuel re_spaces (of_string " ") prev pos rest = squeeze false rest.
Proof.
  induction fuel as [|fuel IH]; intros prev pos rest Hlen.
  - destruct rest; simpl in *; [reflexivity|lia].
  - destruct rest as [|x rest]; [reflexivity|].
    cbn [sub_from]. rewrite match_at_spaces. cbn [span_len squeeze].
    destruct (isspace x) eqn:Hx.
    + cbn [Nat.leb m_end].
      replace (pos + S (span_len isspace rest) - pos) with (S (span_len isspace rest)) by lia.
      cbn [Nat.eqb drop]. rewrite IH.
      * rewrite squeeze_in_run. reflexivity.
      * rewrite length_drop. simpl in Hlen. lia.
    + cbn [Nat.leb]. rewrite IH; [reflexivity|]. simpl in Hlen. lia.
Qed.

Lemma re_sub_spaces s : re_sub re_spaces (of_string " ") s = squeeze false s.
Proof. unfold re_sub. by apply sub_from_spaces. Qed.

Lemma tidy_squeeze b s : tidy b (squeeze b s) = true.
Proof.
  revert b. induction s as [|x s IH]; intros b; simpl; [reflexivity|].
  destruct (isspace x) eqn:Hx.
  - destruct b; [apply IH|]. simpl. by rewrite IH.
  - simpl. rewrite Hx. apply IH.
Qed.

Lemma squeeze_tidy b s : tidy b s = true -> squeeze b s = s.
Proof.
  revert b. induction s as [|x s IH]; intros b; simpl; [reflexivity|].
  destruct (isspace x) eqn:Hx.
  - intros H. apply andb_true_iff in H as [H Hs]. apply andb_true_iff in H as [Hsp Hb].
    apply Ascii.eqb_eq in Hsp. destruct b; [discriminate|]. rewrite (IH true Hs).
    by rewrite Hsp.
  - intros Hs. by rewrite (IH false Hs).
Qed.

Lemma tidy_weaken b s : tidy b s = true -> tidy false s = true.
Proof.
  destruct s as [|x s]; simpl; [reflexivity|]. destruct (isspace x); [|done].
  intros H. apply andb_true_iff in H as [H Hs]. apply andb_true_iff in H as [Hsp _].
  by rewrite Hsp, Hs.
Qed.

Lemma tidy_lstrip b s : tidy b s = true -> tidy false (lstrip s) = true.
Proof.
  revert b. induction s as [|x s IH]; intros b; simpl; [reflexivity|].
  destruct (isspace x) eqn:Hx.
  - intros H. apply andb_true_iff in H as [_ Hs]. by apply (IH true).
  - intros Hs. simpl. by rewrite Hx.
Qed.

Lemma tidy_app_l b s t : tidy b (s ++ t) = true -> tidy b s = true.
Proof.
  revert b. induction s as [|x s IH]; intros b; simpl; [reflexivity|].
  destruct (isspace x).
  - intros H. apply andb_true_iff in H as [H Hs]. rewrite H. by apply IH.
  - apply IH.
Qed.

Lemma lstrip_suffix s : exists u, s = u ++ lstrip s.
Proof.
  induction s as [|x s [u IH]]; simpl; [by exists []|].
  destruct (isspace x); [|by exists []].
  exists (x :: u). simpl. by rewrite <- IH.
Qed.

Lemma rstrip_prefix s : exists t, s = rstrip s ++ t.
Proof.
  unfold rstrip. destruct (lstrip_suffix (rev s)) as [u Hu].
  exists (rev u). rewrite <- rev_app_distr, <- Hu. by rewrite rev_involutive.
Qed.

Lemma tidy_strip b s : tidy b s = true -> tidy false (strip s) = true.
Proof.
  intros H. unfold strip. apply tidy_lstrip in H.
  destruct (rstrip_prefix (lstrip s)) as [t Ht]. rewrite Ht in H.
  eapply tidy_app_l, H.
Qed.

Lemma lstrip_app_nonspace u c v :
  isspace c = false -> lstrip (u ++ c :: v) = lstrip u ++ c :: v.
Proof.
  intros Hc. induction u as [|x u IH]; simpl; [by rewrite Hc|].
  by destruct (isspace x).
Qed.

Lemma lstrip_head s :
  lstrip s = [] \/ exists c t, lstrip s = c :: t /\ isspace c = false.
Proof.
  induction s as [|x s IH]; simpl; [by left|].
  destruct (isspace x) eqn:Hx; [exact IH|]. right. by exists x, s.
Qed.

Lemma lstrip_idemp s : lstrip (lstrip s) = lstrip s.
Proof.
  destruct (lstrip_head s) as [->|(c & t & -> & Hc)]; simpl; [reflexivity|].
  by rewrite Hc.
Qed.

Lemma rstrip_cons_nonspace c t : isspace c = false -> rstrip (c :: t) = c :: rstrip t.
Proof.
  intros Hc. unfold rstrip. simpl. rewrite lstrip_app_nonspace by exact Hc.
  rewrite rev_app_distr. reflexivity.
Qed.

Lemma strip_idemp s : strip (strip s) = strip s.
Proof.
  unfold strip.
  assert (Hl : lstrip (rstrip (lstrip s)) = rstrip (lstrip s)).
  { destruct (lstrip_head s) as [->|(c & t & -> & Hc)]; [reflexivity|].
    rewrite rstrip_cons_nonspace by exact Hc. simpl. by rewrite Hc. }
  rewrite Hl. unfold rstrip. rewrite rev_involutive, lstrip_idemp. reflexivity.
Qed.

(** The cleaning step of [clean_holder_name] changes nothing when it is
    applied again. *)
Lemma cleaning_idemp s :
  strip (re_sub re_spaces (of_string " ") (strip (re_sub re_spaces (of_string " ") s)))
  = strip (re_sub re_spaces (of_string " ") s).
Proof.
  rewrite !re_sub_spaces.
  rewrite (squeeze_tidy false (strip (squeeze false s))).
  - apply strip_idemp.
  - eapply tidy_strip, tidy_squeeze.
Qed.

(** ** Canonicalization *)

Lemma first_alias_cases rules l n :
  first_alias rules l n = n \/ In (first_alias rules l n) (map snd rules).
Proof.
  induction rules as [|[pat repl] rules IH]; simpl; [by left|].
  destruct (re_search pat l); [right; by left|].
  destruct IH as [IH|IH]; [by left | right; by right].
Qed.

Lemma labels_are_fixed :
  Forall (fun label => clean_name label = label) (map snd aliases).
Proof. repeat constructor. Qed.

Lemma clean_name_idemp s : clean_name (clean_name s) = clean_name s.
Proof.
  destruct (first_alias_cases aliases
              (lower (strip (re_sub re_spaces (of_string " ") s)))
              (strip (re_sub re_spaces (of_string " ") s))) as [Hn|Hlabel].
  - change (clean_name s) with
      (first_alias aliases (lower (strip (re_sub re_spaces (of_string " ") s)))
                   (strip (re_sub re_spaces (of_string " ") s))).
    rewrite Hn. unfold clean_name. cbv zeta. rewrite cleaning_idemp. exact Hn.
  - apply (proj1 (List.Forall_forall _ _) labels_are_fixed). exact Hlabel.
Qed.

(** C7: canonicalization is idempotent: cleaning a cleaned name gives the
    same name, for every text and for every argument that is not a text.
    Every label of an alias rule is a fixed point, and the result for a
    text is such a label or the cleaned text, which is then a fixed point
    too. *)
Theorem clean_holder_name_idempotent (name : cell) (s : str) :
  clean_holder_name (clean_holder_name name) = clean_holder_name name
  /\ Forall (fun label => clean_holder_name (CStr label) = CStr label) (map snd aliases)
  /\ (In (clean_name s) (map snd aliases)
      \/ (clean_name s = strip (re_sub re_spaces (of_string " ") s)
          /\ clean_holder_name (CStr (strip (re_sub re_spaces (of_string " ") s)))
             = CStr (strip (re_sub re_spaces (of_string " ") s)))).
Proof.
  split; [|split].
  - destruct name as [t| |]; cbn [clean_holder_name]; [|reflexivity..].
    by rewrite clean_name_idemp.
  - eapply Forall_impl; [exact labels_are_fixed|]. intros label Hl.
    cbn [clean_holder_name]. by rewrite Hl.
  - destruct (first_alias_cases aliases
                (lower (strip (re_sub re_spaces (of_string " ") s)))
                (strip (re_sub re_spaces (of_string " ") s))) as [Hn|Hlabel];
      [right|by left].
    split; [exact Hn|]. cbn [clean_holder_name]. f_equal.
    pose proof (clean_name_idemp s) as Hidem.
    change (clean_name s) with
      (first_alias aliases (lower (strip (re_sub re_spaces (of_string " ") s)))
                   (strip (re_sub re_spaces (of_string " ") s))) in Hidem.
    rewrite Hn in Hidem. exact Hidem.
Qed.

(** ** The content-type sniffer *)

Lemma exists_suffix_or (A B : str -> bool) s :
  exists_suffix (fun t => A t || B t) s = exists_suffix A s || exists_suffix B s.
Proof.
  induction s as [|x s IH]; simpl.
  - by rewrite !orb_false_r.
  - rewrite IH. destruct (A (x :: s)), (B (x :: s)), (exists_suffix A s); reflexivity.
Qed.

Lemma contains_exists_suffix w s : contains w s = exists_suffix (starts_with w) s.
Proof. induction s as [|x s IH]; simpl; [reflexivity|]. by rewrite IH. Qed.

Lemma span_len_drop p j s :
  j < span_len p s -> exists x t, drop j s = x :: t /\ p x = true.
Proof.
  revert j. induction s as [|y s IH]; intros j; simpl; [lia|].
  destruct (p y) eqn:Hy; [|lia].
  destruct j as [|j]; simpl; [by exists y, s|]. intros Hj. apply IH. lia.
Qed.

Lemma letter_is_not_gt x : is_ascii_letter x = true -> Ascii.eqb ">" x = false.
Proof.
  intros Hx. destruct (Ascii.eqb_spec ">"%char x) as [<-|]; [|reflexivity].
  vm_compute in Hx. discriminate.
Qed.

Lemma ok_match_at_html prev pos rest :
  ok (match_at re_html (Cursor prev pos rest))
  = starts_with_ci (of_string "<!DOCTYPE html") rest
    || starts_with_ci (of_string "</html>") rest.
Proof.
  unfold match_at, re_html. cbn [run]. rewrite !run_lit_ci. cbn [c_rest].
  destruct (starts_with_ci (of_string "<!DOCTYPE html") rest); [reflexivity|].
  destruct (starts_with_ci (of_string "</html>") rest); reflexivity.
Qed.

Lemma ok_match_at_xml prev pos rest :
  ok (match_at re_xml (Cursor prev pos rest))
  = starts_with (of_string "<?xml") rest || closing_tag_at rest.
Proof.
  unfold match_at, re_xml, closing_tag_at, chr. cbn [run seqs]. rewrite !run_lit. cbn [c_rest].
  destruct (starts_with (of_string "<?xml") rest); [reflexivity|].
  destruct (starts_with (of_string "</") rest); [|reflexivity].
  cbn [orb andb].
  rewrite run_plus_chr.
  - rewrite !advance_rest. cbn [c_rest]. change (length (of_string "</")) with 2.
    destruct (Nat.leb 1 (span_len is_ascii_letter (drop 2 rest))); [|reflexivity].
    cbn [andb]. rewrite run_lit, !advance_rest. cbn [c_rest].
    by destruct (starts_with (of_string ">") _).
  - right. intros j Hj. rewrite run_lit, advance_rest.
    apply span_len_drop in Hj as (x & t & -> & Hx).
    change (of_string ">") with [">"%char]. cbn [starts_with].
    by rewrite letter_is_not_gt.
Qed.

(** C8: the content-type sniffer follows the stated decision order: an HTML
    doctype or a closing html tag, matched in any case, gives html;
    otherwise an XML processing instruction or the closing-tag pattern (the
    characters </, one or more ASCII letters, >) gives xml; otherwise the
    content is text. *)
Theorem detect_content_type_decision_order (content : str) :
  detect_content_type content = classify content.
Proof.
  unfold detect_content_type, classify, contains_ci, has_closing_tag, re_search.
  rewrite !is_Some_ok.
  rewrite (ok_search_from re_html _ ok_match_at_html).
  rewrite (ok_search_from re_xml _ ok_match_at_xml).
  rewrite !exists_suffix_or, contains_exists_suffix. reflexivity.
Qed.

Example detect_content_type_cases :
  detect_content_type "<!doctype HTML><p>x</p>" = html
  /\ detect_content_type "<?xml version='1.0'?><a/>" = xml
  /\ detect_content_type "<ownership>5%</ownership>" = xml
  /\ detect_content_type "Security Ownership: 5%" = text.
Proof. repeat split; vm_compute; reflexivity. Qed.

(** * Further properties of the code *)

(** ** Rows of a processed table *)

Lemma contains_total_ci h : contains_total h = contains_ci (of_string "total") h.
Proof.
  unfold contains_total, contains_ci, re_search. rewrite is_Some_ok.
  apply ok_search_from. intros prev pos rest.
  unfold match_at. rewrite run_lit_ci. cbn [c_rest].
  by destruct (starts_with_ci (of_string "total") rest).
Qed.

Lemma zip_rows_holder raw pc sh :
  Forall (fun r => holder r = clean_name (holder_raw r)) (zip_rows raw pc sh).
Proof.
  revert pc sh. induction raw as [|r raw IH]; intros [|p pc] [|s sh]; simpl;
    try constructor; [reflexivity | apply IH].
Qed.

Lemma zip_rows_length raw pc sh : length (zip_rows raw pc sh) <= length raw.
Proof.
  revert pc sh. induction raw as [|r raw IH]; intros [|p pc] [|s sh]; simpl; try lia.
  specialize (IH pc sh). lia.
Qed.

Lemma iloc_col_length df j cells : iloc_col df j = Ok cells -> length cells = length (rows df).
Proof.
  unfold iloc_col. destruct (Nat.ltb j (length (columns df))); [|discriminate].
  intros [= <-]. apply length_map.
Qed.

(** Rows of [process_ownership_table]: no holder contains "total" in any
    case, every holder has more than one character and is the canonical
    form of the raw holder text, and there are no more rows than the table
    had. *)
Theorem process_ownership_table_rows (df : dataframe) (out : list holder_row)
    (Hout : process_ownership_table df = Ok out) :
  Forall (fun r => contains_ci (of_string "total") (holder r) = false
                   /\ 1 < length (holder r)
                   /\ holder r = clean_name (holder_raw r)) out
  /\ length out <= length (rows df).
Proof.
  unfold process_ownership_table in Hout.
  set (ndf := normalize_columns df) in Hout.
  set (col_map := detect_ownership_columns ndf) in Hout.
  unfold mbind, result_bind in Hout.
  destruct (match col_map !! "name" with
            | Some j => iloc_col ndf j
            | None => iloc_col ndf 0
            end) as [names|e] eqn:Hnames; [|discriminate].
  match type of Hout with
  | match ?x with Ok _ => _ | Raise _ => _ end = _ =>
      destruct x as [pc|e]; [|discriminate]
  end.
  match type of Hout with
  | match ?x with Ok _ => _ | Raise _ => _ end = _ =>
      destruct x as [sh|e]; [|discriminate]
  end.
  injection Hout as <-. split.
  - apply List.Forall_forall. intros r Hr.
    apply list_elem_of_In, list_elem_of_filter in Hr as [Hlen Hr].
    apply list_elem_of_filter in Hr as [Htotal Hr].
    split; [|split].
    + rewrite <- contains_total_ci. by destruct (contains_total (holder r)).
    + by apply Nat.ltb_lt, Is_true_true.
    + apply list_elem_of_In in Hr.
      apply (proj1 (List.Forall_forall _ _) (zip_rows_holder _ _ _) r Hr).
  - etransitivity; [apply length_filter|].
    etransitivity; [apply length_filter|].
    etransitivity; [apply zip_rows_length|].
    rewrite length_map.
    assert (Hl : length names = length (rows ndf)).
    { destruct (col_map !! "name"); eapply iloc_col_length, Hnames. }
    rewrite Hl. reflexivity.
Qed.

Lemma process_ownership_table_rows_witness :
  exists out,
    process_ownership_table vanguard_table = Ok out
    /\ Forall (fun r => contains_ci (of_string "total") (holder r) = false
                        /\ 1 < length (holder r)
                        /\ holder r = clean_name (holder_raw r)) out
    /\ length out = 1.
Proof.
  assert (Hout : process_ownership_table vanguard_table
                 = Ok [HolderRow "The Vanguard Group, Inc." "Vanguard Group"
                                 (py_float "8.5") (Some 1234567%Z)])
    by (vm_compute; reflexivity).
  eexists. split; [exact Hout|].
  destruct (process_ownership_table_rows vanguard_table _ Hout) as [Hrows _].
  split; [exact Hrows | reflexivity].
Defined.

(** ** Requests of the fetch layer *)

(** With a negative [retries] the loop of [get_response] is empty: no
    request is sent, nothing is slept, and the final [RuntimeError] is
    raised. *)
Theorem get_response_negative_retries (json : Type) (url : str) (retries : Z)
    (backoff : float) (w : world json) (Hneg : (retries < 0)%Z) :
  get_response url retries backoff w = (Raise RuntimeError, w).
Proof.
  unfold get_response. replace (Z.to_nat (retries + 1)) with 0 by lia. reflexivity.
Qed.

Lemma get_response_negative_retries_witness :
  (-1 < 0)%Z
  /\ get_response (of_string "https://www.sec.gov/doc") (-1) BACKOFF_FACTOR flaky_world
     = (Raise RuntimeError, flaky_world).
Proof.
  assert (H : (-1 < 0)%Z) by lia.
  split; [exact H|]. apply (get_response_negative_retries unit _ (-1)%Z _ _ H).
Defined.

Lemma get_response_loop_bound (json : Type) (url : str) (retries : Z) (backoff : float) :
  forall n i (w : world json),
  exists r w',
    get_response_loop url retries backoff n i w = (r, w')
    /\ server w' = server w
    /\ sent w <= sent w' <= sent w + n
    /\ (forall resp, r = Ok resp ->
          sent w < sent w' /\ server w (sent w' - 1) = Returned resp).
Proof.
  induction n as [|n IH]; intros i w.
  - exists (Raise RuntimeError), w. split; [reflexivity|]. split; [reflexivity|].
    split; [lia|]. intros resp Hr. discriminate.
  - cbn [get_response_loop]. rewrite http_get_unfold.
    destruct (server w (sent w)) as [resp|] eqn:Hanswer.
    + eexists _, _. split; [reflexivity|]. cbn [server sent].
      split; [reflexivity|]. split; [lia|].
      intros resp' [= <-]. split; [lia|]. rewrite <- Hanswer. f_equal. lia.
    + destruct (Z.of_nat i <? retries)%Z.
      * unfold mbind, io_bind, lift, sleep.
        destruct (sleep_time backoff i) as [t|e].
        -- destruct (sleep_check t) as [[]|e].
           ++ cbn [server sent trace].
              destruct (IH (S i) (World (server w) (S (sent w))
                                        ((trace w ++ [Request url]) ++ [Sleep t])))
                as (r & w' & Hrun & Hserver & Hsent & Hresp).
              cbn [server sent] in *.
              exists r, w'. split; [exact Hrun|]. split; [exact Hserver|]. split; [lia|].
              intros resp Hr. destruct (Hresp resp Hr) as [Hlt Hlast].
              split; [lia|exact Hlast].
           ++ eexists _, _. split; [reflexivity|]. cbn [server sent].
              split; [reflexivity|]. split; [lia|]. intros resp Hr. discriminate.
        -- eexists _, _. split; [reflexivity|]. cbn [server sent].
           split; [reflexivity|]. split; [lia|]. intros resp Hr. discriminate.
      * eexists _, _. split; [reflexivity|]. cbn [server sent].
        split; [reflexivity|]. split; [lia|]. intros resp Hr. discriminate.
Qed.

(** Whatever the network does, [get_response] sends at most [retries + 1]
    requests, and a response it returns is the answer to the last request
    it sent. *)
Theorem get_response_request_bound (json : Type) (url : str) (retries : Z)
    (backoff : float) (w : world json) :
  exists r w',
    get_response url retries backoff w = (r, w')
    /\ server w' = server w
    /\ sent w <= sent w' <= sent w + Z.to_nat (retries + 1)
    /\ (forall resp, r = Ok resp ->
          sent w < sent w' /\ server w (sent w' - 1) = Returned resp).
Proof. apply get_response_loop_bound. Qed.

(** ** Documents of a submission *)

Lemma primary_document_loop_at accession_nodash primary_docs :
  forall accessions i k acc,
    accessions !! k = Some acc ->
    remove_dashes acc = accession_nodash ->
    (forall j a, j < k -> accessions !! j = Some a -> remove_dashes a <> accession_nodash) ->
    primary_document_loop i accessions primary_docs accession_nodash
    = default [] (primary_docs !! (i + k)).
Proof.
  induction accessions as [|a accessions IH]; intros i k acc Hk Hacc Hfirst.
  - discriminate.
  - cbn [primary_document_loop]. destruct k as [|k].
    + injection Hk as ->. unfold str_eqb. rewrite bool_decide_eq_true_2 by exact Hacc.
      by rewrite Nat.add_0_r.
    + unfold str_eqb. rewrite bool_decide_eq_false_2.
      * rewrite (IH (S i) k acc Hk Hacc).
        -- f_equal. f_equal. lia.
        -- intros j a' Hj Ha'. apply (Hfirst (S j) a'); [lia|exact Ha'].
      * apply (Hfirst 0 a); [lia|reflexivity].
Qed.

Lemma primary_document_loop_absent accession_nodash primary_docs :
  forall accessions i,
    Forall (fun a => remove_dashes a <> accession_nodash) accessions ->
    primary_document_loop i accessions primary_docs accession_nodash = [].
Proof.
  induction accessions as [|a accessions IH]; intros i Habs; [reflexivity|].
  cbn [primary_document_loop]. inversion Habs as [|? ? Ha Hrest]; subst.
  unfold str_eqb. rewrite bool_decide_eq_false_2 by exact Ha. by apply IH.
Qed.

(** [get_primary_document_from_submissions] finds again the document of the
    filing that [find_latest_def14a] selected, when the accession numbers
    of the submissions are distinct; for an accession number that no entry
    bears it gives the empty text. *)
Theorem primary_document_of_latest_filing (subs : submissions)
    (d acc_nodash primary_doc : str)
    (Hparallel : parallel_arrays subs)
    (Hdistinct : NoDup (map remove_dashes (accessionNumber subs)))
    (Hfound : find_latest_def14a subs = Ok (Some (d, acc_nodash, primary_doc))) :
  get_primary_document_from_submissions subs acc_nodash = primary_doc
  /\ forall other,
       Forall (fun a => remove_dashes a <> other) (accessionNumber subs) ->
       get_primary_document_from_submissions subs other = [].
Proof.
  split.
  - destruct (find_latest_def14a_spec subs Hparallel)
      as [(i & d' & acc & _ & _ & Hacc & Hrun)|[_ Hrun]];
      rewrite Hrun in Hfound; [|discriminate].
    injection Hfound as <- <- <-.
    unfold get_primary_document_from_submissions.
    rewrite (primary_document_loop_at (remove_dashes acc) (primaryDocument subs)
               (accessionNumber subs) 0 i acc Hacc eq_refl); [reflexivity|].
    intros j a Hj Ha Heq.
    assert (Hmj : map remove_dashes (accessionNumber subs) !! j = Some (remove_dashes a))
      by (by rewrite list_lookup_fmap, Ha).
    assert (Hmi : map remove_dashes (accessionNumber subs) !! i = Some (remove_dashes acc))
      by (by rewrite list_lookup_fmap, Hacc).
    rewrite Heq in Hmj.
    pose proof (NoDup_lookup _ _ _ _ Hdistinct Hmj Hmi). lia.
  - intros other Habs. by apply primary_document_loop_absent.
Qed.

Lemma primary_document_of_latest_filing_witness :
  parallel_arrays apple_submissions
  /\ NoDup (map remove_dashes (accessionNumber apple_submissions))
  /\ get_primary_document_from_submissions apple_submissions
       (of_string "000032019324000010") = of_string "proxy2024.htm".
Proof.
  assert (Hp : parallel_arrays apple_submissions) by (split; simpl; lia).
  assert (Hd : NoDup (map remove_dashes (accessionNumber apple_submissions)))
    by (apply (bool_decide_unpack _); vm_compute; exact I).
  assert (Hf : find_latest_def14a apple_submissions
               = Ok (Some (of_string "2024-06-15", of_string "000032019324000010",
                           of_string "proxy2024.htm")))
    by (vm_compute; reflexivity).
  split; [exact Hp|]. split; [exact Hd|].
  exact (proj1 (primary_document_of_latest_filing apple_submissions _ _ _ Hp Hd Hf)).
Defined.

(** ** The locator of the pattern scrapers *)

Section FastLocator.

Variable subs : submissions.
Hypothesis Hlen : length (form subs) <= length (accessionNumber subs).

Lemma first_def14a_scan rest : forall pre,
  form subs = pre ++ rest ->
  (forall j, j < length pre -> ~ def14a_with_document subs j) ->
  (exists i acc,
      def14a_with_document subs i
      /\ (forall j, j < i -> ~ def14a_with_document subs j)
      /\ accessionNumber subs !! i = Some acc
      /\ first_def14a (length pre) rest (accessionNumber subs) (primaryDocument subs)
         = Ok (Some (remove_dashes acc, default [] (primaryDocument subs !! i))))
  \/ ((forall i, ~ def14a_with_document subs i)
      /\ first_def14a (length pre) rest (accessionNumber subs) (primaryDocument subs)
         = Ok None).
Proof.
  induction rest as [|f rest IH]; intros pre Hsplit Hnone; cbn [first_def14a].
  - right. split; [|reflexivity]. intros i Hi. pose proof Hi as (f & Hf & _).
    apply lookup_lt_Some in Hf. rewrite Hsplit, app_nil_r in Hf.
    apply (Hnone i); [exact Hf | exact Hi].
  - assert (Hf : form subs !! length pre = Some f).
    { rewrite Hsplit. by rewrite list_lookup_middle. }
    assert (Hnext : form subs = (pre ++ [f]) ++ rest) by (by rewrite <- app_assoc).
    assert (Hpre : length (pre ++ [f]) = S (length pre))
      by (rewrite length_app; simpl; lia).
    specialize (IH (pre ++ [f]) Hnext). rewrite Hpre in IH.
    assert (Hstep : ~ def14a_with_document subs (length pre) ->
                    forall j, j < S (length pre) -> ~ def14a_with_document subs j).
    { intros Hnot j Hj. destruct (decide (j = length pre)) as [->|Hne]; [exact Hnot|].
      apply Hnone. lia. }
    destruct (str_eqb (upper (strip f)) (of_string "DEF 14A")) eqn:Hlabel.
    + destruct (accessionNumber subs !! length pre) as [acc|] eqn:Hacc.
      2:{ apply lookup_ge_None in Hacc. apply lookup_lt_Some in Hf. lia. }
      destruct (default [] (primaryDocument subs !! length pre)) as [|c doc] eqn:Hdoc.
      * apply IH, Hstep. intros (f' & Hf' & _ & Hdoc'). by apply Hdoc'.
      * left. exists (length pre), acc. split; [|split; [exact Hnone|split; [exact Hacc|]]].
        -- exists f. split; [exact Hf|]. split; [exact Hlabel|]. rewrite Hdoc. discriminate.
        -- by rewrite Hdoc.
    + apply IH, Hstep. intros (f' & Hf' & Hlabel' & _).
      assert (f' = f) as -> by congruence. congruence.
Qed.

End FastLocator.

(** The locator of the two pattern scrapers selects the first entry, in
    array order, that is typed DEF 14A and has a primary document, and
    nothing when there is none; the filing dates play no part. *)
Theorem first_def14a_selects_first_entry (subs : submissions)
    (Hlen : length (form subs) <= length (accessionNumber subs)) :
  (exists i acc,
      def14a_with_document subs i
      /\ (forall j, j < i -> ~ def14a_with_document subs j)
      /\ accessionNumber subs !! i = Some acc
      /\ first_def14a 0 (form subs) (accessionNumber subs) (primaryDocument subs)
         = Ok (Some (remove_dashes acc, default [] (primaryDocument subs !! i))))
  \/ ((forall i, ~ def14a_with_document subs i)
      /\ first_def14a 0 (form subs) (accessionNumber subs) (primaryDocument subs)
         = Ok None).
Proof.
  apply (first_def14a_scan subs Hlen (form subs) [] eq_refl).
  intros j Hj. simpl in Hj. lia.
Qed.

Lemma first_def14a_selects_first_entry_witness :
  length (form two_proxies) <= length (accessionNumber two_proxies)
  /\ first_def14a 0 (form two_proxies) (accessionNumber two_proxies)
                  (primaryDocument two_proxies)
     = Ok (Some (of_string "000123000001", of_string "proxy2023.htm")).
Proof.
  assert (Hlen : length (form two_proxies) <= length (accessionNumber two_proxies))
    by (simpl; lia).
  split; [exact Hlen|].
  destruct (first_def14a_selects_first_entry two_proxies Hlen) as [_|_];
    vm_compute; reflexivity.
Defined.

Lemma def14a_is_proxy_entry subs i : def14a_with_document subs i -> proxy_entry subs i.
Proof.
  intros (f & Hf & Hlabel & _). exists f. split; [exact Hf|].
  unfold is_proxy_form. by rewrite Hlabel.
Qed.

(** On a listing sorted newest first, whose proxy statements are all typed
    DEF 14A and have a primary document, the locator of the pattern
    scrapers and [find_latest_def14a] select the same filing. *)
Theorem locators_agree_on_sorted_listing (subs : submissions)
    (Hparallel : parallel_arrays subs)
    (Hsorted : forall i j, i < j -> proxy_entry subs i -> proxy_entry subs j ->
                 str_ltb (date_at subs i) (date_at subs j) = false)
    (Hlabel : forall i f, form subs !! i = Some f -> is_proxy_form f = true ->
                str_eqb (upper (strip f)) (of_string "DEF 14A") = true)
    (Hdocs : forall i, proxy_entry subs i -> default [] (primaryDocument subs !! i) <> []) :
  exists found,
    find_latest_def14a subs = Ok found
    /\ first_def14a 0 (form subs) (accessionNumber subs) (primaryDocument subs)
       = Ok (option_map (fun '(_, acc, doc) => (acc, doc)) found).
Proof.
  assert (Hwith : forall i, proxy_entry subs i -> def14a_with_document subs i).
  { intros i Hi. pose proof Hi as (f & Hf & Hp). exists f.
    split; [exact Hf|]. split; [by apply (Hlabel i)|by apply Hdocs]. }
  destruct Hparallel as [Hdates Haccs].
  assert (Hinit : forall j, j < length (@nil str) -> ~ def14a_with_document subs j)
    by (intros j Hj; simpl in Hj; lia).
  pose proof (first_def14a_scan subs Haccs (form subs) [] eq_refl Hinit) as Hscan.
  cbn [length] in Hscan.
  destruct (find_latest_def14a_spec subs (conj Hdates Haccs))
    as [(i & d & acc & Hlatest & Hd & Hacc & ->)|[Hnone ->]];
    eexists; (split; [reflexivity|]); cbn [option_map].
  - destruct Hscan
      as [(i' & acc' & Hi' & Hfirst & Hacc' & ->)|[Hno _]].
    + destruct Hlatest as (Hpi & Hmax & Hties).
      assert (i' = i) as ->.
      { destruct (Nat.lt_trichotomy i' i) as [Hlt|[Heq|Hgt]]; [|exact Heq|].
        - pose proof (def14a_is_proxy_entry subs i' Hi') as Hpi'.
          specialize (Hties i' Hlt Hpi'). rewrite (Hsorted i' i Hlt Hpi' Hpi) in Hties.
          discriminate.
        - destruct (Hfirst i Hgt). by apply Hwith. }
      assert (acc' = acc) as -> by congruence. reflexivity.
    + destruct Hlatest as (Hpi & _). destruct (Hno i). by apply Hwith.
  - destruct Hscan
      as [(i' & acc' & Hi' & _)|[_ ->]]; [|reflexivity].
    destruct (Hnone i'). by apply def14a_is_proxy_entry.
Qed.

Lemma locators_agree_on_sorted_listing_witness :
  parallel_arrays two_proxies_reversed
  /\ exists found,
       find_latest_def14a two_proxies_reversed = Ok found
       /\ first_def14a 0 (form two_proxies_reversed) (accessionNumber two_proxies_reversed)
                       (primaryDocument two_proxies_reversed)
          = Ok (option_map (fun '(_, acc, doc) => (acc, doc)) found).
Proof.
  assert (Hp : parallel_arrays two_proxies_reversed) by (split; simpl; lia).
  split; [exact Hp|].
  apply (locators_agree_on_sorted_listing two_proxies_reversed Hp).
  - intros i j Hij _ (fj & Hfj & _). apply lookup_lt_Some in Hfj. simpl in Hfj.
    destruct i as [|i]; destruct j as [|[|j]]; try lia. vm_compute. reflexivity.
  - intros i f Hf _. destruct i as [|[|i]]; vm_compute in Hf;
      [injection Hf as <-; vm_compute; reflexivity ..| discriminate].
  - intros i (f & Hf & _). apply lookup_lt_Some in Hf. simpl in Hf.
    destruct i as [|[|i]]; try lia; vm_compute; discriminate.
Defined.

(** ** Digits *)

Lemma digit_facts c :
  isdigit c = true ->
  isspace c = false /\ (code c =? 95)%N = false
  /\ (code c =? 45)%N = false /\ (code c =? 43)%N = false.
Proof.
  destruct c as [[] [] [] [] [] [] [] []]; vm_compute; intros H;
    try discriminate H; repeat split.
Qed.

Lemma sub_from_nondigit fuel : forall prev pos rest,
  length rest <= fuel ->
  sub_from fuel re_nondigit [] prev pos rest = List.filter isdigit rest.
Proof.
  induction fuel as [|fuel IH]; intros prev pos rest Hlen.
  - destruct rest; simpl in *; [reflexivity|lia].
  - destruct rest as [|x rest]; [reflexivity|].
    cbn [sub_from List.filter]. unfold match_at, re_nondigit. rewrite run_chr_cons.
    simpl in Hlen. destruct (isdigit x); cbn [negb].
    + f_equal. apply IH. lia.
    + cbn [m_end c_pos]. replace (S pos - pos) with 1 by lia. cbn [Nat.eqb drop app].
      apply IH. lia.
Qed.

Lemma forallb_filter_digits s : forallb isdigit (List.filter isdigit s) = true.
Proof.
  induction s as [|c s IH]; simpl; [reflexivity|].
  destruct (isdigit c) eqn:Hc; simpl; [by rewrite Hc|exact IH].
Qed.

Lemma lstrip_digits c s : isdigit c = true -> lstrip (c :: s) = c :: s.
Proof. intros Hc. simpl. by rewrite (proj1 (digit_facts c Hc)). Qed.

Lemma strip_digits s : forallb isdigit s = true -> strip s = s.
Proof.
  intros Hs. unfold strip, rstrip.
  assert (Hl : lstrip s = s).
  { destruct s as [|c s]; [reflexivity|]. apply lstrip_digits.
    by apply andb_true_iff in Hs as [? _]. }
  rewrite Hl.
  assert (Hr : forallb isdigit (rev s) = true).
  { apply forallb_forall. intros c Hc. apply in_rev in Hc.
    by apply (proj1 (forallb_forall _ _) Hs). }
  destruct (rev s) as [|c t] eqn:Hrev.
  - simpl. rewrite <- (rev_involutive s), Hrev. reflexivity.
  - rewrite lstrip_digits by (by apply andb_true_iff in Hr as [? _]).
    rewrite <- Hrev. apply rev_involutive.
Qed.

Lemma drop_underscores_digits s : forall prev,
  forallb isdigit s = true ->
  match prev with Some p => (code p =? 95)%N = false | None => True end ->
  drop_underscores prev s = Some s.
Proof.
  induction s as [|c s IH]; intros prev Hs Hprev.
  - destruct prev as [p|]; simpl; [by rewrite Hprev|reflexivity].
  - apply andb_true_iff in Hs as [Hc Hs].
    destruct (digit_facts c Hc) as (_ & H95 & _).
    cbn [drop_underscores]. rewrite H95, Hc.
    rewrite (IH (Some c) Hs H95).
    destruct prev as [p|]; [rewrite orb_true_r|]; reflexivity.
Qed.

(** A text without white space is left as it is by the stripping of [int]
    and [float]. *)
Lemma num_strip_spaceless s :
  forallb (fun c => negb (isspace c)) s = true -> num_strip s = s.
Proof.
  assert (Hl : forall u, forallb (fun c => negb (isspace c)) u = true -> lstrip_num u = u).
  { intros [|c u]; [reflexivity|]. cbn [forallb lstrip_num]. intros Hu.
    apply andb_true_iff in Hu as [Hc _]. apply negb_true_iff in Hc.
    unfold is_num_space. by rewrite Hc. }
  intros Hs. unfold num_strip. rewrite (Hl s Hs), Hl; [apply rev_involutive|].
  apply forallb_forall. intros c Hc. apply in_rev in Hc.
  by apply (proj1 (forallb_forall _ _) Hs).
Qed.

Lemma digits_spaceless s :
  forallb isdigit s = true -> forallb (fun c => negb (isspace c)) s = true.
Proof.
  intros Hs. apply forallb_forall. intros c Hc.
  by rewrite (proj1 (digit_facts c (proj1 (forallb_forall _ _) Hs c Hc))).
Qed.

(** [int] of a text of digits *)
Lemma py_int_digits c s :
  forallb isdigit (c :: s) = true -> py_int (c :: s) = Some (int_of_digits (c :: s)).
Proof.
  intros Hs. unfold py_int. rewrite (num_strip_spaceless _ (digits_spaceless _ Hs)).
  pose proof Hs as Hs'. apply andb_true_iff in Hs' as [Hc _].
  destruct (digit_facts c Hc) as (_ & _ & H45 & H43).
  cbn [read_sign]. rewrite H45, H43.
  rewrite (drop_underscores_digits (c :: s) None Hs I). by rewrite Hs.
Qed.

Lemma to_int_value (x : cell) :
  to_int x
  = Ok (if isna x then None
        else match List.filter isdigit (py_str x) with
             | [] => None
             | ds => Some (int_of_digits ds)
             end).
Proof.
  unfold to_int. destruct (isna x); [reflexivity|].
  unfold re_sub. rewrite sub_from_nondigit by lia.
  pose proof (forallb_filter_digits (py_str x)) as Hds.
  destruct (List.filter isdigit (py_str x)) as [|c ds]; [reflexivity|].
  assert (Hisdigit : str_isdigit (c :: ds) = true).
  { unfold str_isdigit. apply forallb_forall. intros d Hd.
    rewrite (proj1 (forallb_forall _ _) Hds d Hd). reflexivity. }
  rewrite Hisdigit, (py_int_digits c ds Hds). reflexivity.
Qed.

(** [to_int] never raises (the interpreter's bound on the length of an
    integer text apart): it reads the digits of the text of the cell as
    one number, whatever stands between them (signs, decimal points,
    letters), and gives null for a missing cell and for a text without a
    digit. *)
Theorem to_int_reads_the_digits (x : cell) :
  to_int x
  = Ok (if isna x then None
        else match List.filter isdigit (py_str x) with
             | [] => None
             | ds => Some (int_of_digits ds)
             end)
  /\ to_int (CStr "1,234,567") = Ok (Some 1234567%Z)
  /\ to_int (CStr "(1.5)") = Ok (Some 15%Z)
  /\ to_int (CStr "-42") = Ok (Some 42%Z)
  /\ to_int (CStr "n/a") = Ok None.
Proof.
  split; [apply to_int_value|repeat split; vm_compute; reflexivity].
Qed.

(** ** Share counts of the comprehensive scraper *)

Lemma fast_probe_shares content m z :
  fst (comprehensive_market_scraper.probe content m) = Some z ->
  (1000 <= z <= 10000000000)%Z.
Proof.
  unfold comprehensive_market_scraper.probe. cbn [fst].
  destruct (re_search comprehensive_market_scraper.re_shares _) as [sm|]; [|discriminate].
  destruct (group _ sm 1) as [g|]; [|discriminate]. cbn.
  destruct (py_int _) as [v|]; [|discriminate]. cbn.
  unfold comprehensive_market_scraper.valid_shares.
  destruct (1000 <=? v)%Z eqn:Hlo; [|discriminate].
  destruct (v <=? 10000000000)%Z eqn:Hhi; [|discriminate].
  intros [= <-]. lia.
Qed.

(** Every share count of the comprehensive pattern path lies between one
    thousand and ten billion; a count outside is emitted as null. *)
Theorem fast_shares_within_bounds (today content ticker company_name : str) :
  Forall (fun r => forall z, shares_held r = Some z -> (1000 <= z <= 10000000000)%Z)
         (comprehensive_market_scraper._extract_institutional_holders_fast
            today content ticker company_name).
Proof.
  apply holders_loop_Forall. intros name patterns r Hr z Hz.
  apply try_patterns_Some in Hr as (_ & [m Hm] & _).
  apply (fast_probe_shares content m). rewrite <- Hm. exact Hz.
Qed.

(** ** Tickers *)

Lemma replace_char_without a b s :
  Forall (fun c => c <> a) s -> replace_char a b s = s.
Proof.
  induction 1 as [|c s Hc _ IH]; simpl; [reflexivity|].
  destruct (Ascii.eqb_spec c a) as [->|_]; [done|]. by rewrite IH.
Qed.

Lemma replace_char_gone a b s : a <> b -> Forall (fun c => c <> a) (replace_char a b s).
Proof.
  intros Hab. induction s as [|c s IH]; simpl; constructor; [|exact IH].
  destruct (Ascii.eqb_spec c a) as [->|Hc]; congruence.
Qed.

Lemma strip_keeps (P : ascii -> Prop) s : Forall P s -> Forall P (strip s).
Proof.
  intros Hs. unfold strip.
  destruct (lstrip_suffix s) as [u Hu]. rewrite Hu in Hs.
  apply Forall_app in Hs as [_ Hl].
  destruct (rstrip_prefix (lstrip s)) as [t Ht]. rewrite Ht in Hl.
  by apply Forall_app in Hl as [Hr _].
Qed.

(** The ticker normalisation of [get_sp500_tickers] (dots replaced by
    dashes, then surrounding whitespace removed) leaves no dot, changes
    nothing when it is applied again, and turns BRK.B into BRK-B. *)
Theorem normalize_ticker_idempotent (t : str) :
  normalize_ticker (normalize_ticker t) = normalize_ticker t
  /\ Forall (fun c => c <> "."%char) (normalize_ticker t)
  /\ normalize_ticker "BRK.B" = of_string "BRK-B"
  /\ normalize_ticker " BF.B " = of_string "BF-B".
Proof.
  assert (Hdots : Forall (fun c => c <> "."%char) (normalize_ticker t)).
  { apply strip_keeps, replace_char_gone. discriminate. }
  split; [|split; [exact Hdots|split; vm_compute; reflexivity]].
  unfold normalize_ticker at 1. rewrite (replace_char_without _ _ _ Hdots).
  apply strip_idemp.
Qed.

(** ** The parsing cascade *)

Section CascadeFacts.

Variable read_html : str -> result (list dataframe).
Variables html_tables xml_tables : str -> result (list (result dataframe)).

Lemma first_table_nonempty tables rows : first_table tables = Some rows -> rows <> [].
Proof.
  induction tables as [|t tables IH]; cbn [first_table]; [discriminate|].
  destruct (t ≫= process_ownership_table) as [[|r rs]|e]; try exact IH.
  intros [= <-]. discriminate.
Qed.

Lemma direct_tables_nonempty tables rows : direct_tables tables = Some rows -> rows <> [].
Proof.
  induction tables as [|t tables IH]; cbn [direct_tables]; [discriminate|].
  destruct (process_ownership_table t) as [[|r rs]|e]; try exact IH; [|discriminate].
  intros [= <-]. discriminate.
Qed.

Lemma extract_from_text_nonempty content rows :
  extract_from_text content = Ok (Some rows) -> rows <> [].
Proof.
  unfold extract_from_text.
  destruct (re_search section_pattern content) as [sm|]; [|discriminate].
  unfold mbind, result_bind. destruct (mapM _ _) as [found|e]; [|discriminate].
  destruct (omap id found); [discriminate|]. intros [= <-]. discriminate.
Qed.

Lemma parse_proxy_content_nonempty content rows :
  parse_proxy_content read_html html_tables xml_tables content = Ok (Some rows) ->
  rows <> [].
Proof.
  unfold parse_proxy_content.
  destruct (match read_html content with
            | Ok tables => direct_tables tables
            | Raise _ => None
            end) as [direct|] eqn:Hdirect.
  - intros [= <-]. destruct (read_html content) as [tables|e]; [|discriminate].
    eapply direct_tables_nonempty, Hdirect.
  - unfold mbind, result_bind.
    destruct (match detect_content_type content with
              | html => find_ownership_table_in_html html_tables content
              | xml => Ok (find_ownership_table_in_xml xml_tables content)
              | text => Ok None
              end) as [[found|]|e] eqn:Hformat; [| |discriminate].
    + intros [= <-]. destruct (detect_content_type content).
      * unfold find_ownership_table_in_html, mbind, result_bind in Hformat.
        destruct (html_tables content) as [tables|e]; [|discriminate].
        injection Hformat as Hformat. eapply first_table_nonempty, Hformat.
      * unfold find_ownership_table_in_xml in Hformat. injection Hformat as Hformat.
        destruct (xml_tables content) as [tables|e]; [|discriminate].
        eapply first_table_nonempty, Hformat.
      * discriminate.
    + apply extract_from_text_nonempty.
Qed.

End CascadeFacts.

(** [parse_proxy_content] never returns a table without rows: whichever
    strategy of the cascade answers (direct parse, section search or text
    fallback), its table has at least one row. *)
Theorem parse_proxy_content_has_rows
    (read_html : str -> result (list dataframe))
    (html_tables xml_tables : str -> result (list (result dataframe)))
    (content : str) (rows : list holder_row)
    (Hparsed : parse_proxy_content read_html html_tables xml_tables content
               = Ok (Some rows)) :
  rows <> [].
Proof. eapply parse_proxy_content_nonempty, Hparsed. Qed.

Lemma parse_proxy_content_has_rows_witness :
  parse_proxy_content (fun _ => Ok [vanguard_table]) (fun _ => Ok []) (fun _ => Ok [])
                      (of_string "<table>...</table>")
  = Ok (Some [HolderRow "The Vanguard Group, Inc." "Vanguard Group"
                        (py_float "8.5") (Some 1234567%Z)])
  /\ [HolderRow "The Vanguard Group, Inc." "Vanguard Group"
                (py_float "8.5") (Some 1234567%Z)] <> [].
Proof.
  assert (H : parse_proxy_content (fun _ => Ok [vanguard_table]) (fun _ => Ok [])
                (fun _ => Ok []) (of_string "<table>...</table>")
              = Ok (Some [HolderRow "The Vanguard Group, Inc." "Vanguard Group"
                                    (py_float "8.5") (Some 1234567%Z)]))
    by (vm_compute; reflexivity).
  split; [exact H|]. exact (parse_proxy_content_has_rows _ _ _ _ _ H).
Defined.

(** ** Roles of the columns *)

Lemma cond_insert_eq (b : bool) (k : string) (i : nat) (m : gmap string nat) :
  (if b then <[k:=i]> m else m) !! k = if b then Some i else m !! k.
Proof. destruct b; [apply lookup_insert_eq|reflexivity]. Qed.

Lemma cond_insert_ne (b : bool) (k k' : string) (i : nat) (m : gmap string nat) :
  k <> k' -> (if b then <[k:=i]> m else m) !! k' = m !! k'.
Proof. intros Hk. destruct b; [by apply lookup_insert_ne|reflexivity]. Qed.

Lemma detect_step_roles i col (m : gmap string nat) :
  detect_step i col m !! "name" = role_step name_keys i col (m !! "name")
  /\ detect_step i col m !! "percent" = role_step percent_keys i col (m !! "percent")
  /\ detect_step i col m !! "shares" = role_step shares_keys i col (m !! "shares").
Proof.
  unfold detect_step, role_step, not_get. cbv zeta. repeat split.
  - rewrite !(cond_insert_ne _ _ "name") by discriminate. apply cond_insert_eq.
  - rewrite !(cond_insert_ne _ _ "percent") by discriminate.
    etransitivity; [apply cond_insert_eq|].
    by rewrite !(cond_insert_ne _ _ "percent") by discriminate.
  - etransitivity; [apply cond_insert_eq|].
    by rewrite !(cond_insert_ne _ _ "shares") by discriminate.
Qed.

Lemma detect_loop_roles cols : forall i (m : gmap string nat),
  detect_loop i cols m !! "name" = role_loop name_keys i cols (m !! "name")
  /\ detect_loop i cols m !! "percent" = role_loop percent_keys i cols (m !! "percent")
  /\ detect_loop i cols m !! "shares" = role_loop shares_keys i cols (m !! "shares").
Proof.
  induction cols as [|col cols IH]; intros i m; cbn [detect_loop role_loop];
    [by repeat split|].
  destruct (IH (S i) (detect_step i col m)) as (Hn & Hp & Hs).
  destruct (detect_step_roles i col m) as (Hn' & Hp' & Hs').
  rewrite Hn, Hp, Hs, Hn', Hp', Hs'. by repeat split.
Qed.

Lemma leftmost_match_bounds keys cols : forall i j,
  leftmost_match keys i cols = Some j ->
  i <= j < i + length cols
  /\ exists col, cols !! (j - i) = Some col /\ any_in keys (lower (py_str col)) = true.
Proof.
  induction cols as [|col cols IH]; intros i j; cbn [leftmost_match]; [discriminate|].
  destruct (any_in keys (lower (py_str col))) eqn:Hcol.
  - intros [= <-]. split; [simpl; lia|]. exists col. by rewrite Nat.sub_diag.
  - intros Hj. destruct (IH (S i) j Hj) as [Hb (c & Hc & Hany)].
    split; [simpl; lia|]. exists c. split; [|exact Hany].
    replace (j - i) with (S (j - S i)) by lia. exact Hc.
Qed.

(** Once a role sits on a column other than 0 it stays there. *)
Lemma role_loop_fixed keys cols : forall i k,
  role_loop keys i cols (Some (S k)) = Some (S k).
Proof. induction cols as [|col cols IH]; intros i k; cbn; [reflexivity|apply IH]. Qed.

(** From column 1 on, a role that is unmapped or on column 0 takes the
    leftmost column with a keyword. *)
Lemma role_loop_from keys cols : forall i o,
  1 <= i -> (o = None \/ o = Some 0) ->
  role_loop keys i cols o
  = match leftmost_match keys i cols with Some j => Some j | None => o end.
Proof.
  induction cols as [|col cols IH]; intros i o Hi Ho; cbn [role_loop leftmost_match];
    [reflexivity|].
  unfold role_step.
  destruct (any_in keys (lower (py_str col))).
  - destruct Ho as [-> | ->]; cbn [andb]; destruct i as [|i]; try lia;
      apply role_loop_fixed.
  - rewrite andb_false_r. by apply IH; [lia|].
Qed.

Lemma role_loop_column keys cols : role_loop keys 0 cols None = role_column keys cols.
Proof.
  destruct cols as [|col cols]; [reflexivity|].
  cbn [role_loop role_column]. unfold role_step. cbn [andb].
  destruct (any_in keys (lower (py_str col))).
  - rewrite role_loop_from by (lia || auto).
    by destruct (leftmost_match keys 1 cols).
  - rewrite role_loop_from by (lia || auto).
    by destruct (leftmost_match keys 1 cols).
Qed.

Lemma detect_roles_columns (df : dataframe) :
  detect_ownership_columns df !! "name" = role_column name_keys (columns df)
  /\ detect_ownership_columns df !! "percent" = role_column percent_keys (columns df)
  /\ detect_ownership_columns df !! "shares" = role_column shares_keys (columns df).
Proof.
  unfold detect_ownership_columns.
  destruct (detect_loop_roles (columns df) 0 ∅) as (Hn & Hp & Hs).
  rewrite Hn, Hp, Hs, !lookup_empty, !role_loop_column. by repeat split.
Qed.

(** The rule [detect_ownership_columns] follows for each role: the role
    goes to the leftmost column whose header has one of its keywords,
    except that a role found on column 0 moves to the next column with a
    keyword when there is one.  The three roles are decided
    independently. *)
Theorem detect_ownership_columns_rule (df : dataframe) :
  detect_ownership_columns df !! "name" = role_column name_keys (columns df)
  /\ detect_ownership_columns df !! "percent" = role_column percent_keys (columns df)
  /\ detect_ownership_columns df !! "shares" = role_column shares_keys (columns df).
Proof.
  unfold detect_ownership_columns.
  destruct (detect_loop_roles (columns df) 0 ∅) as (Hn & Hp & Hs).
  rewrite Hn, Hp, Hs, !lookup_empty, !role_loop_column. by repeat split.
Qed.

Lemma role_column_sound keys cols j :
  role_column keys cols = Some j ->
  j < length cols
  /\ exists col, cols !! j = Some col /\ any_in keys (lower (py_str col)) = true.
Proof.
  destruct cols as [|col cols]; cbn [role_column]; [discriminate|].
  destruct (any_in keys (lower (py_str col))) eqn:Hcol.
  - destruct (leftmost_match keys 1 cols) as [k|] eqn:Hk; cbn [default]; intros [= <-].
    + destruct (leftmost_match_bounds keys cols 1 k Hk) as [Hb (c & Hc & Hany)].
      split; [simpl; lia|]. exists c. split; [|exact Hany].
      destruct k as [|k]; [lia|]. cbn. by replace (S k - 1) with k in Hc by lia.
    + split; [simpl; lia|]. by exists col.
  - intros Hk.
    destruct (leftmost_match_bounds keys cols 1 j Hk) as [Hb (c & Hc & Hany)].
    split; [simpl; lia|]. exists c. split; [|exact Hany].
    destruct j as [|j]; [lia|]. cbn. by replace (S j - 1) with j in Hc by lia.
Qed.

Lemma role_column_complete keys cols :
  role_column keys cols = None ->
  Forall (fun col => any_in keys (lower (py_str col)) = false) cols.
Proof.
  assert (Hleft : forall cs i, leftmost_match keys i cs = None ->
                    Forall (fun col => any_in keys (lower (py_str col)) = false) cs).
  { induction cs as [|c cs IH]; intros i; cbn [leftmost_match]; [constructor|].
    destruct (any_in keys (lower (py_str c))) eqn:Hc; [discriminate|].
    intros Hn. constructor; [exact Hc|by apply (IH (S i))]. }
  destruct cols as [|col cols]; cbn [role_column]; [constructor|].
  destruct (any_in keys (lower (py_str col))) eqn:Hcol; [discriminate|].
  intros Hn. constructor; [exact Hcol|by apply (Hleft cols 1)].
Qed.

(** What [detect_ownership_columns] guarantees: a role is mapped exactly
    when some header has one of its keywords, and the column it is mapped
    to exists and has such a header. *)
Theorem detect_ownership_columns_sound (df : dataframe) (role : string) (keys : list str)
    (Hrole : (role, keys) = ("name"%string, name_keys)
             \/ (role, keys) = ("percent"%string, percent_keys)
             \/ (role, keys) = ("shares"%string, shares_keys)) :
  (forall j, detect_ownership_columns df !! role = Some j ->
     j < length (columns df)
     /\ exists col, columns df !! j = Some col
                    /\ any_in keys (lower (py_str col)) = true)
  /\ (detect_ownership_columns df !! role = None ->
      Forall (fun col => any_in keys (lower (py_str col)) = false) (columns df)).
Proof.
  destruct (detect_roles_columns df) as (Hn & Hp & Hs).
  destruct Hrole as [[= -> ->]|[[= -> ->]|[= -> ->]]];
    rewrite ?Hn, ?Hp, ?Hs; split;
    auto using role_column_sound, role_column_complete.
Qed.

Lemma detect_ownership_columns_sound_witness :
  detect_ownership_columns vanguard_table !! "shares" = Some 1
  /\ 1 < length (columns vanguard_table).
Proof.
  assert (H : detect_ownership_columns vanguard_table !! "shares" = Some 1)
    by (vm_compute; reflexivity).
  split; [exact H|].
  exact (proj1 (proj1 (detect_ownership_columns_sound vanguard_table "shares" shares_keys
                         (or_intror (or_intror eq_refl))) 1 H)).
Defined.

(** ** Rows of the batch driver *)

Section DriverRows.

Variable json : Type.
Variable read_html : str -> result (list dataframe).
Variables html_tables xml_tables : str -> result (list (result dataframe)).
Variable recent : json -> submissions.

Lemma process_company_rows c cik w rs w' :
  process_company json read_html html_tables xml_tables recent c cik w = (Ok (Some rs), w') ->
  rs <> [] /\ Forall (tagged_for c cik) rs.
Proof.
  unfold process_company, mbind, io_bind, lift, try_except.
  destruct (get_company_submissions json cik _) as [[subs|e] w1]; [|discriminate].
  destruct (find_latest_def14a (recent subs)) as [[[[d acc] doc]|]|e];
    [|discriminate..].
  destruct doc as [|ch doc]; [discriminate|].
  destruct (py_int cik) as [n|] eqn:Hcik; [|discriminate].
  destruct (get_response _ _ _ w1) as [[r|e] w2]; [|discriminate].
  cbn [mret io_ret].
  destruct (parse_proxy_content read_html html_tables xml_tables (text_of r))
    as [[[|h rows]|]|e]; try discriminate.
  intros [= <- <-]. split; [discriminate|].
  assert (Htag : forall h', tagged_for c cik
            (Tags (upper (c_ticker c)) (c_security c) (c_sector c) d
                  (filing_url n acc (ch :: doc)), h')).
  { intros h'. exists n, d, acc, (ch :: doc).
    split; [exact Hcik|]. split; [discriminate|reflexivity]. }
  constructor; [apply Htag|].
  apply List.Forall_forall. intros x Hx.
  apply in_map_iff in Hx as (h' & <- & _). apply Htag.
Qed.

End DriverRows.

(** ** What the percent pattern captures *)

Lemma advance_add n m c : advance n (advance m c) = advance (m + n) c.
Proof.
  revert c. induction m as [|m IH]; intros [prev pos rest]; [reflexivity|].
  destruct rest as [|x rest]; cbn [advance c_rest Nat.add].
  - by destruct n.
  - apply IH.
Qed.

Lemma span_len_take p n s : n <= span_len p s -> forallb p (take n s) = true.
Proof.
  revert s. induction n as [|n IH]; intros [|x s]; cbn; try reflexivity; try lia.
  destruct (p x); [|lia]. intros Hn. apply IH. lia.
Qed.

(** A greedy repetition of a character class hands the continuation a
    position after some of the run. *)
Lemma rep_loop_chr_sound {R : Type} p lo hi (k : cursor -> groups -> option R) g res :
  forall fuel n c,
    rep_loop (run (Chr p)) lo hi true k fuel n c g = Some res ->
    exists j, j <= span_len p (c_rest c) /\ lo <= n + j
              /\ k (advance j c) g = Some res.
Proof.
  assert (Hstop : forall n c,
            (if Nat.leb lo n then k c g else None) = Some res ->
            exists j, j <= span_len p (c_rest c) /\ lo <= n + j
                      /\ k (advance j c) g = Some res).
  { intros n c Hs. destruct (Nat.leb lo n) eqn:Hlo; [|discriminate].
    apply Nat.leb_le in Hlo. exists 0. split; [lia|]. split; [lia|]. by destruct c. }
  induction fuel as [|fuel IH]; intros n [prev pos rest].
  - rewrite rep_loop_0. apply Hstop.
  - rewrite rep_loop_S. cbv zeta.
    destruct (below n hi).
    2:{ apply Hstop. }
    destruct rest as [|x rest].
    { rewrite run_chr_nil. apply Hstop. }
    rewrite run_chr_cons. destruct (p x) eqn:Hpx.
    2:{ apply Hstop. }
    cbn [c_pos].
    replace (Nat.eqb (S pos) pos) with false by (symmetry; apply Nat.eqb_neq; lia).
    destruct (rep_loop (run (Chr p)) lo hi true k fuel (S n)
                (Cursor (Some x) (S pos) rest) g) as [res'|] eqn:Hmore.
    + intros [= ->]. destruct (IH _ _ Hmore) as (j & Hj & Hlo & Hk).
      exists (S j). cbn [c_rest span_len] in *. rewrite Hpx.
      split; [lia|]. split; [lia|exact Hk].
    + apply Hstop.
Qed.

Lemma run_rep_chr_sound {R : Type} p lo (k : cursor -> groups -> option R) c g res :
  run (Rep (Chr p) lo None true) c g k = Some res ->
  exists j, lo <= j <= span_len p (c_rest c) /\ k (advance j c) g = Some res.
Proof.
  rewrite run_Rep. intros H. apply rep_loop_chr_sound in H as (j & Hj & Hlo & Hk).
  exists j. split; [lia|exact Hk].
Qed.

(** At its bound a repetition stops. *)
Lemma rep_loop_at_bound {R : Type} body lo (k : cursor -> groups -> option R) fuel c g :
  rep_loop body lo (Some 1) true k fuel 1 c g = if Nat.leb lo 1 then k c g else None.
Proof.
  destruct fuel as [|fuel]; [apply rep_loop_0|].
  rewrite rep_loop_S. reflexivity.
Qed.

(** An optional part is skipped or matched once. *)
Lemma run_opt_sound {R : Type} r (k : cursor -> groups -> option R) c g res :
  run (opt r) c g k = Some res ->
  k c g = Some res
  \/ exists fuel,
       run r c g (fun c' g' =>
                    if Nat.eqb (c_pos c') (c_pos c) then None
                    else rep_loop (run r) 0 (Some 1) true k fuel 1 c' g')
       = Some res.
Proof.
  unfold opt. rewrite run_Rep.
  destruct (length (c_rest c)) as [|fuel].
  - rewrite rep_loop_0. cbn. by left.
  - rewrite rep_loop_S. cbv zeta. cbn [below Nat.ltb Nat.leb].
    match goal with |- context [run r c g ?K] => destruct (run r c g K) eqn:Hmore end.
    + intros [= ->]. right. by exists fuel.
    + by left.
Qed.

Lemma run_Seq {R : Type} r1 r2 c g (k : cursor -> groups -> option R) :
  run (Seq r1 r2) c g k = run r1 c g (fun c' g' => run r2 c' g' k).
Proof. reflexivity. Qed.

Lemma run_Grp {R : Type} n r c g (k : cursor -> groups -> option R) :
  run (Grp n r) c g k = run r c g (fun c' g' => k c' ((n, (c_pos c, c_pos c')) :: g')).
Proof. reflexivity. Qed.

Lemma take_plus {A : Type} n k (l : list A) :
  take (n + k) l = take n l ++ take k (drop n l).
Proof.
  revert l. induction n as [|n IH]; intros [|x l]; cbn; try reflexivity.
  - by destruct k.
  - by rewrite IH.
Qed.

Lemma starts_with_point s :
  starts_with (of_string ".") s = true -> exists s', s = "."%char :: s'.
Proof.
  change (of_string ".") with ["."%char].
  destruct s as [|x s]; cbn [starts_with]; [discriminate|].
  destruct (Ascii.eqb "."%char x) eqn:Hx; [|discriminate].
  apply Ascii.eqb_eq in Hx as <-. by exists s.
Qed.

(** The numeral part of the percent pattern, whatever follows it *)
Lemma numeral_sound {R : Type} (k : cursor -> groups -> option R) c g res :
  run (Seq (plus (Chr isdigit)) (opt (Seq (chr ".") (plus (Chr isdigit))))) c g k
  = Some res ->
  exists len,
    len <= length (c_rest c)
    /\ decimal_text (take len (c_rest c))
    /\ k (advance len c) g = Some res.
Proof.
  rewrite run_Seq. unfold plus at 1. intros H.
  apply run_rep_chr_sound in H as (n & [Hn1 Hn] & H).
  pose proof (span_len_le isdigit (c_rest c)) as Hspan.
  assert (Hdigits : forallb isdigit (take n (c_rest c)) = true) by (by apply span_len_take).
  assert (Hne : take n (c_rest c) <> []).
  { intros He. apply (f_equal length) in He. rewrite length_take in He. simpl in He. lia. }
  apply run_opt_sound in H as [H|[fuel H]].
  - exists n. split; [lia|]. split; [|exact H].
    exists (take n (c_rest c)), []. rewrite app_nil_r. repeat split; auto.
  - rewrite run_Seq in H. unfold chr in H. rewrite run_lit in H.
    destruct (starts_with (of_string ".") (c_rest (advance n c))) eqn:Hpoint; [|discriminate].
    rewrite advance_rest in Hpoint. apply starts_with_point in Hpoint as [s' Hs'].
    unfold plus in H. apply run_rep_chr_sound in H as (n2 & [Hn21 Hn2] & H).
    cbv beta in H.
    destruct (Nat.eqb _ _); [discriminate|].
    rewrite rep_loop_at_bound in H. cbn [Nat.leb] in H.
    rewrite !advance_add in H. rewrite !advance_rest in Hn2.
    change (length (of_string ".")) with 1 in *.
    rewrite drop_drop, Nat.add_comm in Hn2.
    assert (Hs2 : drop (S n) (c_rest c) = s').
    { change (S n) with (1 + n). rewrite Nat.add_comm, <- drop_drop, Hs'. reflexivity. }
    cbn [Nat.add] in Hn2. rewrite Hs2 in Hn2.
    pose proof (span_len_le isdigit s') as Hspan2.
    assert (Hlen : length (c_rest c) = n + S (length s')).
    { rewrite <- (take_drop n (c_rest c)) at 1. rewrite length_app, Hs', length_take.
      simpl. lia. }
    exists (n + (1 + n2)). split; [lia|]. split; [|exact H].
    exists (take n (c_rest c)), ("."%char :: take n2 s').
    split.
    { rewrite take_plus, Hs'. reflexivity. }
    split; [exact Hne|]. split; [exact Hdigits|]. right.
    exists (take n2 s'). split; [reflexivity|]. split.
    + intros He. apply (f_equal length) in He. rewrite length_take in He. simpl in He. lia.
    + by apply span_len_take.
Qed.

(** A match of the percent pattern captures a numeral. *)
Lemma match_at_percent_captures c m :
  match_at re_percent c = Some m ->
  exists len,
    len <= length (c_rest c)
    /\ m_groups m = [(1, (c_pos c, c_pos c + len))]
    /\ decimal_text (take len (c_rest c)).
Proof.
  unfold match_at, re_percent. cbn [seqs]. rewrite run_Seq, run_Grp. intros H.
  apply numeral_sound in H as (len & Hlen & Hdec & H).
  exists len. split; [exact Hlen|]. split; [|exact Hdec].
  rewrite run_Seq in H. unfold star in H.
  apply run_rep_chr_sound in H as (j & _ & H).
  unfold chr in H. rewrite run_lit in H.
  destruct (starts_with _ _); [|discriminate].
  injection H as <-. cbn [m_groups]. by rewrite advance_pos.
Qed.

Lemma search_from_sound r m : forall rest prev pos,
  search_from r prev pos rest = Some m ->
  exists k prev', k <= length rest
                  /\ match_at r (Cursor prev' (pos + k) (drop k rest)) = Some m.
Proof.
  induction rest as [|x rest IH]; intros prev pos; cbn [search_from].
  - destruct (match_at r (Cursor prev pos [])) eqn:Hm; [|discriminate].
    intros [= ->]. exists 0, prev. rewrite Nat.add_0_r. by split.
  - destruct (match_at r (Cursor prev pos (x :: rest))) eqn:Hm.
    + intros [= ->]. exists 0, prev. rewrite Nat.add_0_r. split; [lia|exact Hm].
    + intros H. apply IH in H as (k & prev' & Hk & H).
      exists (S k), prev'. split; [simpl; lia|].
      by replace (pos + S k) with (S pos + k) by lia.
Qed.

(** What [m.group(1)] is after a search for the percent pattern *)
Lemma percent_group_decimal s m :
  re_search re_percent s = Some m ->
  exists t, group s m 1 = Some t /\ decimal_text t.
Proof.
  unfold re_search. intros H.
  apply search_from_sound in H as (k & prev' & Hk & H).
  apply match_at_percent_captures in H as (len & Hlen & Hg & Hdec).
  cbn [c_rest c_pos Nat.add] in *.
  exists (take len (drop k s)). split; [|exact Hdec].
  unfold group. rewrite Hg. cbn [group_span Nat.eqb]. unfold slice.
  by replace (k + len - k) with len by lia.
Qed.

(** ** [float] of a numeral *)

Lemma numeral_char_facts c :
  numeral_char c = true ->
  isspace c = false /\ (code c =? 95)%N = false.
Proof.
  destruct c as [[] [] [] [] [] [] [] []]; vm_compute; intros H;
    try discriminate H; repeat split.
Qed.

Lemma digit_lower c : isdigit c = true -> lower_char c = c.
Proof.
  destruct c as [[] [] [] [] [] [] [] []]; vm_compute; intros H;
    try discriminate H; reflexivity.
Qed.

Lemma numeral_spaceless s :
  forallb numeral_char s = true -> forallb (fun c => negb (isspace c)) s = true.
Proof.
  intros Hs. apply forallb_forall. intros c Hc.
  by rewrite (proj1 (numeral_char_facts c (proj1 (forallb_forall _ _) Hs c Hc))).
Qed.

Lemma strip_numeral s : forallb numeral_char s = true -> strip s = s.
Proof.
  assert (Hl : forall u, forallb numeral_char u = true -> lstrip u = u).
  { intros [|c u]; [reflexivity|]. cbn [forallb lstrip]. intros Hu.
    apply andb_true_iff in Hu as [Hc _].
    by rewrite (proj1 (numeral_char_facts c Hc)). }
  intros Hs. unfold strip, rstrip. rewrite (Hl s Hs), Hl; [apply rev_involutive|].
  apply forallb_forall. intros c Hc. apply in_rev in Hc.
  by apply (proj1 (forallb_forall _ _) Hs).
Qed.

Lemma drop_underscores_numeral s : forall prev,
  forallb numeral_char s = true ->
  match prev with Some p => (code p =? 95)%N = false | None => True end ->
  drop_underscores prev s = Some s.
Proof.
  induction s as [|c s IH]; intros prev Hs Hprev.
  - destruct prev as [p|]; simpl; [by rewrite Hprev|reflexivity].
  - apply andb_true_iff in Hs as [Hc Hs].
    destruct (numeral_char_facts c Hc) as (_ & H95).
    cbn [drop_underscores]. rewrite H95.
    rewrite (IH (Some c) Hs H95).
    destruct prev as [p|]; [rewrite Hprev|]; reflexivity.
Qed.

Lemma read_digits_count s : forall acc n,
  read_digits s acc n
  = (fst (fst (read_digits s acc 0)), n + snd (fst (read_digits s acc 0)),
     snd (read_digits s acc 0)).
Proof.
  induction s as [|c s IH]; intros acc n; cbn [read_digits].
  - cbn. by rewrite Nat.add_0_r.
  - destruct (isdigit c); [|cbn; by rewrite Nat.add_0_r].
    rewrite (IH _ (S n)), (IH _ 1). cbn [fst snd]. do 2 f_equal. lia.
Qed.

(** The digits in front of something else are read as one number. *)
Lemma read_digits_app a r : forall acc n,
  forallb isdigit a = true ->
  match r with c :: _ => isdigit c = false | [] => True end ->
  read_digits (a ++ r) acc n
  = (fst (fst (read_digits a acc 0)), n + length a, r).
Proof.
  induction a as [|c a IH]; intros acc n Ha Hr.
  - cbn [app length fst read_digits]. rewrite Nat.add_0_r.
    destruct r as [|c r]; cbn [read_digits]; [reflexivity|by rewrite Hr].
  - apply andb_true_iff in Ha as [Hc Ha].
    cbn [app read_digits length]. rewrite Hc, (IH _ (S n) Ha Hr).
    rewrite (read_digits_count a _ 1). cbn [fst]. do 2 f_equal. lia.
Qed.

Lemma read_digits_all a acc n :
  forallb isdigit a = true ->
  read_digits a acc n = (fst (fst (read_digits a acc 0)), n + length a, []).
Proof.
  intros Ha. rewrite <- (app_nil_r a) at 1. by apply read_digits_app.
Qed.

Lemma digit_is_numeral s : forallb isdigit s = true -> forallb numeral_char s = true.
Proof.
  intros Hs. apply forallb_forall. intros c Hc. unfold numeral_char.
  by rewrite (proj1 (forallb_forall _ _) Hs c Hc).
Qed.

Lemma decimal_text_chars t : decimal_text t -> forallb numeral_char t = true.
Proof.
  intros (a & b & -> & _ & Ha & [->|(f & -> & _ & Hf)]); rewrite forallb_app.
  - by rewrite (digit_is_numeral a Ha).
  - rewrite (digit_is_numeral a Ha). cbn [forallb andb].
    by rewrite (digit_is_numeral f Hf).
Qed.

(** The text is no special value of [float]: it starts with a digit. *)
Lemma digit_head_not_special c s w :
  isdigit c = true ->
  match w with x :: _ => isdigit x = false | [] => True end ->
  str_eqb (lower (c :: s)) w = false.
Proof.
  intros Hc Hw. unfold str_eqb. apply bool_decide_eq_false.
  cbn [lower map]. rewrite (digit_lower c Hc). intros Heq.
  destruct w as [|x w]; [discriminate|]. injection Heq as <- _. congruence.
Qed.

(** [float] reads every numeral: the digits before and after the point as
    one number, scaled by the number of digits after it. *)
Lemma py_float_numeral a f :
  a <> [] -> forallb isdigit a = true -> forallb isdigit f = true ->
  py_float a = Some (float_of_decimal false (int_of_digits a) 0)
  /\ (f <> [] ->
      py_float (a ++ "."%char :: f)
      = Some (float_of_decimal false (fst (fst (read_digits f (int_of_digits a) 0)))
                               (0 - Z.of_nat (length f)))).
Proof.
  intros Hne Ha Hf.
  destruct a as [|c a]; [done|]. clear Hne.
  pose proof Ha as Ha'. apply andb_true_iff in Ha' as [Hc _].
  destruct (digit_facts c Hc) as (_ & _ & H45 & H43).
  assert (Hinf : forall s, str_eqb (lower (c :: s)) (of_string "inf") = false)
    by (intros; by apply digit_head_not_special).
  assert (Hinfinity : forall s, str_eqb (lower (c :: s)) (of_string "infinity") = false)
    by (intros; by apply digit_head_not_special).
  assert (Hnan : forall s, str_eqb (lower (c :: s)) (of_string "nan") = false)
    by (intros; by apply digit_head_not_special).
  split.
  - unfold py_float.
    rewrite (num_strip_spaceless _ (numeral_spaceless _ (digit_is_numeral _ Ha))).
    rewrite (drop_underscores_numeral _ None (digit_is_numeral _ Ha) I).
    cbn [read_sign]. rewrite H45, H43. cbv zeta.
    rewrite Hinf, Hinfinity, Hnan. cbn [orb].
    rewrite (read_digits_all (c :: a) 0 0 Ha).
    cbn [Nat.add length Nat.eqb read_exponent]. reflexivity.
  - intros Hfne.
    assert (Hall : forallb numeral_char ((c :: a) ++ "."%char :: f) = true).
    { apply decimal_text_chars. exists (c :: a), ("."%char :: f).
      repeat split; auto. right. by exists f. }
    unfold py_float.
    rewrite (num_strip_spaceless _ (numeral_spaceless _ Hall)), (drop_underscores_numeral _ None Hall I).
    change ((c :: a) ++ "."%char :: f) with (c :: a ++ "."%char :: f).
    cbn [read_sign]. rewrite H45, H43. cbv zeta.
    rewrite Hinf, Hinfinity, Hnan. cbn [orb].
    change (c :: a ++ "."%char :: f) with ((c :: a) ++ "."%char :: f).
    rewrite (read_digits_app (c :: a) ("."%char :: f) 0 0 Ha eq_refl).
    change (code "."%char =? 46)%N with true. cbv iota.
    rewrite (read_digits_all f _ 0 Hf).
    destruct f as [|d f]; [done|].
    cbn [Nat.add length]. rewrite Nat.add_succ_r. cbn [Nat.eqb read_exponent].
    reflexivity.
Qed.

Lemma py_float_decimal t : decimal_text t -> is_Some (py_float t).
Proof.
  intros (a & b & -> & Hne & Ha & [->|(f & -> & Hfne & Hf)]).
  - rewrite app_nil_r. destruct (py_float_numeral a [] Hne Ha eq_refl) as [-> _]. by eexists.
  - destruct (py_float_numeral a f Hne Ha Hf) as [_ H]. rewrite (H Hfne). by eexists.
Qed.

(** ** The table path does not fail on the cells *)

Lemma mapM_result_total {A B : Type} (f : A -> result B) (l : list A) :
  (forall x, exists y, f x = Ok y) -> exists ys, mapM f l = Ok ys.
Proof.
  intros Hf. induction l as [|x l [ys IH]]; cbn [mapM]; [by eexists|].
  destruct (Hf x) as [y Hy]. unfold mbind, result_bind at 1. rewrite Hy.
  unfold mbind, result_bind at 1. rewrite IH. by eexists.
Qed.

(** The numeral in front of a percent sign is one [float] reads. *)
Lemma percent_capture_floats s m :
  re_search re_percent s = Some m -> exists f, group s m 1 ≫= py_float = Some f.
Proof.
  intros Hm. apply percent_group_decimal in Hm as (t & -> & Hdec).
  cbn [mbind option_bind]. destruct (py_float_decimal t Hdec) as [f ->]. by exists f.
Qed.

(** [extract_percent] never raises: the numeral captured before a percent
    sign is always one that [float] reads; and it gives null only for a
    missing cell, or for a text that has no percent figure and is no
    number as a whole. *)
Theorem extract_percent_never_raises (value : cell) :
  exists o,
    extract_percent value = Ok o
    /\ (o = None ->
        isna value = true
        \/ (re_search re_percent (py_str value) = None
            /\ py_float (py_str value) = None)).
Proof.
  unfold extract_percent. destruct (isna value); [exists None; auto|].
  destruct (re_search re_percent (py_str value)) as [m|] eqn:Hm.
  - destruct (percent_capture_floats _ _ Hm) as [f ->].
    exists (Some f). split; [reflexivity|discriminate].
  - destruct (py_float (py_str value)) as [f|].
    + exists (Some f). split; [reflexivity|discriminate].
    + exists None. auto.
Qed.

Lemma extract_percent_total value : exists o, extract_percent value = Ok o.
Proof.
  unfold extract_percent. destruct (isna value); [by eexists|].
  destruct (re_search re_percent (py_str value)) as [m|] eqn:Hm.
  - destruct (percent_capture_floats _ _ Hm) as [f ->]. by eexists.
  - destruct (py_float (py_str value)); by eexists.
Qed.

Lemma mapped_column_in_range df keys j :
  role_column keys (columns df) = Some j -> exists cells, iloc_col df j = Ok cells.
Proof.
  intros Hj. apply role_column_sound in Hj as [Hj _].
  unfold iloc_col. apply Nat.ltb_lt in Hj. rewrite Hj. by eexists.
Qed.

(** [process_ownership_table] raises on a table without columns (the
    holder column is then read at position 0), and on no other table:
    whatever texts, integers or missing values the cells hold, it returns
    rows (the interpreter's bound on the length of an integer text
    apart). *)
Theorem process_ownership_table_raises_only_without_columns (df : dataframe) :
  (columns df = [] -> process_ownership_table df = Raise IndexError)
  /\ (columns df <> [] -> exists out, process_ownership_table df = Ok out).
Proof.
  unfold process_ownership_table.
  set (ndf := normalize_columns df).
  assert (Hcols : length (columns ndf) = length (columns df)).
  { unfold ndf, normalize_columns. cbn [columns]. apply length_map. }
  destruct (detect_roles_columns ndf) as (-> & -> & ->).
  split.
  - intros Hempty. rewrite Hempty in Hcols. cbn [length] in Hcols.
    destruct (columns ndf) as [|c cs] eqn:Hc; [|discriminate].
    cbn [role_column]. unfold iloc_col. rewrite Hc. reflexivity.
  - intros Hne.
    assert (Hzero : exists cells, iloc_col ndf 0 = Ok cells).
    { unfold iloc_col. destruct (columns df); [done|].
      rewrite Hcols. cbn [length Nat.ltb Nat.leb]. by eexists. }
    assert (Hnames : exists names,
               match role_column name_keys (columns ndf) with
               | Some j => iloc_col ndf j
               | None => iloc_col ndf 0
               end = Ok names).
    { destruct (role_column name_keys (columns ndf)) as [j|] eqn:Hj; [|exact Hzero].
      by apply (mapped_column_in_range ndf name_keys). }
    destruct Hnames as [names ->]. unfold mbind at 1, result_bind at 1.
    assert (Hpc : exists pc,
               match role_column percent_keys (columns ndf) with
               | Some j => iloc_col ndf j ≫= mapM extract_percent
               | None => Ok (map (fun _ => None) (map py_str names))
               end = Ok pc).
    { destruct (role_column percent_keys (columns ndf)) as [j|] eqn:Hj; [|by eexists].
      destruct (mapped_column_in_range ndf percent_keys j Hj) as [cells ->].
      unfold mbind, result_bind. apply mapM_result_total.
      apply extract_percent_total. }
    destruct Hpc as [pc ->]. unfold mbind at 1, result_bind at 1.
    assert (Hsh : exists sh,
               match role_column shares_keys (columns ndf) with
               | Some j => iloc_col ndf j ≫= mapM to_int
               | None => Ok (map (fun _ => None) (map py_str names))
               end = Ok sh).
    { destruct (role_column shares_keys (columns ndf)) as [j|] eqn:Hj; [|by eexists].
      destruct (mapped_column_in_range ndf shares_keys j Hj) as [cells ->].
      unfold mbind, result_bind. apply mapM_result_total.
      intros x. rewrite to_int_value. by eexists. }
    destruct Hsh as [sh ->]. unfold mbind, result_bind. by eexists.
Qed.

(** ** The limit of the batch driver *)

Section DriverLimit.

Variable json : Type.
Variable read_html : str -> result (list dataframe).
Variables html_tables xml_tables : str -> result (list (result dataframe)).
Variable recent : json -> submissions.

(** The rows of the loop come in one block per company that gave rows; the
    companies of the blocks follow the listing, and there are no more of
    them than the limit leaves room for. *)
Lemma company_loop_blocks tick2cik limit spx : forall processed w rows w',
  company_loop json read_html html_tables xml_tables recent
               tick2cik limit spx processed w = (Ok rows, w') ->
  exists blocks : list (company * list ownership_row),
    rows = concat (map snd blocks)
    /\ (Z.of_nat (length blocks) <= Z.max 0 (limit - processed))%Z
    /\ map fst blocks `sublist_of` spx
    /\ Forall (fun cb => snd cb <> []
                 /\ exists cik, lookup_cik tick2cik (upper (c_ticker (fst cb))) = Some cik
                                /\ Forall (tagged_for (fst cb) cik) (snd cb)) blocks.
Proof.
  induction spx as [|c spx IH]; intros processed w rows w'; cbn [company_loop].
  - intros [= <- <-]. exists []. repeat split; [cbn; lia|constructor|constructor].
  - assert (Hskip : forall p w0,
              company_loop json read_html html_tables xml_tables recent
                           tick2cik limit spx p w0 = (Ok rows, w') ->
              p = processed ->
              exists blocks : list (company * list ownership_row),
                rows = concat (map snd blocks)
                /\ (Z.of_nat (length blocks) <= Z.max 0 (limit - processed))%Z
                /\ map fst blocks `sublist_of` (c :: spx)
                /\ Forall (fun cb => snd cb <> []
                     /\ exists cik, lookup_cik tick2cik (upper (c_ticker (fst cb))) = Some cik
                                    /\ Forall (tagged_for (fst cb) cik) (snd cb)) blocks).
    { intros p w0 H ->. apply IH in H as (blocks & Hrows & Hlen & Hsub & Hall).
      exists blocks. split; [exact Hrows|]. split; [exact Hlen|].
      split; [by apply sublist_cons|exact Hall]. }
    destruct (limit <=? processed)%Z eqn:Hlimit.
    { intros [= <- <-]. exists [].
      repeat split; [cbn; lia|apply sublist_nil_l|constructor]. }
    apply Z.leb_gt in Hlimit.
    destruct (lookup_cik tick2cik (upper (c_ticker c))) as [[|x cik]|] eqn:Hcik;
      [intros H; exact (Hskip _ _ H eq_refl) | | intros H; exact (Hskip _ _ H eq_refl)].
    unfold mbind at 1, io_bind, try_except.
    destruct (process_company _ _ _ _ _ _ _ w) as [[[rs|]|e] w1] eqn:Hrun;
      [|intros H; exact (Hskip _ _ H eq_refl)..].
    unfold mbind, io_bind.
    destruct (company_loop _ _ _ _ _ _ _ _ _ w1) as [[rest|e] w2] eqn:Hrest;
      [|discriminate].
    intros [= <- <-].
    apply IH in Hrest as (blocks & -> & Hlen & Hsub & Hall).
    apply process_company_rows in Hrun as [Hne Hrs].
    exists ((c, rs) :: blocks). split; [reflexivity|]. split; [cbn [length]; lia|].
    split; [cbn [map fst]; by apply sublist_skip|].
    constructor; [|exact Hall]. cbn [fst snd]. split; [exact Hne|].
    exists (x :: cik). by split.
Qed.

End DriverLimit.

Lemma validate_percent_tags r : fst (validate_percent r) = fst r.
Proof. by destruct r. Qed.

(** The dataset of [fetch_ownership_for_sp500] is made of one block of rows
    per company that gave rows: the blocks are not empty, their companies
    follow the order of the listing, the rows of a block carry the
    provenance of its company, and there are at most [limit] blocks. *)
Theorem fetch_ownership_limit
    (json : Type) (read_html : str -> result (list dataframe))
    (html_tables xml_tables : str -> result (list (result dataframe)))
    (recent : json -> submissions)
    (spx : list company) (tick2cik : list (str * str)) (limit : Z) (w : world json) :
  exists rows w' (blocks : list (company * list ownership_row)),
    fetch_ownership_for_sp500 json read_html html_tables xml_tables recent
                              spx tick2cik limit w = (Ok rows, w')
    /\ rows = concat (map snd blocks)
    /\ (Z.of_nat (length blocks) <= Z.max 0 limit)%Z
    /\ map fst blocks `sublist_of` spx
    /\ Forall (fun cb => snd cb <> []
                 /\ exists cik, lookup_cik tick2cik (upper (c_ticker (fst cb))) = Some cik
                                /\ Forall (tagged_for (fst cb) cik) (snd cb)) blocks.
Proof.
  unfold fetch_ownership_for_sp500, mbind, io_bind.
  destruct (company_loop_returns json read_html html_tables xml_tables recent
              tick2cik limit spx 0 w) as (combined & w' & Hrun).
  rewrite Hrun.
  apply company_loop_blocks in Hrun as (blocks & -> & Hlen & Hsub & Hall).
  exists (map validate_percent (concat (map snd blocks))), w',
         (map (fun cb => (fst cb, map validate_percent (snd cb))) blocks).
  split; [reflexivity|]. split.
  { clear. induction blocks as [|[c b] blocks IH]; cbn [map concat fst snd]; [reflexivity|].
    by rewrite map_app, IH. }
  split; [rewrite length_map; lia|]. split.
  { replace (map fst (map (fun cb => (fst cb, map validate_percent (snd cb))) blocks))
      with (map fst blocks); [exact Hsub|].
    clear. induction blocks as [|[c b] blocks IH]; cbn [map fst]; [reflexivity|].
    by rewrite IH. }
  clear -Hall. induction Hall as [|[c b] blocks (Hne & cik & Hcik & Htag) _ IH];
    cbn [map]; constructor; [|exact IH].
  cbn [fst snd] in *. split.
  { destruct b; [done|discriminate]. }
  exists cik. split; [exact Hcik|].
  apply List.Forall_forall. intros r Hr.
  apply in_map_iff in Hr as (r0 & <- & Hr0).
  destruct (proj1 (List.Forall_forall _ _) Htag r0 Hr0) as (n & d & acc & doc & Hn & Hdoc & Hfst).
  exists n, d, acc, doc. split; [exact Hn|]. split; [exact Hdoc|].
  by rewrite validate_percent_tags.
Qed.

(** ** The filer numbers *)

Lemma cik_dict_snoc recs r :
  cik_dict (recs ++ [r])
  = <[ticker_key (rec_ticker r) := zfill 10 (rec_cik r)]> (cik_dict recs).
Proof. unfold cik_dict. by rewrite foldl_app. Qed.

(** A ticker of the map built by [get_ticker_cik_map] stands for the last
    record that bears it, tickers being compared in upper case and
    stripped; its value is the filer number of that record, padded. *)
Theorem cik_dict_last_record_wins (recs : list ticker_record) (key : str) :
  cik_dict recs !! key = (fun r => zfill 10 (rec_cik r)) <$> last_record key recs.
Proof.
  unfold last_record. induction recs as [|r recs IH] using rev_ind.
  - unfold cik_dict. cbn [foldl]. by rewrite lookup_empty.
  - rewrite cik_dict_snoc, filter_app.
    destruct (decide (ticker_key (rec_ticker r) = key)) as [Hkey|Hkey].
    + rewrite filter_cons_True, filter_nil by exact Hkey.
      rewrite last_snoc. rewrite <- Hkey. by rewrite lookup_insert_eq.
    + rewrite filter_cons_False, filter_nil, app_nil_r by exact Hkey.
      by rewrite lookup_insert_ne.
Qed.

(** *** The padding of a filer number is undone by [int] *)











Lemma strip_spaceless s :
  forallb (fun c => negb (isspace c)) s = true -> strip s = s.
Proof.
  assert (Hl : forall u, forallb (fun c => negb (isspace c)) u = true -> lstrip u = u).
  { intros [|c u]; [reflexivity|]. cbn [forallb lstrip]. intros Hu.
    apply andb_true_iff in Hu as [Hc _]. apply negb_true_iff in Hc. by rewrite Hc. }
  intros Hs. unfold strip, rstrip. rewrite (Hl s Hs), Hl; [apply rev_involutive|].
  apply forallb_forall. intros c Hc. apply in_rev in Hc.
  by apply (proj1 (forallb_forall _ _) Hs).
Qed.







(** ** The requests of [get_ticker_cik_map] *)

Lemma ticker_document_bound (json : Type) url
    (records : json -> result (list ticker_record)) (w : world json) :
  exists r w',
    ticker_document json url records w = (r, w')
    /\ server w' = server w
    /\ sent w <= sent w' <= sent w + 3
    /\ (forall out, r = Ok out ->
          exists resp data recs,
            sent w < sent w'
            /\ server w (sent w' - 1) = Returned resp
            /\ json_of resp = Some data
            /\ records data = Ok recs
            /\ out = cik_dict recs).
Proof.
  unfold ticker_document, get_json, get_response, mbind, io_bind, lift.
  change (Z.to_nat (2 + 1)) with 3.
  destruct (get_response_loop_bound json url 2 (float_of_Z 1) 3 0 w)
    as (r & w1 & Hrun & Hserver & Hsent & Hresp).
  rewrite Hrun. destruct r as [resp|e].
  - destruct (Hresp resp eq_refl) as [Hlt Hlast].
    destruct (json_of resp) as [data|] eqn:Hdata.
    + cbn [mret io_ret]. destruct (records data) as [recs|e] eqn:Hrecs.
      * eexists _, _. split; [reflexivity|]. split; [exact Hserver|]. split; [exact Hsent|].
        intros out [= <-]. by exists resp, data, recs.
      * eexists _, _. split; [reflexivity|]. split; [exact Hserver|]. split; [exact Hsent|].
        intros out Hout. discriminate.
    + eexists _, _. split; [reflexivity|]. split; [exact Hserver|]. split; [exact Hsent|].
      intros out Hout. discriminate.
  - eexists _, _. split; [reflexivity|]. split; [exact Hserver|]. split; [exact Hsent|].
    intros out Hout. discriminate.
Qed.

(** [get_ticker_cik_map] never raises and sends at most six requests, three
    for each of the two documents; a map that is not empty was built from
    the records of a document the server returned during the call. *)
Theorem get_ticker_cik_map_requests (json : Type)
    (primary_records fallback_records : json -> result (list ticker_record))
    (w : world json) :
  exists out w',
    get_ticker_cik_map json primary_records fallback_records w = (Ok out, w')
    /\ server w' = server w
    /\ sent w <= sent w' <= sent w + 6
    /\ (out <> ∅ ->
        exists i resp data recs,
          sent w <= i < sent w'
          /\ server w i = Returned resp
          /\ json_of resp = Some data
          /\ (primary_records data = Ok recs \/ fallback_records data = Ok recs)
          /\ out = cik_dict recs).
Proof.
  assert (Hfallback : forall w1 : world json,
            server w1 = server w -> sent w <= sent w1 <= sent w + 3 ->
            exists out w',
              try_except
                (ticker_document json
                   (SEC_FILES_BASE ++ of_string "/files/company_tickers_exchange.json")
                   fallback_records)
                (mret ∅) w1 = (Ok out, w')
              /\ server w' = server w
              /\ sent w <= sent w' <= sent w + 6
              /\ (out <> ∅ ->
                  exists i resp data recs,
                    sent w <= i < sent w'
                    /\ server w i = Returned resp
                    /\ json_of resp = Some data
                    /\ (primary_records data = Ok recs \/ fallback_records data = Ok recs)
                    /\ out = cik_dict recs)).
  { intros w1 Hs1 Hn1. unfold try_except.
    destruct (ticker_document_bound json
                (SEC_FILES_BASE ++ of_string "/files/company_tickers_exchange.json")
                fallback_records w1) as (r & w2 & -> & Hs2 & Hn2 & Hout).
    destruct r as [out|e].
    - eexists _, _. split; [reflexivity|]. split; [congruence|]. split; [lia|].
      intros _. destruct (Hout out eq_refl) as (resp & data & recs & Hlt & Hlast & Hd & Hr & ->).
      exists (sent w2 - 1), resp, data, recs. split; [lia|]. rewrite <- Hs1.
      split; [exact Hlast|]. split; [exact Hd|]. split; [by right|reflexivity].
    - eexists _, _. split; [reflexivity|]. split; [congruence|]. split; [lia|]. done. }
  unfold get_ticker_cik_map. cbv zeta. unfold mbind at 1, io_bind at 1, try_except at 1.
  unfold mbind at 1, io_bind at 1.
  destruct (ticker_document_bound json
              (SEC_FILES_BASE ++ of_string "/files/company_tickers.json")
              primary_records w) as (r & w1 & -> & Hs1 & Hn1 & Hout).
  destruct r as [out|e].
  - cbn [mret io_ret]. destruct (decide (out = ∅)) as [Hempty|Hfull].
    + by apply Hfallback.
    + eexists _, _. split; [reflexivity|]. split; [exact Hs1|]. split; [lia|].
      intros _. destruct (Hout out eq_refl) as (resp & data & recs & Hlt & Hlast & Hd & Hr & ->).
      exists (sent w1 - 1), resp, data, recs. split; [lia|].
      split; [exact Hlast|]. split; [exact Hd|]. split; [by left|reflexivity].
  - cbn [mret io_ret]. by apply Hfallback.
Qed.

(** ** The matcher finds matches of the pattern only *)

Lemma rep_loop_sound {R : Type} r' lo hi greedy (k : cursor -> groups -> option R) res
    (Hbody : forall c g (k' : cursor -> groups -> option R) res',
        run r' c g k' = Some res' ->
        exists c' g', matches r' c g c' g' /\ k' c' g' = Some res') :
  forall fuel n c g,
    rep_loop (run r') lo hi greedy k fuel n c g = Some res ->
    exists j c' g',
      iter (matches r') j c g c' g' /\ lo <= n + j
      /\ (j = 0 \/ within (n + j) hi)
      /\ k c' g' = Some res.
Proof.
  assert (Hstop : forall n c g,
            (if Nat.leb lo n then k c g else None) = Some res ->
            exists j c' g',
              iter (matches r') j c g c' g' /\ lo <= n + j
              /\ (j = 0 \/ within (n + j) hi)
              /\ k c' g' = Some res).
  { intros n c g H. destruct (Nat.leb lo n) eqn:Hlo; [|discriminate].
    apply Nat.leb_le in Hlo. exists 0, c, g. cbn [iter].
    split; [by split|]. split; [lia|]. split; [by left|exact H]. }
  induction fuel as [|fuel IH]; intros n c g.
  - rewrite rep_loop_0. apply Hstop.
  - rewrite rep_loop_S. cbv zeta.
    assert (Hmore : (if below n hi
                     then run r' c g (fun c' g' =>
                            if Nat.eqb (c_pos c') (c_pos c) then None
                            else rep_loop (run r') lo hi greedy k fuel (S n) c' g')
                     else None) = Some res ->
                    exists j c' g',
                      iter (matches r') j c g c' g' /\ lo <= n + j
                      /\ (j = 0 \/ within (n + j) hi)
                      /\ k c' g' = Some res).
    { destruct (below n hi) eqn:Hbelow; [|discriminate]. intros H.
      apply Hbody in H as (c1 & g1 & Hstep & H).
      destruct (Nat.eqb (c_pos c1) (c_pos c)); [discriminate|].
      apply IH in H as (j & c' & g' & Hiter & Hlo & Hhi & Hk).
      exists (S j), c', g'. cbn [iter]. split; [by exists c1, g1|].
      split; [lia|]. split; [|exact Hk]. right.
      destruct hi as [h|]; [|exact I]. cbn [below within] in *.
      apply Nat.ltb_lt in Hbelow. destruct Hhi as [-> | Hhi]; lia. }
    destruct greedy.
    + destruct (if below n hi then _ else None) as [res'|] eqn:Hm.
      * intros [= ->]. by apply Hmore.
      * apply Hstop.
    + destruct (if Nat.leb lo n then k c g else None) as [res'|] eqn:Hs.
      * intros [= ->]. by apply Hstop.
      * exact Hmore.
Qed.

(** What the matcher hands to its continuation is a match of the
    pattern. *)
Lemma run_sound r : forall {R : Type} c g (k : cursor -> groups -> option R) res,
  run r c g k = Some res ->
  exists c' g', matches r c g c' g' /\ k c' g' = Some res.
Proof.
  induction r as [|p|r1 IH1 r2 IH2|r1 IH1 r2 IH2|r' IH lo hi greedy|n r' IH|];
    intros R c g k res; cbn [run matches].
  - intros H. by exists c, g.
  - destruct (c_rest c) as [|x rest] eqn:Hrest; [discriminate|].
    destruct (p x) eqn:Hp; [|discriminate].
    intros H. eexists _, _. split; [|exact H]. by exists x, rest.
  - intros H. apply IH1 in H as (c1 & g1 & H1 & H).
    apply IH2 in H as (c2 & g2 & H2 & H).
    exists c2, g2. split; [by exists c1, g1|exact H].
  - destruct (run r1 c g k) as [res'|] eqn:H1.
    + intros [= ->]. apply IH1 in H1 as (c' & g' & Hm & H).
      exists c', g'. split; [by left|exact H].
    + intros H. apply IH2 in H as (c' & g' & Hm & H).
      exists c', g'. split; [by right|exact H].
  - intros H. apply (rep_loop_sound r' lo hi greedy k res (fun c0 g0 => IH R c0 g0)) in H
      as (j & c' & g' & Hiter & Hlo & Hhi & Hk).
    exists c', g'. split; [|exact Hk]. exists j. split; [lia|]. split; [|exact Hiter].
    destruct Hhi as [-> | Hhi]; [|exact Hhi]. destruct hi; cbn; [lia|exact I].
  - intros H. apply IH in H as (c' & g1 & Hm & H).
    eexists _, _. split; [|exact H]. by exists g1.
  - destruct (xorb _ _) eqn:Hx; [|discriminate]. intros H. by exists c, g.
Qed.

Lemma match_at_sound r c m :
  match_at r c = Some m ->
  exists c', matches r c [] c' (m_groups m)
             /\ m_start m = c_pos c /\ m_end m = c_pos c'.
Proof.
  unfold match_at. intros H. apply run_sound in H as (c' & g' & Hm & [= <-]).
  by exists c'.
Qed.

(** A match consumes a text of the pattern, in front of the cursor. *)
Lemma iter_lang r' (Hr : forall c g c' g', matches r' c g c' g' ->
                           exists w, c_rest c = w ++ c_rest c'
                                     /\ c_pos c' = c_pos c + length w /\ lang r' w) :
  forall n c g c' g',
    iter (matches r') n c g c' g' ->
    exists ws, length ws = n /\ Forall (lang r') ws
               /\ c_rest c = concat ws ++ c_rest c'
               /\ c_pos c' = c_pos c + length (concat ws).
Proof.
  induction n as [|n IH]; intros c g c' g'; cbn [iter].
  - intros [-> ->]. exists []. cbn. by rewrite Nat.add_0_r.
  - intros (c1 & g1 & Hstep & Hiter).
    apply Hr in Hstep as (w & Hw & Hpos & Hlang).
    apply IH in Hiter as (ws & Hlen & Hall & Hrest & Hpos').
    exists (w :: ws). split; [cbn; lia|]. split; [by constructor|].
    cbn [concat]. rewrite <- app_assoc, <- Hrest. split; [exact Hw|].
    rewrite length_app. lia.
Qed.

Lemma matches_lang r : forall c g c' g',
  matches r c g c' g' ->
  exists w, c_rest c = w ++ c_rest c' /\ c_pos c' = c_pos c + length w /\ lang r w.
Proof.
  induction r as [|p|r1 IH1 r2 IH2|r1 IH1 r2 IH2|r' IH lo hi greedy|n r' IH|];
    intros c g c' g'; cbn [matches lang].
  - intros [-> _]. exists []. cbn. by rewrite Nat.add_0_r.
  - intros (x & rest & Hrest & Hp & -> & _). exists [x]. cbn [c_rest c_pos length app].
    split; [exact Hrest|]. split; [lia|]. by exists x.
  - intros (c1 & g1 & H1 & H2).
    apply IH1 in H1 as (w1 & Hw1 & Hp1 & Hl1). apply IH2 in H2 as (w2 & Hw2 & Hp2 & Hl2).
    exists (w1 ++ w2). rewrite <- app_assoc, <- Hw2. split; [exact Hw1|].
    rewrite length_app. split; [lia|]. by exists w1, w2.
  - intros [H|H]; [apply IH1 in H|apply IH2 in H]; destruct H as (w & Hw & Hp & Hl);
      exists w; auto.
  - intros (n & Hlo & Hhi & Hiter).
    apply (iter_lang r' IH) in Hiter as (ws & <- & Hall & Hrest & Hpos).
    exists (concat ws). split; [exact Hrest|]. split; [exact Hpos|]. by exists ws.
  - intros (g1 & H & _). by apply IH in H.
  - intros (_ & -> & _). exists []. cbn. by rewrite Nat.add_0_r.
Qed.

Lemma on_subject_after s c c' w :
  on_subject s c -> c_rest c = w ++ c_rest c' -> c_pos c' = c_pos c + length w ->
  on_subject s c' /\ slice s (c_pos c) (c_pos c') = w.
Proof.
  intros [Hle Hrest] Hw Hpos.
  assert (Hlen : length (c_rest c) = length s - c_pos c) by (by rewrite Hrest, length_drop).
  assert (Hlen' : length (c_rest c) = length w + length (c_rest c'))
    by (by rewrite Hw, length_app).
  split; [split; [lia|]|].
  - rewrite Hpos, <- drop_drop, <- Hrest, Hw.
    by rewrite drop_app_length.
  - unfold slice. rewrite <- Hrest, Hw, Hpos.
    replace (c_pos c + length w - c_pos c) with (length w) by lia.
    by rewrite take_app_length.
Qed.

Lemma search_from_on_subject s r m : forall rest prev pos,
  pos <= length s -> rest = drop pos s ->
  search_from r prev pos rest = Some m ->
  exists c, on_subject s c /\ pos <= c_pos c /\ match_at r c = Some m.
Proof.
  intros rest prev pos Hpos -> H.
  apply search_from_sound in H as (k & prev' & Hk & H).
  rewrite length_drop in Hk.
  exists (Cursor prev' (pos + k) (drop k (drop pos s))). split.
  - split; cbn [c_pos c_rest]; [lia|]. by rewrite drop_drop.
  - split; [cbn; lia|exact H].
Qed.

Lemma match_at_end s r c m :
  on_subject s c -> match_at r c = Some m -> c_pos c <= m_end m <= length s.
Proof.
  intros Hc H. apply match_at_sound in H as (c' & Hm & _ & ->).
  apply matches_lang in Hm as (w & Hw & Hp & _).
  destruct (on_subject_after s c c' w Hc Hw Hp) as [[Hle _] _]. lia.
Qed.

(** Every tuple of [findall] is a match at a position of the subject. *)
Lemma findall_on_subject s r : forall fuel rest prev pos m,
  pos <= length s -> rest = drop pos s ->
  In m (findall_from fuel r prev pos rest) ->
  exists c, on_subject s c /\ match_at r c = Some m.
Proof.
  induction fuel as [|fuel IH]; intros rest prev pos m Hpos Hrest; cbn [findall_from];
    [intros []|].
  destruct (search_from r prev pos rest) as [m0|] eqn:Hsearch; [|intros []].
  destruct (search_from_on_subject s r m0 rest prev pos Hpos Hrest Hsearch)
    as (c & Hc & Hle & Hm0).
  pose proof (match_at_end s r c m0 Hc Hm0) as Hend.
  destruct (Nat.eqb (m_end m0) (m_start m0)).
  - intros [<-|[]]. by exists c.
  - intros [<-|Hin]; [by exists c|].
    apply IH in Hin; [exact Hin|lia|].
    rewrite Hrest, drop_drop. f_equal. lia.
Qed.

(** ** The text fallback does not fail on what its pattern captures *)

Lemma matches_Seq_inv r1 r2 c g c' g' :
  matches (Seq r1 r2) c g c' g' ->
  exists c1 g1, matches r1 c g c1 g1 /\ matches r2 c1 g1 c' g'.
Proof. exact id. Qed.

Lemma matches_Grp_inv n r c g c' g' :
  matches (Grp n r) c g c' g' ->
  exists g1, matches r c g c' g1 /\ g' = (n, (c_pos c, c_pos c')) :: g1.
Proof. exact id. Qed.

Lemma matches_opt_inv r c g c' g' :
  matches (opt r) c g c' g' -> (c' = c /\ g' = g) \/ matches r c g c' g'.
Proof.
  unfold opt. cbn [matches within]. intros (n & _ & Hn & Hiter).
  destruct n as [|[|n]]; [| |lia]; cbn [iter] in Hiter.
  - left. exact Hiter.
  - right. destruct Hiter as (c1 & g1 & Hm & -> & ->). exact Hm.
Qed.

Lemma matches_group_free r : group_free r = true ->
  forall c g c' g', matches r c g c' g' -> g' = g.
Proof.
  induction r as [|p|r1 IH1 r2 IH2|r1 IH1 r2 IH2|r' IH lo hi greedy|n r' IH|];
    cbn [group_free matches]; intros Hfree c g c' g'.
  - by intros [_ ->].
  - by intros (x & rest & _ & _ & _ & ->).
  - apply andb_true_iff in Hfree as [H1 H2]. intros (c1 & g1 & Hm1 & Hm2).
    apply (IH1 H1) in Hm1 as ->. by apply (IH2 H2) in Hm2.
  - apply andb_true_iff in Hfree as [H1 H2]. intros [Hm|Hm]; [by apply (IH1 H1) in Hm|
      by apply (IH2 H2) in Hm].
  - intros (n & _ & _ & Hiter). revert c g Hiter.
    induction n as [|n IHn]; intros c g; cbn [iter].
    + by intros [_ ->].
    + intros (c1 & g1 & Hm & Hiter). apply (IH Hfree) in Hm as ->. by apply IHn in Hiter.
  - discriminate.
  - by intros (_ & _ & ->).
Qed.

(** The texts of a repeated character class and of a literal *)
Lemma lang_rep_chr p lo hi greedy w :
  lang (Rep (Chr p) lo hi greedy) w ->
  forallb p w = true /\ lo <= length w /\ within (length w) hi.
Proof.
  cbn [lang]. intros (ws & -> & Hlo & Hhi & Hall).
  assert (H : forallb p (concat ws) = true /\ length (concat ws) = length ws).
  { clear Hlo Hhi. induction Hall as [|w ws (x & -> & Hx) _ [IH1 IH2]]; [by split|].
    cbn [concat app forallb length]. rewrite Hx, IH1, IH2. by split. }
  destruct H as [H1 H2]. rewrite H2. by split.
Qed.

Lemma lang_lit w0 w : lang (lit w0) w -> w = w0.
Proof.
  revert w. induction w0 as [|a w0 IH]; intros w; cbn [lit lang]; [done|].
  intros (w1 & w2 & -> & (x & -> & Hx) & H2).
  apply Ascii.eqb_eq in Hx as <-. by rewrite (IH w2 H2).
Qed.

Lemma lang_Seq_inv r1 r2 w :
  lang (Seq r1 r2) w -> exists w1 w2, w = w1 ++ w2 /\ lang r1 w1 /\ lang r2 w2.
Proof. exact id. Qed.

(** The percent group of the row pattern: a numeral and the sign *)
Lemma lang_percent_group w :
  lang (Alt (seqs [plus digit; chr "."; plus digit; chr "%"])
            (seqs [plus digit; chr "%"])) w ->
  exists d, decimal_text d /\ w = d ++ ["%"%char].
Proof.
  cbn [seqs]. intros [H|H].
  - apply lang_Seq_inv in H as (a & w1 & -> & Ha & H).
    apply lang_Seq_inv in H as (b & w2 & -> & Hb & H).
    apply lang_Seq_inv in H as (f & e & -> & Hf & He).
    apply lang_rep_chr in Ha as (Ha & Hla & _). apply lang_rep_chr in Hf as (Hf & Hlf & _).
    apply lang_lit in Hb as ->. apply lang_lit in He as ->.
    exists (a ++ "."%char :: f). split.
    + exists a, ("."%char :: f). split; [reflexivity|].
      split; [intros ->; cbn in Hla; lia|].
      split; [exact Ha|]. right. exists f. split; [reflexivity|].
      split; [intros ->; cbn in Hlf; lia|exact Hf].
    + by rewrite <- app_assoc.
  - apply lang_Seq_inv in H as (a & e & -> & Ha & He).
    apply lang_rep_chr in Ha as (Ha & Hla & _). apply lang_lit in He as ->.
    exists a. split; [|reflexivity].
    exists a, []. rewrite app_nil_r. split; [reflexivity|].
    split; [intros ->; cbn in Hla; lia|].
    split; [exact Ha|by left].
Qed.

Lemma digits_count s : forallb isdigit s = true -> forallb count_char s = true.
Proof.
  intros Hs. apply forallb_forall. intros c Hc. unfold count_char.
  by rewrite (proj1 (forallb_forall _ _) Hs c Hc).
Qed.

(** The share group of the row pattern: a digit, digits and commas, and
    white space *)
Lemma lang_shares_group w :
  lang (seqs [times 1 3 digit; star (Seq (chr ",") (times 3 3 digit)); plus space]) w ->
  exists c x sp,
    w = (c :: x) ++ sp /\ isdigit c = true /\ forallb count_char x = true
    /\ forallb isspace sp = true.
Proof.
  cbn [seqs]. intros H.
  apply lang_Seq_inv in H as (d1 & w1 & -> & Hd1 & H).
  apply lang_Seq_inv in H as (mid & sp & -> & Hmid & Hsp).
  apply lang_rep_chr in Hd1 as (Hd1 & Hl1 & _). apply lang_rep_chr in Hsp as (Hsp & _ & _).
  assert (Hm : forallb count_char mid = true).
  { unfold star in Hmid. cbn [lang] in Hmid. destruct Hmid as (ws & -> & _ & _ & Hall).
    induction Hall as [|b ws Hb _ IH]; [reflexivity|].
    cbn [concat]. rewrite forallb_app, IH, andb_true_r.
    destruct Hb as (b1 & b2 & -> & Hb1 & Hb2).
    apply lang_lit in Hb1 as ->. apply lang_rep_chr in Hb2 as (Hb2 & _).
    change (of_string ",") with [","%char]. cbn [app forallb].
    by rewrite (digits_count b2 Hb2). }
  destruct d1 as [|c d1]; [cbn in Hl1; lia|].
  apply andb_true_iff in Hd1 as [Hc Hd1].
  exists c, (d1 ++ mid), sp. rewrite app_assoc. split; [reflexivity|].
  split; [exact Hc|]. split; [|exact Hsp].
  by rewrite forallb_app, (digits_count d1 Hd1), Hm.
Qed.

(** The groups of a match of the row pattern *)
Lemma row_pattern_groups s c m :
  on_subject s c -> match_at row_pattern c = Some m ->
  (exists d, decimal_text d /\ group s m 3 = Some (d ++ ["%"%char]))
  /\ (group s m 2 = None
      \/ exists c x sp,
           group s m 2 = Some ((c :: x) ++ sp) /\ isdigit c = true
           /\ forallb count_char x = true /\ forallb isspace sp = true).
Proof.
  intros Hc Hm. apply match_at_sound in Hm as (c' & Hm & _ & _).
  unfold row_pattern in Hm. cbn [seqs] in Hm.
  apply matches_Seq_inv in Hm as (c1 & g1 & H1 & Hm).
  apply matches_Seq_inv in Hm as (c2 & g2 & H2 & Hm).
  apply matches_Seq_inv in Hm as (c3 & g3 & H3 & Hm).
  apply matches_Grp_inv in Hm as (g4 & H4 & Hg').
  (* the holder group *)
  pose proof (matches_lang _ _ _ _ _ H1) as (w1 & Hw1 & Hp1 & _).
  destruct (on_subject_after s c c1 w1 Hc Hw1 Hp1) as [Hc1 _].
  apply matches_Grp_inv in H1 as (g0 & H1 & Hg1).
  apply matches_group_free in H1; [|reflexivity]. subst g0.
  (* the white space *)
  pose proof (matches_lang _ _ _ _ _ H2) as (w2 & Hw2 & Hp2 & _).
  destruct (on_subject_after s c1 c2 w2 Hc1 Hw2 Hp2) as [Hc2 _].
  apply matches_group_free in H2; [|reflexivity]. subst g2.
  (* the percent group *)
  pose proof (matches_lang _ _ _ _ _ H4) as (w4 & Hw4 & Hp4 & Hl4).
  apply matches_group_free in H4; [|reflexivity]. subst g4.
  apply lang_percent_group in Hl4 as (d & Hd & ->).
  (* the share group *)
  apply matches_opt_inv in H3 as [[-> ->]|H3].
  - destruct (on_subject_after s c2 c' _ Hc2 Hw4 Hp4) as [_ Hslice].
    split.
    + exists d. split; [exact Hd|]. unfold group. rewrite Hg'.
      cbn [group_span Nat.eqb]. by rewrite Hslice.
    + left. unfold group. rewrite Hg', Hg1. reflexivity.
  - pose proof (matches_lang _ _ _ _ _ H3) as (w3 & Hw3 & Hp3 & Hl3).
    destruct (on_subject_after s c2 c3 w3 Hc2 Hw3 Hp3) as [Hc3 Hslice3].
    destruct (on_subject_after s c3 c' _ Hc3 Hw4 Hp4) as [_ Hslice].
    apply matches_Grp_inv in H3 as (g5 & _ & ->).
    split.
    + exists d. split; [exact Hd|]. unfold group. rewrite Hg'.
      cbn [group_span Nat.eqb]. by rewrite Hslice.
    + right. cbn [lang] in Hl3. apply lang_shares_group in Hl3 as (x0 & x & sp & -> & Hx0 & Hx & Hsp).
      exists x0, x, sp. split; [|by split].
      unfold group. rewrite Hg'. cbn [group_span Nat.eqb]. by rewrite Hslice3.
Qed.

Lemma remove_char_app n a b : remove_char n (a ++ b) = remove_char n a ++ remove_char n b.
Proof. unfold remove_char. apply filter_app. Qed.

Lemma remove_char_keeps n s :
  (forall c, In c s -> code c <> n) -> remove_char n s = s.
Proof.
  unfold remove_char, str. induction s as [|c s IH]; intros Hs; [reflexivity|].
  rewrite filter_cons_True by (apply Hs; by left).
  rewrite IH; [reflexivity|]. intros c' Hc'. apply Hs. by right.
Qed.

Lemma numeral_char_not_percent c : numeral_char c = true -> code c <> 37%N.
Proof.
  destruct c as [[] [] [] [] [] [] [] []]; vm_compute; intros H;
    try discriminate H; discriminate.
Qed.

Lemma space_not_comma c : isspace c = true -> code c <> 44%N.
Proof.
  destruct c as [[] [] [] [] [] [] [] []]; vm_compute; intros H;
    try discriminate H; discriminate.
Qed.

Lemma remove_commas_digits x :
  forallb count_char x = true -> forallb isdigit (remove_char 44 x) = true.
Proof.
  unfold remove_char, str. induction x as [|c x IH]; [reflexivity|].
  cbn [forallb]. intros Hx. apply andb_true_iff in Hx as [Hc Hx].
  destruct (decide (code c = 44%N)) as [Hcomma|Hcomma].
  - rewrite filter_cons_False by (intros Hn; by apply Hn). by apply IH.
  - rewrite filter_cons_True by exact Hcomma. cbn [forallb]. rewrite (IH Hx), andb_true_r.
    unfold count_char in Hc. apply orb_true_iff in Hc as [Hc|Hc]; [exact Hc|].
    apply N.eqb_eq in Hc. done.
Qed.

Lemma lstrip_spaces sp s : forallb isspace sp = true -> lstrip (sp ++ s) = lstrip s.
Proof.
  induction sp as [|c sp IH]; [reflexivity|]. cbn [forallb app lstrip].
  intros H. apply andb_true_iff in H as [-> H]. by apply IH.
Qed.

Lemma strip_digits_spaces ds sp :
  forallb isdigit ds = true -> forallb isspace sp = true -> strip (ds ++ sp) = ds.
Proof.
  intros Hds Hsp. destruct ds as [|c ds].
  - cbn [app]. unfold strip.
    assert (Hl : forall u, forallb isspace u = true -> lstrip u = []).
    { induction u as [|x u IH]; [reflexivity|]. cbn [forallb lstrip]. intros H.
      apply andb_true_iff in H as [-> H]. by apply IH. }
    by rewrite (Hl sp Hsp).
  - unfold strip. cbn [app]. rewrite lstrip_digits by (by apply andb_true_iff in Hds as [? _]).
    unfold rstrip. change (c :: ds ++ sp) with ((c :: ds) ++ sp).
    rewrite rev_app_distr, lstrip_spaces.
    2:{ apply forallb_forall. intros x Hx. apply in_rev in Hx.
        by apply (proj1 (forallb_forall _ _) Hsp). }
    assert (Hrev : forallb isdigit (rev (c :: ds)) = true).
    { apply forallb_forall. intros x Hx. apply in_rev in Hx.
      by apply (proj1 (forallb_forall _ _) Hds). }
    destruct (rev (c :: ds)) as [|y t] eqn:Hr.
    + apply (f_equal (@length _)) in Hr. rewrite length_rev in Hr. discriminate.
    + rewrite lstrip_digits by (by apply andb_true_iff in Hrev as [? _]).
      rewrite <- Hr. apply rev_involutive.
Qed.

(** The body of the loop does not fail on a match of the row pattern. *)
Lemma text_row_total s c m :
  on_subject s c -> match_at row_pattern c = Some m ->
  exists o, text_row s m = Ok o.
Proof.
  intros Hc Hm.
  destruct (row_pattern_groups s c m Hc Hm) as [(d & Hd & Hg3) Hg2].
  unfold text_row, group_or_empty. cbv zeta. rewrite Hg3. cbn [from_option id].
  assert (Hpct : strip (remove_char 37 (d ++ ["%"%char])) = d).
  { pose proof (decimal_text_chars d Hd) as Hchars.
    rewrite remove_char_app, remove_char_keeps.
    2:{ intros x Hx. apply numeral_char_not_percent.
        by apply (proj1 (forallb_forall _ _) Hchars). }
    change (remove_char 37 ["%"%char]) with (@nil ascii).
    rewrite app_nil_r. by apply strip_numeral. }
  rewrite Hpct. destruct (py_float_decimal d Hd) as [f Hf]. rewrite Hf.
  destruct (strip (default [] (group s m 1))) as [|h0 holder]; [by eexists|].
  destruct (contains _ _); [by eexists|].
  destruct Hg2 as [-> | (c0 & x & sp & -> & Hc0 & Hx & Hsp)]; cbn [from_option id].
  - unfold mbind, result_bind. by eexists.
  - cbn [app].
    assert (Hsh : strip (remove_char 44 (c0 :: x ++ sp)) = c0 :: remove_char 44 x).
    { change (c0 :: x ++ sp) with ((c0 :: x) ++ sp).
      rewrite remove_char_app, (remove_char_keeps 44 sp).
      2:{ intros y Hy. apply space_not_comma.
          by apply (proj1 (forallb_forall _ _) Hsp). }
      assert (Hhead : remove_char 44 (c0 :: x) = c0 :: remove_char 44 x).
      { unfold remove_char, str. rewrite filter_cons_True; [reflexivity|].
        revert Hc0. clear.
        destruct c0 as [[] [] [] [] [] [] [] []]; vm_compute; intros H1 H2;
          try discriminate H1; discriminate H2. }
      rewrite Hhead. apply strip_digits_spaces; [|exact Hsp].
      cbn [forallb]. by rewrite Hc0, (remove_commas_digits x Hx). }
    rewrite Hsh.
    rewrite py_int_digits by (cbn [forallb]; by rewrite Hc0, (remove_commas_digits x Hx)).
    unfold mbind, result_bind. by eexists.
Qed.

Lemma mapM_result_total_in {A B : Type} (f : A -> result B) (l : list A) :
  (forall x, In x l -> exists y, f x = Ok y) -> exists ys, mapM f l = Ok ys.
Proof.
  induction l as [|x l IH]; intros Hf; cbn [mapM]; [by eexists|].
  destruct (Hf x) as [y Hy]; [by left|]. unfold mbind, result_bind at 1. rewrite Hy.
  destruct IH as [ys IH]; [intros x' Hx'; apply Hf; by right|].
  unfold mbind, result_bind at 1. rewrite IH. by eexists.
Qed.

Lemma extract_from_text_total content : exists o, extract_from_text content = Ok o.
Proof.
  unfold extract_from_text.
  destruct (re_search section_pattern content) as [sm|]; [|by eexists].
  cbv zeta. set (section_text := group0 content sm).
  destruct (mapM_result_total_in (text_row section_text)
              (re_findall row_pattern section_text)) as [rows Hrows].
  { intros m Hm. unfold re_findall in Hm.
    apply (findall_on_subject section_text) in Hm as (c & Hc & Hmatch);
      [|lia|reflexivity].
    by apply (text_row_total section_text c). }
  rewrite Hrows. unfold mbind, result_bind.
  destruct (omap id rows); by eexists.
Qed.

Lemma text_row_fields s m r :
  text_row s m = Ok (Some r) ->
  holder_raw r <> [] /\ strip (holder_raw r) = holder_raw r
  /\ contains (of_string "total") (lower (holder_raw r)) = false
  /\ holder r = clean_name (holder_raw r)
  /\ is_Some (percent_class r).
Proof.
  unfold text_row. cbv zeta.
  destruct (strip (group_or_empty s m 1)) as [|h0 h1] eqn:Hholder; [discriminate|].
  destruct (contains _ _) eqn:Htotal; [discriminate|].
  unfold mbind, result_bind.
  match goal with |- match ?x with Ok _ => _ | Raise _ => _ end = _ -> _ =>
    destruct x as [sh|e]; [|discriminate] end.
  destruct (py_float _) as [p|]; [|discriminate].
  intros [= <-]. cbn [holder_raw holder percent_class].
  split; [discriminate|]. split; [rewrite <- Hholder; apply strip_idemp|].
  split; [exact Htotal|]. split; [reflexivity|by eexists].
Qed.

(** [extract_from_text] never raises: what the row pattern captures as a
    share count and as a percentage is always accepted by [int] and
    [float] (the interpreter's bound on the length of an integer text
    apart).  A table it returns has a row, and each of its rows has a
    stripped, non-empty holder text without the word total, the canonical
    holder name of that text, and a percentage. *)
Theorem extract_from_text_never_raises (content : str) :
  exists o,
    extract_from_text content = Ok o
    /\ (forall rows, o = Some rows ->
          rows <> []
          /\ Forall (fun r => holder_raw r <> [] /\ strip (holder_raw r) = holder_raw r
                              /\ contains (of_string "total") (lower (holder_raw r)) = false
                              /\ holder r = clean_name (holder_raw r)
                              /\ is_Some (percent_class r)) rows).
Proof.
  destruct (extract_from_text_total content) as [o Ho]. exists o. split; [exact Ho|].
  intros rows ->. split; [by apply (extract_from_text_nonempty content)|].
  unfold extract_from_text in Ho.
  destruct (re_search section_pattern content) as [sm|]; [|discriminate].
  cbv zeta in Ho.
  destruct (mapM _ _) as [found|e] eqn:Hfound; [|discriminate].
  apply mapM_result_Forall2 in Hfound.
  unfold mbind, result_bind in Ho.
  assert (rows = omap id found) as ->.
  { destruct (omap id found); congruence. }
  clear Ho. induction Hfound as [|m o ms os Hm _ IH]; cbn [omap]; [constructor|].
  destruct o as [r|]; cbn [id option_bind mbind]; [|exact IH].
  constructor; [eapply text_row_fields, Hm | exact IH].
Qed.

(** [parse_proxy_content] raises only when the section search of
    [find_ownership_table_in_html] does, on a content recognised as HTML:
    the direct parse, the XML search and the text fallback never let an
    exception out (the interpreter's bound on the length of an integer
    text apart). *)
Theorem parse_proxy_content_raises_only_in_html_search
    (read_html : str -> result (list dataframe))
    (html_tables xml_tables : str -> result (list (result dataframe)))
    (content : str) (e : exn)
    (Hraise : parse_proxy_content read_html html_tables xml_tables content = Raise e) :
  detect_content_type content = html /\ html_tables content = Raise e.
Proof.
  unfold parse_proxy_content in Hraise. cbv zeta in Hraise.
  destruct (match read_html content with
            | Ok tables => direct_tables tables
            | Raise _ => None
            end); [discriminate|].
  destruct (extract_from_text_total content) as [o Ho].
  destruct (detect_content_type content).
  - split; [reflexivity|]. unfold find_ownership_table_in_html, mbind, result_bind in Hraise.
    destruct (html_tables content) as [tables|e']; [|congruence].
    destruct (first_table tables); [discriminate|congruence].
  - unfold mbind, result_bind in Hraise.
    destruct (find_ownership_table_in_xml xml_tables content); [discriminate|congruence].
  - unfold mbind, result_bind in Hraise. congruence.
Qed.

Lemma parse_proxy_content_raises_only_in_html_search_witness :
  parse_proxy_content (fun _ => Raise ValueError) (fun _ => Raise RuntimeError)
                      (fun _ => Ok []) (of_string "<html><body>Ownership</body></html>")
  = Raise RuntimeError
  /\ detect_content_type (of_string "<html><body>Ownership</body></html>") = html.
Proof.
  assert (H : parse_proxy_content (fun _ => Raise ValueError) (fun _ => Raise RuntimeError)
                (fun _ => Ok []) (of_string "<html><body>Ownership</body></html>")
              = Raise RuntimeError) by (vm_compute; reflexivity).
  split; [exact H|].
  exact (proj1 (parse_proxy_content_raises_only_in_html_search _ _ _ _ _ H)).
Defined.

(** ** The pattern scrapers, end to end *)

Lemma try_patterns_tags probe content ticker0 company_name0 today0 name patterns r :
  try_patterns probe content ticker0 company_name0 today0 name patterns = Some r ->
  ticker r = ticker0 /\ company_name r = company_name0 /\ filing_date r = today0.
Proof.
  induction patterns as [|pattern patterns IH]; cbn [try_patterns]; [discriminate|].
  destruct (re_search pattern (lower content)) as [m|]; [|exact IH].
  destruct (probe content m) as [sh pc].
  destruct (truthy_int sh || truthy_float pc); [|exact IH].
  intros [= <-]. by repeat split.
Qed.

Lemma py_prefix_length {A : Type} (n : Z) (l : list A) :
  length (py_prefix n l)
  = if (0 <=? n)%Z then Nat.min (Z.to_nat n) (length l)
    else length l - Z.to_nat (- n).
Proof.
  unfold py_prefix. destruct (0 <=? n)%Z; rewrite length_take; lia.
Qed.

Lemma sublist_In {A : Type} (l1 l2 : list A) x :
  l1 `sublist_of` l2 -> In x l1 -> In x l2.
Proof.
  induction 1 as [|y l1 l2 _ IH|y l1 l2 _ IH]; [done| |].
  - intros [->|Hx]; [by left|right; by apply IH].
  - intros Hx. right. by apply IH.
Qed.

Section ScraperFacts.

Variable json : Type.
Variable ticker_values : json -> result (list (result ticker_record)).
Variable recent_arrays : json -> result submissions.
Variable today : nat -> str.
Variable wiki_rows : str -> result (list (list cell)).
Variables additional_companies backup_list : list (str * str).

Lemma session_json_request url (w : world json) :
  exists r w', session_json json url w = (r, w')
               /\ server w' = server w /\ sent w' = S (sent w).
Proof.
  unfold session_json, mbind, io_bind. rewrite http_get_unfold.
  destruct (server w (sent w)) as [resp|].
  - destruct (json_of resp); by eexists _, _.
  - by eexists _, _.
Qed.

Lemma get_cik_request ticker0 : one_request (_get_cik json ticker_values ticker0).
Proof.
  intros w. unfold _get_cik, try_except, mbind, io_bind at 1.
  destruct (session_json_request TICKERS_URL w) as (r & w1 & -> & Hs & Hn).
  destruct r as [data|e]; [|by eexists _, _].
  unfold io_bind, lift. destruct (ticker_values data) as [recs|e]; [|by eexists _, _].
  destruct (first_record ticker0 recs); by eexists _, _.
Qed.

Lemma latest_filing_url_request cik : one_request (latest_filing_url json recent_arrays cik).
Proof.
  intros w. unfold latest_filing_url, try_except, mbind, io_bind.
  destruct (session_json_request (submissions_url cik) w) as (r & w1 & -> & Hs & Hn).
  destruct r as [data|e]; by eexists _, _.
Qed.

Lemma download_filing_request url : one_request (_download_filing json url).
Proof.
  intros w. unfold _download_filing, try_except, mbind, io_bind. rewrite http_get_unfold.
  destruct (server w (sent w)) as [resp|]; by eexists _, _.
Qed.

Lemma holders_of_filing_requests extract cik (w : world json) :
  exists hs w',
    holders_of_filing json recent_arrays extract cik w = (Ok hs, w')
    /\ server w' = server w
    /\ sent w <= sent w' <= sent w + 2
    /\ (hs = [] \/ exists content, hs = extract content).
Proof.
  unfold holders_of_filing.
  destruct cik as [[|c cik]|];
    [exists [], w; repeat split; auto; lia| |exists [], w; repeat split; auto; lia].
  unfold mbind, io_bind.
  destruct (latest_filing_url_request (c :: cik) w) as (u & w1 & -> & Hs1 & Hn1).
  destruct u as [[|c1 url]|];
    [exists [], w1; repeat split; auto; lia| |exists [], w1; repeat split; auto; lia].
  destruct (download_filing_request (c1 :: url) w1) as (t & w2 & -> & Hs2 & Hn2).
  destruct t as [[|c2 content]|]; cbn [mret io_ret]; eexists _, _;
    (split; [reflexivity|]); (split; [congruence|]); (split; [lia|]); eauto.
Qed.

Lemma simple_holders_tags i content ticker0 company_name0 :
  Forall (fun r => ticker r = ticker0 /\ company_name r = company_name0
                   /\ In (holder_name r) (map fst simple_scraper.institutions))
         (simple_scraper._extract_holders_simple (today i) content ticker0 company_name0).
Proof.
  unfold simple_scraper._extract_holders_simple.
  pose proof (holders_loop_names simple_scraper.probe content ticker0 company_name0
                (today i) simple_scraper.institutions) as Hnames.
  apply Forall_and. split.
  - apply holders_loop_Forall. intros name patterns r Hr.
    by apply try_patterns_tags in Hr as (? & ? & _).
  - apply Forall_and. split.
    + apply holders_loop_Forall. intros name patterns r Hr.
      by apply try_patterns_tags in Hr as (? & ? & _).
    + apply List.Forall_forall. intros r Hr.
      apply (in_map holder_name) in Hr. exact (sublist_In _ _ _ Hnames Hr).
Qed.

Lemma fast_holders_tags i content ticker0 company_name0 :
  Forall (fun r => ticker r = ticker0 /\ company_name r = company_name0
                   /\ In (holder_name r)
                         (map fst comprehensive_market_scraper.major_institutions))
         (comprehensive_market_scraper._extract_institutional_holders_fast
            (today i) content ticker0 company_name0).
Proof.
  unfold comprehensive_market_scraper._extract_institutional_holders_fast.
  pose proof (holders_loop_names comprehensive_market_scraper.probe content ticker0
                company_name0 (today i) comprehensive_market_scraper.major_institutions)
    as Hnames.
  apply Forall_and. split.
  - apply holders_loop_Forall. intros name patterns r Hr.
    by apply try_patterns_tags in Hr as (? & ? & _).
  - apply Forall_and. split.
    + apply holders_loop_Forall. intros name patterns r Hr.
      by apply try_patterns_tags in Hr as (? & ? & _).
    + apply List.Forall_forall. intros r Hr.
      apply (in_map holder_name) in Hr. exact (sublist_In _ _ _ Hnames Hr).
Qed.

Lemma get_company_holders_requests i ticker0 company_name0 (w : world json) :
  exists hs w',
    _get_company_holders json ticker_values recent_arrays today i ticker0 company_name0 w
    = (Ok hs, w')
    /\ server w' = server w
    /\ sent w <= sent w' <= sent w + 3
    /\ Forall (fun r => ticker r = ticker0 /\ company_name r = company_name0
                        /\ In (holder_name r) (map fst simple_scraper.institutions)) hs.
Proof.
  unfold _get_company_holders, try_except, mbind, io_bind.
  destruct (get_cik_request ticker0 w) as (cik & w1 & -> & Hs1 & Hn1).
  match goal with |- context [holders_of_filing _ _ ?f cik w1] =>
    destruct (holders_of_filing_requests f cik w1) as (hs & w2 & -> & Hs2 & Hn2 & Hhs)
  end.
  exists hs, w2. split; [reflexivity|]. split; [congruence|]. split; [lia|].
  destruct Hhs as [-> | [content ->]]; [constructor|apply simple_holders_tags].
Qed.

Lemma top_companies_loop_requests companies : forall i (w : world json),
  exists records w',
    top_companies_loop json ticker_values recent_arrays today i companies w
    = (Ok records, w')
    /\ server w' = server w
    /\ sent w <= sent w' <= sent w + 3 * length companies
    /\ Forall (fun r => In (ticker r, company_name r) companies
                        /\ In (holder_name r) (map fst simple_scraper.institutions))
              records.
Proof.
  induction companies as [|[t n] companies IH]; intros i w; cbn [top_companies_loop].
  - exists [], w. repeat split; auto; cbn; lia.
  - unfold mbind, io_bind.
    destruct (get_company_holders_requests i t n w) as (hs & w1 & -> & Hs1 & Hn1 & Hhs).
    destruct (IH (S i) w1) as (rest & w2 & -> & Hs2 & Hn2 & Hrest).
    exists (hs ++ rest), w2. split; [reflexivity|]. split; [congruence|].
    split; [cbn [length]; lia|]. apply Forall_app. split.
    + eapply Forall_impl; [exact Hhs|]. intros r (-> & -> & Hname).
      split; [by left|exact Hname].
    + eapply Forall_impl; [exact Hrest|]. intros r [Hin Hname].
      split; [by right|exact Hname].
Qed.

Lemma load_cik_cache_request : one_request (load_cik_cache json ticker_values).
Proof.
  intros w. unfold load_cik_cache, try_except. unfold mbind at 1, io_bind at 1.
  destruct (session_json_request TICKERS_URL w) as (r & w1 & -> & Hs & Hn).
  destruct r as [data|e]; [|by eexists _, _].
  unfold mbind at 1, io_bind, lift.
  destruct (ticker_values data ≫= mapM id) as [recs|e]; by eexists _, _.
Qed.

Lemma get_cik_fast_requests ticker0 cache (w : world json) :
  exists cik loaded w',
    _get_cik_fast json ticker_values ticker0 cache w = (Ok (cik, Some loaded), w')
    /\ server w' = server w
    /\ sent w' = sent w + match cache with Some _ => 0 | None => 1 end.
Proof.
  unfold _get_cik_fast, mbind, io_bind. destruct cache as [c|].
  - cbn [mret io_ret]. eexists _, _, _. split; [reflexivity|]. split; [reflexivity|lia].
  - destruct (load_cik_cache_request w) as (c & w1 & -> & Hs & Hn).
    cbn [mret io_ret]. eexists _, _, _. split; [reflexivity|]. split; [exact Hs|lia].
Qed.

Lemma get_company_institutional_holders_requests i ticker0 company_name0 cache
    (w : world json) :
  exists hs loaded w',
    _get_company_institutional_holders json ticker_values recent_arrays today
      i ticker0 company_name0 cache w = (Ok (hs, Some loaded), w')
    /\ server w' = server w
    /\ sent w <= sent w' <= sent w + 2 + match cache with Some _ => 0 | None => 1 end
    /\ Forall (fun r => ticker r = ticker0 /\ company_name r = company_name0
                        /\ In (holder_name r)
                              (map fst comprehensive_market_scraper.major_institutions)) hs.
Proof.
  unfold _get_company_institutional_holders. unfold mbind at 1, io_bind at 1.
  destruct (get_cik_fast_requests ticker0 cache w) as (cik & loaded & w1 & -> & Hs1 & Hn1).
  cbn [fst snd]. unfold mbind, io_bind, try_except.
  match goal with |- context [holders_of_filing _ _ ?f cik w1] =>
    destruct (holders_of_filing_requests f cik w1) as (hs & w2 & -> & Hs2 & Hn2 & Hhs)
  end.
  cbn [mret io_ret]. exists hs, loaded, w2.
  split; [reflexivity|]. split; [congruence|]. split; [lia|].
  destruct Hhs as [-> | [content ->]]; [constructor|apply fast_holders_tags].
Qed.

Lemma tenth_of_a_second : sleep_check (float_of_decimal false 1 (-1)) = Ok tt.
Proof. vm_compute. reflexivity. Qed.

Lemma full_market_loop_requests companies : forall i cache (w : world json),
  exists records w',
    full_market_loop json ticker_values recent_arrays today i companies cache w
    = (Ok records, w')
    /\ server w' = server w
    /\ sent w <= sent w' <= sent w + 2 * length companies + match cache with Some _ => 0 | None => 1 end
    /\ Forall (fun r => In (ticker r, company_name r) companies
                        /\ In (holder_name r)
                              (map fst comprehensive_market_scraper.major_institutions))
              records.
Proof.
  induction companies as [|[t n] companies IH]; intros i cache w; cbn [full_market_loop].
  - exists [], w. repeat split; auto; cbn; lia.
  - unfold mbind at 1, io_bind at 1.
    destruct (get_company_institutional_holders_requests i t n cache w)
      as (hs & loaded & w1 & -> & Hs1 & Hn1 & Hhs).
    cbn [fst snd]. unfold mbind at 1, io_bind at 1.
    rewrite (sleep_accepted _ _ tenth_of_a_second).
    unfold mbind, io_bind.
    match goal with |- context [full_market_loop _ _ _ _ _ _ _ ?w0] =>
      destruct (IH (S i) (Some loaded) w0) as (rest & w2 & -> & Hs2 & Hn2 & Hrest)
    end.
    cbn [server sent] in Hs2, Hn2.
    exists (hs ++ rest), w2. split; [reflexivity|]. split; [congruence|].
    split; [cbn [length]; lia|]. apply Forall_app. split.
    + eapply Forall_impl; [exact Hhs|]. intros r (-> & -> & Hname).
      split; [by left|exact Hname].
    + eapply Forall_impl; [exact Hrest|]. intros r [Hin Hname].
      split; [by right|exact Hname].
Qed.

Lemma get_comprehensive_companies_request :
  one_request (_get_comprehensive_companies json wiki_rows additional_companies backup_list).
Proof.
  intros w. unfold _get_comprehensive_companies, try_except, mbind, io_bind.
  rewrite http_get_unfold.
  destruct (server w (sent w)) as [resp|]; [|by eexists _, _].
  unfold lift. destruct (wiki_rows (text_of resp)); by eexists _, _.
Qed.

End ScraperFacts.

(** The two lookups of a filer number: [_get_cik] answers with the first
    record that bears the ticker, the cache of [_get_cik_fast] with the
    last one; on a document in which at most one record bears the ticker
    they agree. *)
Theorem cik_lookup_first_and_last (recs : list ticker_record) (t : str) :
  let bearing := filter (fun r => upper (rec_ticker r) = upper t) recs in
  first_record t (map Ok recs) = Ok ((fun r => zfill 10 (rec_cik r)) <$> head bearing)
  /\ fast_dict recs !! upper t = (fun r => zfill 10 (rec_cik r)) <$> last bearing
  /\ (length bearing <= 1 -> first_record t (map Ok recs) = Ok (fast_dict recs !! upper t)).
Proof.
  cbv zeta.
  assert (Hfirst : first_record t (map Ok recs)
                   = Ok ((fun r => zfill 10 (rec_cik r))
                           <$> head (filter (fun r => upper (rec_ticker r) = upper t) recs))).
  { induction recs as [|r recs IH]; [reflexivity|]. cbn [map first_record].
    unfold str_eqb. destruct (decide (upper (rec_ticker r) = upper t)) as [Hkey|Hkey].
    - rewrite bool_decide_eq_true_2 by exact Hkey.
      by rewrite filter_cons_True by exact Hkey.
    - rewrite bool_decide_eq_false_2 by exact Hkey.
      by rewrite filter_cons_False by exact Hkey. }
  assert (Hlast : fast_dict recs !! upper t
                  = (fun r => zfill 10 (rec_cik r))
                      <$> last (filter (fun r => upper (rec_ticker r) = upper t) recs)).
  { clear Hfirst. induction recs as [|r recs IH] using rev_ind.
    - unfold fast_dict. cbn [foldl]. by rewrite lookup_empty.
    - unfold fast_dict in *. rewrite foldl_app, filter_app. cbn [foldl].
      destruct (decide (upper (rec_ticker r) = upper t)) as [Hkey|Hkey].
      + rewrite filter_cons_True, filter_nil by exact Hkey.
        rewrite last_snoc, Hkey. by rewrite lookup_insert_eq.
      + rewrite filter_cons_False, filter_nil, app_nil_r by exact Hkey.
        by rewrite lookup_insert_ne. }
  split; [exact Hfirst|]. split; [exact Hlast|].
  intros Hone. rewrite Hfirst, Hlast.
  destruct (filter _ recs) as [|r [|r' l]]; [reflexivity..|cbn in Hone; lia].
Qed.

(** [scrape_top_companies] lets no exception out (the progress messages
    apart) and sends at most three requests for each company of
    [top[:num_companies]]; every record it returns bears the ticker and the
    name of one of these companies and the name of an institution of the
    table. *)
Theorem scrape_top_companies_requests (json : Type)
    (ticker_values : json -> result (list (result ticker_record)))
    (recent_arrays : json -> result submissions) (today : nat -> str)
    (top : list (str * str)) (num_companies : Z) (w : world json) :
  exists records w',
    scrape_top_companies json ticker_values recent_arrays today top num_companies w
    = (Ok records, w')
    /\ server w' = server w
    /\ sent w <= sent w' <= sent w + 3 * length (py_prefix num_companies top)
    /\ length (py_prefix num_companies top)
       = (if (0 <=? num_companies)%Z then Nat.min (Z.to_nat num_companies) (length top)
          else length top - Z.to_nat (- num_companies))
    /\ Forall (fun r => In (ticker r, company_name r) (py_prefix num_companies top)
                        /\ In (holder_name r) (map fst simple_scraper.institutions))
              records.
Proof.
  unfold scrape_top_companies.
  destruct (top_companies_loop_requests json ticker_values recent_arrays today
              (py_prefix num_companies top) 1 w) as (records & w' & Hrun & Hs & Hn & Hall).
  exists records, w'. split; [exact Hrun|]. split; [exact Hs|]. split; [exact Hn|].
  split; [apply py_prefix_length|exact Hall].
Qed.

(** [scrape_full_market] on a fresh scraper lets no exception out (the
    progress messages apart).  It sends one request for the list of
    companies, one for the ticker document, which is kept for the whole
    run, and at most two for each company it processes; the companies are
    the first [target_companies] of the list when that number is positive
    and below its length, and the whole list otherwise; every record bears
    the ticker and the name of one of them and the name of an institution
    of the table. *)
Theorem scrape_full_market_requests (json : Type)
    (ticker_values : json -> result (list (result ticker_record)))
    (recent_arrays : json -> result submissions) (today : nat -> str)
    (wiki_rows : str -> result (list (list cell)))
    (additional_companies backup_list : list (str * str))
    (target_companies : Z) (w : world json) :
  exists companies w1 records w',
    _get_comprehensive_companies json wiki_rows additional_companies backup_list w
    = (Ok companies, w1)
    /\ sent w1 = S (sent w)
    /\ scrape_full_market json ticker_values recent_arrays today wiki_rows
         additional_companies backup_list target_companies w
       = (Ok records, w')
    /\ server w' = server w
    /\ let processed :=
         if (0 <? target_companies)%Z
            && (target_companies <? Z.of_nat (length companies))%Z
         then take (Z.to_nat target_companies) companies
         else companies in
       sent w < sent w' <= sent w + 2 * length processed + 2
       /\ length processed <= length companies
       /\ Forall (fun r => In (ticker r, company_name r) processed
                           /\ In (holder_name r)
                                 (map fst comprehensive_market_scraper.major_institutions))
                 records.
Proof.
  destruct (get_comprehensive_companies_request json wiki_rows additional_companies
              backup_list w) as (companies & w1 & Hlist & Hs1 & Hn1).
  exists companies, w1. unfold scrape_full_market, mbind, io_bind. rewrite Hlist.
  cbv zeta.
  set (processed := if (0 <? target_companies)%Z
                       && (target_companies <? Z.of_nat (length companies))%Z
                    then take (Z.to_nat target_companies) companies
                    else companies).
  destruct (full_market_loop_requests json ticker_values recent_arrays today
              processed 1 None w1) as (records & w' & Hrun & Hs & Hn & Hall).
  exists records, w'. split; [reflexivity|]. split; [exact Hn1|]. split; [exact Hrun|].
  split; [congruence|]. split; [lia|]. split; [|exact Hall].
  unfold processed. destruct (_ && _); [rewrite length_take|]; lia.
Qed.

(** ** The whole of the batch driver *)

Lemma sends_to_refl {json : Type} urls k (w : world json) : sends_to urls k w w.
Proof.
  split; [reflexivity|]. split; [lia|]. exists []. by rewrite app_nil_r.
Qed.

Lemma requests_of_app a b : requests_of (a ++ b) = requests_of a ++ requests_of b.
Proof. unfold requests_of. apply omap_app. Qed.

Lemma sends_to_trans {json : Type} urls1 urls2 urls k1 k2 k (w1 w2 w3 : world json) :
  sends_to urls1 k1 w1 w2 -> sends_to urls2 k2 w2 w3 ->
  (forall u, In u urls1 -> In u urls) -> (forall u, In u urls2 -> In u urls) ->
  k1 + k2 <= k ->
  sends_to urls k w1 w3.
Proof.
  intros (Hs1 & Hn1 & ev1 & Ht1 & Hr1) (Hs2 & Hn2 & ev2 & Ht2 & Hr2) Hu1 Hu2 Hk.
  split; [congruence|]. split; [lia|].
  exists (ev1 ++ ev2). split; [by rewrite Ht2, Ht1, app_assoc|].
  rewrite requests_of_app. apply Forall_app. split.
  - eapply Forall_impl; [exact Hr1|]. exact Hu1.
  - eapply Forall_impl; [exact Hr2|]. exact Hu2.
Qed.

Lemma http_get_sends {json : Type} url (w : world json) :
  sends_to [url] 1 w (snd (http_get url w)) /\ sent (snd (http_get url w)) = S (sent w).
Proof.
  unfold http_get. destruct (server w (sent w)); cbn [snd]; (split; [|reflexivity]);
    (split; [reflexivity|]); (split; [cbn; lia|]);
    exists [Request url]; (split; [reflexivity|]); repeat constructor.
Qed.

Lemma get_response_loop_sends (json : Type) url retries backoff : forall n i (w : world json),
  sends_to [url] n w (snd (get_response_loop url retries backoff n i w)).
Proof.
  induction n as [|n IH]; intros i w; cbn [get_response_loop].
  - apply sends_to_refl.
  - destruct (http_get_sends url w) as [Hget _].
    destruct (http_get url w) as [[resp|e] w1] eqn:Hrun; cbn [snd] in Hget.
    + cbn [snd].
      apply (sends_to_trans [url] [url] [url] 1 0 (S n) w w1 w1);
        [exact Hget|apply sends_to_refl|auto|auto|lia].
    + assert (Hstay : sends_to [url] (S n) w w1).
      { apply (sends_to_trans [url] [url] [url] 1 0 (S n) w w1 w1);
          [exact Hget|apply sends_to_refl|auto|auto|lia]. }
      destruct e; try exact Hstay.
      destruct (Z.of_nat i <? retries)%Z; [|exact Hstay].
      unfold mbind, io_bind, lift, sleep.
      destruct (sleep_time backoff i) as [t|e]; [|exact Hstay].
      destruct (sleep_check t) as [[]|e]; [|exact Hstay].
      set (w2 := World (server w1) (sent w1) (trace w1 ++ [Sleep t])).
      apply (sends_to_trans [url] [url] [url] 1 n (S n) w w1
               (snd (get_response_loop url retries backoff n (S i) w2)));
        [exact Hget| |auto|auto|lia].
      apply (sends_to_trans [] [url] [url] 0 n n w1 w2
               (snd (get_response_loop url retries backoff n (S i) w2)));
        [|apply IH|by intros ? []|auto|lia].
      split; [reflexivity|]. split; [cbn; lia|].
      exists [Sleep t]. split; [reflexivity|constructor].
Qed.

Section EntryFacts.

Variable json : Type.
Variable read_html : str -> result (list dataframe).
Variables html_tables xml_tables : str -> result (list (result dataframe)).
Variable recent : json -> submissions.
Variables primary_records fallback_records : json -> result (list ticker_record).
Variable sp500_listing : str -> result (list listing_row).

Local Abbreviation get_sp500_tickers := (scrape_proxy_holders.get_sp500_tickers json sp500_listing).
Local Abbreviation listing_loop :=
  (scrape_proxy_holders.listing_loop json read_html html_tables xml_tables recent).

Lemma get_sp500_tickers_sends (w : world json) :
  sends_to [SP500_URL] 1 w (snd (get_sp500_tickers w)).
Proof.
  unfold scrape_proxy_holders.get_sp500_tickers, mbind, io_bind, lift.
  destruct (http_get_sends SP500_URL w) as [Hget _].
  by destruct (http_get SP500_URL w) as [[resp|e] w1].
Qed.

Lemma ticker_document_sends url records (w : world json) :
  sends_to [url] 3 w (snd (ticker_document json url records w)).
Proof.
  unfold ticker_document, get_json, get_response, mbind, io_bind, lift.
  change (Z.to_nat (2 + 1)) with 3.
  pose proof (get_response_loop_sends json url 2 (float_of_Z 1) 3 0 w) as Hloop.
  destruct (get_response_loop url 2 (float_of_Z 1) 3 0 w) as [[resp|e] w1];
    cbn [snd] in *; [|exact Hloop].
  destruct (json_of resp) as [data|]; cbn [mret io_ret raise]; [|exact Hloop].
  by destruct (records data).
Qed.

(** [get_ticker_cik_map] lets no exception out and asks for the two ticker
    documents only. *)
Lemma get_ticker_cik_map_sends (w : world json) :
  exists m w',
    get_ticker_cik_map json primary_records fallback_records w = (Ok m, w')
    /\ sends_to [PRIMARY_URL; FALLBACK_URL] 6 w w'.
Proof.
  assert (Hfallback : forall w1 : world json,
            sends_to [PRIMARY_URL] 3 w w1 ->
            exists m w',
              try_except (ticker_document json FALLBACK_URL fallback_records) (mret ∅) w1
              = (Ok m, w')
              /\ sends_to [PRIMARY_URL; FALLBACK_URL] 6 w w').
  { intros w1 H1. unfold try_except.
    pose proof (ticker_document_sends FALLBACK_URL fallback_records w1) as H2.
    destruct (ticker_document json FALLBACK_URL fallback_records w1) as [[m|e] w2];
      cbn [snd] in H2; eexists _, _; (split; [reflexivity|]);
      (eapply sends_to_trans; [exact H1|exact H2| | |lia]);
      intros u [<-|[]]; cbn; auto. }
  unfold get_ticker_cik_map. cbv zeta.
  change (SEC_FILES_BASE ++ of_string "/files/company_tickers_exchange.json") with FALLBACK_URL.
  change (SEC_FILES_BASE ++ of_string "/files/company_tickers.json") with PRIMARY_URL.
  unfold mbind at 1, io_bind at 1, try_except at 1. unfold mbind at 1, io_bind at 1.
  pose proof (ticker_document_sends PRIMARY_URL primary_records w) as H1.
  destruct (ticker_document json PRIMARY_URL primary_records w) as [[m|e] w1];
    cbn [snd] in H1; cbn [mret io_ret].
  - destruct (decide (m = ∅)); [by apply Hfallback|].
    eexists _, _. split; [reflexivity|].
    eapply sends_to_trans; [exact H1|apply (sends_to_refl [] 0)| | |lia].
    + intros u [<-|[]]. by left.
    + intros u [].
  - by apply Hfallback.
Qed.

Lemma listing_loop_idle tick2cik limit spx processed (w : world json) :
  (limit <= processed)%Z -> listing_loop tick2cik limit spx processed w = (Ok [], w).
Proof.
  intros Hle. destruct spx as [|row spx]; cbn [scrape_proxy_holders.listing_loop];
    [reflexivity|].
  by replace (limit <=? processed)%Z with true by (symmetry; apply Z.leb_le; lia).
Qed.


End EntryFacts.


(** With a limit that is not positive the loop of
    [fetch_ownership_for_sp500] is left at once: the run sends the opening
    requests only, one for the listing and at most six for the two ticker
    documents, and returns the empty dataset when the listing was read (it
    raises what [get_sp500_tickers] raised otherwise). *)
Theorem fetch_ownership_idle
    (json : Type) (read_html : str -> result (list dataframe))
    (html_tables xml_tables : str -> result (list (result dataframe)))
    (recent : json -> submissions)
    (primary_records fallback_records : json -> result (list ticker_record))
    (sp500_listing : str -> result (list listing_row))
    (limit : Z) (w : world json) (Hlimit : (limit <= 0)%Z) :
  exists r w',
    scrape_proxy_holders.fetch_ownership_for_sp500 json read_html html_tables xml_tables
      recent primary_records fallback_records sp500_listing limit w = (r, w')
    /\ sends_to [SP500_URL; PRIMARY_URL; FALLBACK_URL] 7 w w'
    /\ match fst (scrape_proxy_holders.get_sp500_tickers json sp500_listing w) with
       | Ok _ => r = Ok []
       | Raise e => r = Raise e
       end.
Proof.
  unfold scrape_proxy_holders.fetch_ownership_for_sp500. unfold mbind at 1, io_bind at 1.
  pose proof (get_sp500_tickers_sends json sp500_listing w) as Hfirst.
  destruct (scrape_proxy_holders.get_sp500_tickers json sp500_listing w)
    as [[spx|e] w1]; cbn [fst snd] in *.
  2:{ eexists _, _. split; [reflexivity|]. split; [|reflexivity].
      eapply sends_to_trans; [exact Hfirst|apply (sends_to_refl [] 0)| | |lia].
      - intros u [<-|[]]. by left.
      - intros u []. }
  unfold mbind at 1, io_bind at 1.
  destruct (get_ticker_cik_map_sends json primary_records fallback_records w1)
    as (tick2cik & w2 & -> & Hmap).
  unfold mbind, io_bind.
  rewrite (listing_loop_idle json read_html html_tables xml_tables recent
             tick2cik limit spx 0 w2 Hlimit).
  eexists _, _. split; [reflexivity|]. split; [|reflexivity].
  eapply sends_to_trans; [exact Hfirst|exact Hmap| | |lia].
  - intros u [<-|[]]. by left.
  - intros u [<-|[<-|[]]]; cbn; auto.
Qed.

Lemma fetch_ownership_idle_witness :
  (0 <= 0)%Z
  /\ exists w',
       scrape_proxy_holders.fetch_ownership_for_sp500 submissions
         (fun _ => Ok [vanguard_table]) (fun _ => Ok []) (fun _ => Ok []) id
         (fun _ => Ok []) (fun _ => Ok [])
         (fun _ => Ok [ListingRow (CStr "AAPL") "Apple Inc." "Information Technology"])
         0 apple_world = (Ok [], w')
       /\ sends_to [SP500_URL; PRIMARY_URL; FALLBACK_URL] 7 apple_world w'.
Proof.
  split; [lia|].
  destruct (fetch_ownership_idle submissions
              (fun _ => Ok [vanguard_table]) (fun _ => Ok []) (fun _ => Ok [])
              id (fun _ => Ok []) (fun _ => Ok [])
              (fun _ => Ok [ListingRow (CStr "AAPL") "Apple Inc." "Information Technology"])
              0 apple_world) as (r & w' & Hrun & Hsends & Hr); [lia|].
  vm_compute in Hr. subst r. exists w'. split; [exact Hrun|exact Hsends].
Defined.

(** ** The two filing locators and the accepted labels *)






Lemma lstrip_all_spaces a : forallb isspace a = true -> lstrip a = [].
Proof.
  induction a as [|x a IH]; [reflexivity|]. cbn [forallb lstrip]. intros H.
  apply andb_true_iff in H as [-> H]. by apply IH.
Qed.












